(** * Real-time conversation synchronisation engine (server/index.js)

    A shallow embedding of the socket handlers, the two timers and the thread
    endpoint of the chat server, and the properties of the specification that
    concern them: pin mutual exclusion, thread resolution, atomicity, edit and
    delete of missing messages, reaction toggling, mention reset on edit,
    delete/restore of pinned messages, read receipts, the edit window and
    mention acknowledgement.

    The database behind Prisma is modelled as a record of tables, each table a
    list of rows in insertion order.  A handler is a computation in a small
    monad that threads the server state, collects the socket.io emissions and
    may throw; a throw keeps the writes made before it, as the JavaScript
    does, unless they were made inside [transaction]. *)

(** Further parts of the repository follow the same embedding: the context
    endpoint, the [authenticateToken] middleware and the bookmark route of
    server/index.js as functions of the database, [escapeHtml] of
    client/src/utils.js, and the reducers by which the thread panel and the
    bookmarks panel of the client follow the events of the server. *)

From Stdlib Require Import ZArith List String Bool Lia.
From Stdlib Require Import Sorted Ascii.
Import ListNotations.
Open Scope Z_scope.

(** ** Rows of the tables the handlers touch

    Columns that no handler below reads or writes ([type], [updatedAt],
    [linkMetadata], the [createdAt] of the child tables) and the [Attachment]
    table are left out.  Ids are JavaScript numbers, times are milliseconds since the epoch. *)

Module Message.
Record t := mk {
    id : Z;
    content : option string;
    createdAt : Z;
    isDeleted : bool;
    expiresAt : option Z;
    isPinned : bool;
    wasPinned : bool;
    userId : Z;
    parentId : option Z }.

Definition set_content (c : option string) (m : t) : t :=
    mk (id m) c (createdAt m) (isDeleted m) (expiresAt m) (isPinned m)
       (wasPinned m) (userId m) (parentId m).

Definition set_isPinned (b : bool) (m : t) : t :=
    mk (id m) (content m) (createdAt m) (isDeleted m) (expiresAt m) b
       (wasPinned m) (userId m) (parentId m).

  (** [data: { isDeleted, isPinned, wasPinned }] of the delete and restore
      paths. *)
Definition set_flags (del pin was : bool) (m : t) : t :=
    mk (id m) (content m) (createdAt m) del (expiresAt m) pin was (userId m)
       (parentId m).

  (** [ON DELETE SET NULL] of [Message_parentId_fkey]. *)
Definition set_parentId (p : option Z) (m : t) : t :=
    mk (id m) (content m) (createdAt m) (isDeleted m) (expiresAt m) (isPinned m)
       (wasPinned m) (userId m) p.
End Message.

Module Mention.
Record t := mk {
    id : Z;
    userId : Z;
    messageId : Z;
    isRead : bool;
    readAt : option Z }.

Definition set_read (r : bool) (at_ : option Z) (m : t) : t :=
    mk (id m) (userId m) (messageId m) r at_.
End Mention.

Module Reaction.
Record t := mk {
    id : Z;
    emoji : string;
    userId : Z;
    messageId : Z }.
End Reaction.

Module MessageHistory.
Record t := mk {
    messageId : Z;
    oldContent : string }.
End MessageHistory.

Module MessageRead.
Record t := mk {
    messageId : Z;
    userId : Z }.
End MessageRead.

Module Bookmark.
Record t := mk {
    userId : Z;
    messageId : Z }.
End Bookmark.

(** The database.  [message_seq], [mention_seq] and [reaction_seq] are the
    AUTOINCREMENT counters of the ids of their tables: the next id handed
    out, never reused.  [user] holds the ids of the [User] table, which the
    seed script fills and the server never writes.  [socket.user] and
    [req.user] come from a verified token and nothing in the server deletes a
    user, so a foreign key written from [socket.user.id] always resolves and
    is not tested; the user ids that a payload carries are tested. *)
Record Db := mkDb {
  message : list Message.t;
  mention : list Mention.t;
  reaction : list Reaction.t;
  messageHistory : list MessageHistory.t;
  messageRead : list MessageRead.t;
  bookmark : list Bookmark.t;
  message_seq : Z;
  mention_seq : Z;
  reaction_seq : Z;
  user : list Z }.

Definition with_message (l : list Message.t) (d : Db) : Db :=
  mkDb l (mention d) (reaction d) (messageHistory d) (messageRead d)
       (bookmark d) (message_seq d) (mention_seq d) (reaction_seq d) (user d).

Definition with_mention (l : list Mention.t) (d : Db) : Db :=
  mkDb (message d) l (reaction d) (messageHistory d) (messageRead d)
       (bookmark d) (message_seq d) (mention_seq d) (reaction_seq d) (user d).

Definition with_reaction (l : list Reaction.t) (seq : Z) (d : Db) : Db :=
  mkDb (message d) (mention d) l (messageHistory d) (messageRead d)
       (bookmark d) (message_seq d) (mention_seq d) seq (user d).

Definition with_messageHistory (l : list MessageHistory.t) (d : Db) : Db :=
  mkDb (message d) (mention d) (reaction d) l (messageRead d)
       (bookmark d) (message_seq d) (mention_seq d) (reaction_seq d) (user d).

Definition with_messageRead (l : list MessageRead.t) (d : Db) : Db :=
  mkDb (message d) (mention d) (reaction d) (messageHistory d) l
       (bookmark d) (message_seq d) (mention_seq d) (reaction_seq d) (user d).

(** The server: the database and the in-memory [readReceiptBuffer], a
    [Map] from message id to a [Set] of user ids.  Both JavaScript
    containers iterate in insertion order, so each is a list. *)
Record Server := mkServer {
  prisma : Db;
  readReceiptBuffer : list (Z * list Z) }.

(** A connected socket: its id and [socket.user.id]. *)
Record Socket := mkSocket {
  socket_id : string;
  currentUser : Z }.

(** ** What the server sends *)

Inductive Audience :=
| room_general                 (* io.to('general') *)
| room_user (u : Z)            (* io.to(`user_${u}`) *)
| to_socket (sid : string).    (* socket.emit *)

Inductive Event :=
| new_message (m : Message.t)
| messages_expired
| message_pinned (messageId : Z) (isPinned : bool)
| message_deleted (messageId : Z)
| message_restored (m : option Message.t)
| message_updated (m : Message.t)
| bookmark_updated (m : option Message.t) (bm : Bookmark.t)
| message_reaction_removed (messageId : Z) (emoji : string) (userId : Z)
| message_reaction_added (messageId : Z) (r : Reaction.t)
| message_read_update_batch (messageId : Z) (userIds : list Z)
| mention_read_status (mentionId messageId readByUserId : Z) (readAt : option Z)
| my_mention_updated (m : Mention.t)
| error (msg : string).

Definition Emission : Type := Audience * Event.

Definition is_broadcast (e : Emission) : bool :=
  match fst e with room_general => true | _ => false end.

(** ** The handler monad: state, emissions, exceptions *)

Inductive result (A : Type) :=
| Ok (a : A)
| Throw (msg : string).
Arguments Ok {A} a.
Arguments Throw {A} msg.

Definition M (A : Type) : Type := Server -> result A * Server * list Emission.

Definition ret {A} (a : A) : M A := fun s => (Ok a, s, []).

Definition bind {A B} (m : M A) (f : A -> M B) : M B :=
  fun s =>
    match m s with
    | (Ok a, s1, o1) => let '(r, s2, o2) := f a s1 in (r, s2, o1 ++ o2)
    | (Throw e, s1, o1) => (Throw e, s1, o1)
    end.

Notation "x <- m ;; k" := (bind m (fun x => k))
  (at level 61, m at next level, right associativity).
Notation "m ;; k" := (bind m (fun _ => k))
  (at level 61, right associativity).

Definition throw {A} (msg : string) : M A := fun s => (Throw msg, s, []).

(** [try { body } catch (e) { handler(e.message) }] *)
Definition try_catch {A} (body : M A) (handler : string -> M A) : M A :=
  fun s =>
    match body s with
    | (Throw e, s1, o1) => let '(r, s2, o2) := handler e s1 in (r, s2, o1 ++ o2)
    | done => done
    end.

Definition emit (a : Audience) (e : Event) : M unit :=
  fun s => (Ok tt, s, [(a, e)]).

Definition query {A} (q : Db -> A) : M A := fun s => (Ok (q (prisma s)), s, []).

Definition write (w : Db -> Db) : M unit :=
  fun s => (Ok tt, mkServer (w (prisma s)) (readReceiptBuffer s), []).

(** A write that the database may refuse (record not found, foreign key):
    the refusal is thrown and leaves the database as it was. *)
Definition write_or_throw {A} (w : Db -> option (A * Db)) (msg : string) : M A :=
  fun s =>
    match w (prisma s) with
    | Some (a, d) => (Ok a, mkServer d (readReceiptBuffer s), [])
    | None => (Throw msg, s, [])
    end.

(** [prisma.$transaction]: when the body throws, its writes are rolled
    back. *)
Definition transaction {A} (body : M A) : M A :=
  fun s =>
    match body s with
    | (Throw e, s1, o1) => (Throw e, mkServer (prisma s) (readReceiptBuffer s1), o1)
    | done => done
    end.

(** A write that answers with a value, such as a count of rows. *)
Definition write_returning {A} (w : Db -> A * Db) : M A :=
  fun s => let '(a, d) := w (prisma s) in
           (Ok a, mkServer d (readReceiptBuffer s), []).

Definition when (b : bool) (m : M unit) : M unit := if b then m else ret tt.

(** Running a handler on a server state: the state it leaves and what it
    sent. *)
Definition exec (h : M unit) (s : Server) : Server * list Emission :=
  let '(_, s', out) := h s in (s', out).

(** ** Prisma operations used by the handlers

    [P2025] is what Prisma throws when the record of an [update] or [delete]
    does not exist, [P2003] when a foreign key does not resolve. *)

Definition P2025 : string := "P2025"%string.
Definition P2003 : string := "P2003"%string.

Definition has_id (i : Z) (m : Message.t) : bool := Message.id m =? i.

(** [prisma.message.findUnique({ where: { id } })] *)
Definition message_findUnique (i : Z) (d : Db) : option Message.t :=
  find (has_id i) (message d).

(** The ids that Prisma takes for a 64-bit integer column.  For another
    number the call throws before the database is asked. *)
Definition is_int64 (i : Z) : bool := (- 2 ^ 63 <=? i) && (i <? 2 ^ 63).

(** The message of that error, which the handlers pass on as it is; the text
    itself is Prisma's and is not spelled out. *)
Definition PrismaValidation : string := "PrismaClientValidationError"%string.

(** [await prisma.message.findUnique({ where: { id } })] inside a [try]: the
    row, [null] when no row has the id, a throw when the id is no 64-bit
    integer.  No row has such an id, so the table is asked first. *)
Definition message_find (i : Z) : M (option Message.t) :=
  fun s =>
    match message_findUnique i (prisma s) with
    | Some m => (Ok (Some m), s, [])
    | None => if is_int64 i then (Ok None, s, [])
              else (Throw PrismaValidation, s, [])
    end.

Definition update_where {A} (p : A -> bool) (f : A -> A) (l : list A) : list A :=
  map (fun x => if p x then f x else x) l.

(** [prisma.message.update({ where: { id }, data })]: the updated row, or
    nothing when no row has that id. *)
Definition message_update (i : Z) (data : Message.t -> Message.t) (d : Db)
  : option (Message.t * Db) :=
  match message_findUnique i d with
  | Some m => Some (data m, with_message (update_where (has_id i) data (message d)) d)
  | None => None
  end.

(** [prisma.message.updateMany({ where, data })] *)
Definition message_updateMany (where_ : Message.t -> bool)
  (data : Message.t -> Message.t) (d : Db) : Db :=
  with_message (update_where where_ data (message d)) d.

Definition fk_message (i : Z) (d : Db) : bool := existsb (has_id i) (message d).

Fixpoint distinct (l : list Z) : bool :=
  match l with
  | [] => true
  | x :: rest => negb (existsb (Z.eqb x) rest) && distinct rest
  end.

(** The rows of [mentions: { create: mentionData }], numbered from [next]. *)
Fixpoint create_mentions (next messageId : Z) (userIds : list Z)
  : list Mention.t :=
  match userIds with
  | [] => []
  | u :: rest =>
      Mention.mk next u messageId false None
      :: create_mentions (next + 1) messageId rest
  end.

(** The times that [new Date(t)] takes: at most 8.64e15 milliseconds from
    the epoch.  Beyond that the Date is invalid and Prisma refuses it. *)
Definition is_date (t : Z) : bool :=
  (- 8640000000000000 <=? t) && (t <=? 8640000000000000).

(** [prisma.message.create] with its nested mentions.  The row gets the next
    id.  It is refused when [parentId] names no message (SQLite tests the
    foreign key once the row is in, so a row may name itself), when a user is
    mentioned twice (the unique index on [Mention]), when a mentioned user
    does not exist (the foreign key of [Mention] to [User]) or when
    [expiresAt] is no valid Date. *)
Definition message_create (content : option string) (createdAt userId : Z)
  (parentId expiresAt : option Z) (mentionUserIds : list Z) (d : Db)
  : option (Message.t * Db) :=
  if match parentId with
     | Some p => fk_message p d || (p =? message_seq d)
     | None => true
     end
     && distinct mentionUserIds
     && forallb (fun u => existsb (Z.eqb u) (user d)) mentionUserIds
     && match expiresAt with Some t => is_date t | None => true end
  then
    let m := Message.mk (message_seq d) content createdAt false expiresAt
               false false userId parentId in
    Some (m, mkDb (message d ++ [m])
                  (mention d
                   ++ create_mentions (mention_seq d) (message_seq d)
                        mentionUserIds)
                  (reaction d) (messageHistory d) (messageRead d) (bookmark d)
                  (message_seq d + 1)
                  (mention_seq d + Z.of_nat (List.length mentionUserIds))
                  (reaction_seq d) (user d))
  else None.

(** [prisma.message.deleteMany({ where })] and the ON DELETE rules of the
    schema: replies to a deleted message lose their [parentId], the rows of
    the child tables go with their message.  The answer is the count of
    deleted messages. *)
Definition message_deleteMany (where_ : Message.t -> bool) (d : Db) : Z * Db :=
  let gone := filter where_ (message d) in
  let is_gone i := existsb (has_id i) gone in
  (Z.of_nat (List.length gone),
   mkDb (map (fun m =>
                if match Message.parentId m with
                   | Some p => is_gone p
                   | None => false
                   end
                then Message.set_parentId None m else m)
             (filter (fun m => negb (where_ m)) (message d)))
        (filter (fun x => negb (is_gone (Mention.messageId x))) (mention d))
        (filter (fun x => negb (is_gone (Reaction.messageId x))) (reaction d))
        (filter (fun x => negb (is_gone (MessageHistory.messageId x)))
                (messageHistory d))
        (filter (fun x => negb (is_gone (MessageRead.messageId x)))
                (messageRead d))
        (filter (fun x => negb (is_gone (Bookmark.messageId x))) (bookmark d))
        (message_seq d) (mention_seq d) (reaction_seq d) (user d)).

(** [prisma.messageHistory.create] *)
Definition messageHistory_create (h : MessageHistory.t) (d : Db)
  : option (unit * Db) :=
  if fk_message (MessageHistory.messageId h) d
  then Some (tt, with_messageHistory (messageHistory d ++ [h]) d)
  else None.

(** [prisma.mention.updateMany({ where: { messageId }, data })] *)
Definition mention_updateMany (messageId : Z) (data : Mention.t -> Mention.t)
  (d : Db) : Db :=
  with_mention
    (update_where (fun x => Mention.messageId x =? messageId) data (mention d)) d.

Definition mention_findUnique (i : Z) (d : Db) : option Mention.t :=
  find (fun x => Mention.id x =? i) (mention d).

(** [prisma.mention.update({ where: { id }, data })] *)
Definition mention_update (i : Z) (data : Mention.t -> Mention.t) (d : Db)
  : option (Mention.t * Db) :=
  match mention_findUnique i d with
  | Some m =>
      Some (data m,
            with_mention (update_where (fun x => Mention.id x =? i) data (mention d)) d)
  | None => None
  end.

Definition same_triple (userId messageId : Z) (emoji : string) (r : Reaction.t)
  : bool :=
  (Reaction.userId r =? userId) && (Reaction.messageId r =? messageId)
  && String.eqb (Reaction.emoji r) emoji.

(** [prisma.reaction.findUnique({ where: { userId_messageId_emoji } })] *)
Definition reaction_findUnique (userId messageId : Z) (emoji : string) (d : Db)
  : option Reaction.t :=
  find (same_triple userId messageId emoji) (reaction d).

(** [prisma.reaction.delete({ where: { id } })] *)
Definition reaction_delete (i : Z) (d : Db) : option (unit * Db) :=
  if existsb (fun r => Reaction.id r =? i) (reaction d)
  then Some (tt, with_reaction
                   (filter (fun r => negb (Reaction.id r =? i)) (reaction d))
                   (reaction_seq d) d)
  else None.

(** [prisma.reaction.create]: refused when the message does not exist or the
    unique index on (userId, messageId, emoji) already holds the triple. *)
Definition reaction_create (emoji : string) (userId messageId : Z) (d : Db)
  : option (Reaction.t * Db) :=
  if fk_message messageId d
     && negb (existsb (same_triple userId messageId emoji) (reaction d))
  then
    let r := Reaction.mk (reaction_seq d) emoji userId messageId in
    Some (r, with_reaction (reaction d ++ [r]) (reaction_seq d + 1) d)
  else None.

Definition same_read (userId messageId : Z) (r : MessageRead.t) : bool :=
  (MessageRead.userId r =? userId) && (MessageRead.messageId r =? messageId).

(** [prisma.messageRead.upsert({ where: { userId_messageId }, update: {},
    create })] *)
Definition messageRead_upsert (userId messageId : Z) (d : Db)
  : option (unit * Db) :=
  if existsb (same_read userId messageId) (messageRead d) then Some (tt, d)
  else if fk_message messageId d
  then Some (tt, with_messageRead
                   (messageRead d ++ [MessageRead.mk messageId userId]) d)
  else None.

(** [prisma.bookmark.findMany({ where: { messageId } })] *)
Definition bookmark_findMany (messageId : Z) (d : Db) : list Bookmark.t :=
  filter (fun b => Bookmark.messageId b =? messageId) (bookmark d).

(** ** The read-receipt buffer: a Map of Sets *)

Definition Set_add (u : Z) (us : list Z) : list Z :=
  if existsb (Z.eqb u) us then us else us ++ [u].

Definition Map_has (k : Z) (buf : list (Z * list Z)) : bool :=
  existsb (fun kv => fst kv =? k) buf.

Fixpoint Map_set (k : Z) (v : list Z) (buf : list (Z * list Z))
  : list (Z * list Z) :=
  match buf with
  | [] => [(k, v)]
  | (k', v') :: rest =>
      if k' =? k then (k', v) :: rest else (k', v') :: Map_set k v rest
  end.

Definition Map_get (k : Z) (buf : list (Z * list Z)) : option (list Z) :=
  option_map snd (find (fun kv => fst kv =? k) buf).

(** [buf.get(k).add(u)]: the Set held by the Map is changed in place. *)
Definition Map_get_add (k u : Z) (buf : list (Z * list Z)) : list (Z * list Z) :=
  map (fun kv => if fst kv =? k then (fst kv, Set_add u (snd kv)) else kv) buf.

Definition buffer (f : list (Z * list Z) -> list (Z * list Z)) : M unit :=
  fun s => (Ok tt, mkServer (prisma s) (f (readReceiptBuffer s)), []).

Definition inspect {A} (q : list (Z * list Z) -> A) : M A :=
  fun s => (Ok (q (readReceiptBuffer s)), s, []).

(** ** Socket handlers *)

(** The payload of [send_message], without its attachments. *)
Record SendData := mkSendData {
  data_content : string;
  replyToId : option Z;
  data_expiresAt : option Z;
  mentionUserIds : list Z }.

(** JavaScript truthiness of a nullable number: [null] and [0] are falsy. *)
Definition truthy (o : option Z) : bool :=
  match o with Some p => negb (p =? 0) | None => false end.

(** [x || null] *)
Definition or_null (o : option Z) : option Z := if truthy o then o else None.

(** [handleDeleteMessage(socket, messageId)] *)
Definition handleDeleteMessage (socket : Socket) (messageId : Z) : M unit :=
  let currentUserId := currentUser socket in
  try_catch
    (msg <- message_find messageId ;;
     match msg with
     | None => ret tt
     | Some msg =>
         if negb (Message.userId msg =? currentUserId) && negb (currentUserId =? 1)
         then throw "Unauthorized"
         else
           write_or_throw
             (message_update messageId
                (Message.set_flags true false (Message.isPinned msg))) P2025 ;;
           when (Message.isPinned msg)
             (emit room_general (message_pinned messageId false)) ;;
           emit room_general (message_deleted messageId)
     end)
    (fun e => emit (to_socket (socket_id socket)) (error e)).

(** [socket.on('delete_message', ...)] *)
Definition delete_message (socket : Socket) (messageId : Z) : M unit :=
  handleDeleteMessage socket messageId.

(** [socket.on('restore_message', ...)]; the catch only logs. *)
Definition restore_message (socket : Socket) (messageId : Z) : M unit :=
  try_catch
    (msg <- query (message_findUnique messageId) ;;
     match msg with
     | None => ret tt
     | Some msg =>
         if negb (Message.userId msg =? currentUser socket) then ret tt
         else
           restored <- write_or_throw
             (message_update messageId
                (Message.set_flags false (Message.wasPinned msg) false)) P2025 ;;
           updatedMsg <- query (message_findUnique messageId) ;;
           emit room_general (message_restored updatedMsg) ;;
           when (Message.isPinned restored)
             (emit room_general (message_pinned messageId true)) ;;
           bookmarks <- query (bookmark_findMany messageId) ;;
           fold_right
             (fun bm rest =>
                emit (room_user (Bookmark.userId bm))
                     (bookmark_updated updatedMsg bm) ;; rest)
             (ret tt) bookmarks
     end)
    (fun _ => ret tt).

(** [socket.on('pin_message', ...)] *)
Definition pin_message (socket : Socket) (messageId : Z) (isPinned : bool)
  : M unit :=
  try_catch
    (when isPinned
       (write (message_updateMany Message.isPinned (Message.set_isPinned false))) ;;
     updated <- write_or_throw
       (message_update messageId (Message.set_isPinned isPinned)) P2025 ;;
     emit room_general (message_pinned messageId isPinned))
    (fun _ => emit (to_socket (socket_id socket)) (error "Failed to pin message")).

(** [socket.on('toggle_reaction', ...)]; the catch only logs. *)
Definition toggle_reaction (socket : Socket) (messageId : Z) (emoji : string)
  : M unit :=
  try_catch
    (let userId := currentUser socket in
     existingReaction <- query (reaction_findUnique userId messageId emoji) ;;
     match existingReaction with
     | Some existingReaction =>
         write_or_throw (reaction_delete (Reaction.id existingReaction)) P2025 ;;
         emit room_general (message_reaction_removed messageId emoji userId)
     | None =>
         newReaction <- write_or_throw
           (reaction_create emoji userId messageId) P2003 ;;
         emit room_general (message_reaction_added messageId newReaction)
     end)
    (fun _ => ret tt).

(** [socket.on('mark_read', ...)]; the catch is empty. *)
Definition mark_read (socket : Socket) (messageId : Z) : M unit :=
  try_catch
    (write_or_throw (messageRead_upsert (currentUser socket) messageId) P2003 ;;
     has <- inspect (Map_has messageId) ;;
     when (negb has) (buffer (Map_set messageId [])) ;;
     buffer (Map_get_add messageId (currentUser socket)))
    (fun _ => ret tt).

(** The [setInterval] callback that drains [readReceiptBuffer]. *)
Definition flush : M unit :=
  fun s =>
    match readReceiptBuffer s with
    | [] => (Ok tt, s, [])
    | buf =>
        (Ok tt, mkServer (prisma s) [],
         map (fun kv =>
                (room_general, message_read_update_batch (fst kv) (snd kv))) buf)
    end.

(** The cron job that deletes expired messages; [now] is [new Date()], the
    catch only logs. *)
Definition sweep (now : Z) : M unit :=
  try_catch
    (count <- write_returning
       (message_deleteMany
          (fun m => match Message.expiresAt m with
                    | Some t => t <? now
                    | None => false
                    end)) ;;
     when (0 <? count) (emit room_general messages_expired))
    (fun _ => ret tt).

(** [socket.on('mark_mention_read', ...)]; [now] is [new Date()], the catch
    only logs.  [mention.message] is the row the foreign key points to. *)
Definition mark_mention_read (now : Z) (socket : Socket) (mentionId : Z)
  : M unit :=
  try_catch
    (mention <- write_or_throw
       (mention_update mentionId (Mention.set_read true (Some now))) P2025 ;;
     message <- query (message_findUnique (Mention.messageId mention)) ;;
     match message with
     | None => throw P2025
     | Some message =>
         emit (room_user (Message.userId message))
              (mention_read_status (Mention.id mention)
                 (Mention.messageId mention) (Mention.userId mention)
                 (Mention.readAt mention)) ;;
         emit (room_user (Mention.userId mention)) (my_mention_updated mention)
     end)
    (fun _ => ret tt).

Section Edit.
(** [sanitizeHtml(_, sanitizeConfig)] of the sanitize-html package. *)
Variable sanitizeHtml : string -> string.

(** [msg.content || ""] *)
Definition content_or_empty (c : option string) : string :=
  match c with Some c => c | None => ""%string end.

(** [socket.on('send_message', ...)]; [now] is the CURRENT_TIMESTAMP given to
    [createdAt].  The link preview that follows the broadcast only writes
    [linkMetadata] and is left out. *)
Definition send_message (now : Z) (socket : Socket) (data : SendData) : M unit :=
  try_catch
    (let cleanContent := sanitizeHtml (data_content data) in
     newMessage <- write_or_throw
       (message_create (Some cleanContent) now (currentUser socket)
          (or_null (replyToId data)) (or_null (data_expiresAt data))
          (mentionUserIds data)) P2003 ;;
     emit room_general (new_message newMessage))
    (fun _ => emit (to_socket (socket_id socket))
                   (error "Failed to send message")).

(** [socket.on('edit_message', ...)]; [now] is [Date.now()]. *)
Definition edit_message (now : Z) (socket : Socket) (messageId : Z)
  (newContent : string) : M unit :=
  try_catch
    (msg <- message_find messageId ;;
     match msg with
     | None => throw "Unauthorized"
     | Some msg =>
         if negb (Message.userId msg =? currentUser socket)
         then throw "Unauthorized"
         else if now - Message.createdAt msg >? 5 * 60 * 1000
         then throw "Edit time limit exceeded (5 mins)"
         else
           let cleanContent := sanitizeHtml newContent in
           updatedMessage <- transaction
             (write_or_throw
                (messageHistory_create
                   (MessageHistory.mk (Message.id msg)
                      (content_or_empty (Message.content msg)))) P2003 ;;
              write (mention_updateMany (Message.id msg)
                       (Mention.set_read false None)) ;;
              write_or_throw
                (message_update messageId
                   (Message.set_content (Some cleanContent))) P2025) ;;
           emit room_general (message_updated updatedMessage)
     end)
    (fun e => emit (to_socket (socket_id socket)) (error e)).
End Edit.

(** ** The thread endpoint, GET /api/messages/:id/thread

    The two [while] loops take fuel: a run that is out of fuel before its
    loop ends yields [None]. *)

Definition MAX_DEPTH : Z := 50.

Fixpoint insert_by_createdAt (m : Message.t) (l : list Message.t)
  : list Message.t :=
  match l with
  | [] => [m]
  | x :: rest =>
      if Message.createdAt m <=? Message.createdAt x then m :: x :: rest
      else x :: insert_by_createdAt m rest
  end.

(** Ascending by [createdAt], rows of equal time in their given order. *)
Definition sort_by_createdAt (l : list Message.t) : list Message.t :=
  fold_right insert_by_createdAt [] l.

(** [prisma.message.findMany({ where: { parentId: { in: queue } },
    orderBy: { createdAt: 'asc' } })] *)
Definition message_findMany_children (queue : list Z) (d : Db)
  : list Message.t :=
  sort_by_createdAt
    (filter (fun m => match Message.parentId m with
                      | Some p => existsb (Z.eqb p) queue
                      | None => false
                      end) (message d)).

(** [while (rootMessage.parentId) { ... }] *)
Fixpoint walk_up (fuel : nat) (d : Db) (rootMessage : Message.t)
  : option Message.t :=
  match fuel with
  | O => None
  | S fuel =>
      if truthy (Message.parentId rootMessage) then
        match Message.parentId rootMessage with
        | Some p =>
            match message_findUnique p d with
            | None => Some rootMessage
            | Some parent => walk_up fuel d parent
            end
        | None => Some rootMessage
        end
      else Some rootMessage
  end.

(** [while (queue.length > 0 && depth < MAX_DEPTH) { ... }]; the result is
    [allReplies] and the final [depth]. *)
Fixpoint bfs (fuel : nat) (d : Db) (allReplies : list Message.t)
  (queue : list Z) (depth : Z) : option (list Message.t * Z) :=
  match fuel with
  | O => None
  | S fuel =>
      if (0 <? Z.of_nat (List.length queue)) && (depth <? MAX_DEPTH) then
        let batch := message_findMany_children queue d in
        if Z.of_nat (List.length batch) =? 0 then Some (allReplies, depth)
        else bfs fuel d (allReplies ++ batch) (map Message.id batch) (depth + 1)
      else Some (allReplies, depth)
  end.

Inductive Response :=
| status_404
| status_500
| json (root : Message.t) (replies : list Message.t).

(** The handler once [parseInt] has read an integer.  The first
    [findUnique] throws on an id that is no 64-bit integer, and the catch
    answers 500; the later ones are given ids read from the table. *)
Definition thread (fuel : nat) (d : Db) (startId : Z) : option Response :=
  match message_findUnique startId d with
  | None => if is_int64 startId then Some status_404 else Some status_500
  | Some rootMessage =>
      match walk_up fuel d rootMessage with
      | None => None
      | Some rootMessage =>
          match bfs fuel d [] [Message.id rootMessage] 0 with
          | None => None
          | Some (allReplies, _) =>
              Some (json rootMessage (sort_by_createdAt allReplies))
          end
      end
  end.

(** The route on what [parseInt(req.params.id)] gives: an integer, or NaN
    ([None]), which Prisma refuses as it refuses a number out of range. *)
Definition thread_route (fuel : nat) (d : Db) (parsed : option Z)
  : option Response :=
  match parsed with
  | Some startId => thread fuel d startId
  | None => Some status_500
  end.

(** ** Requests and runs *)

Inductive Request :=
| req_delete (socket : Socket) (messageId : Z)
| req_restore (socket : Socket) (messageId : Z)
| req_pin (socket : Socket) (messageId : Z) (isPinned : bool)
| req_toggle (socket : Socket) (messageId : Z) (emoji : string)
| req_mark_read (socket : Socket) (messageId : Z).

Definition handle (r : Request) : M unit :=
  match r with
  | req_delete socket messageId => delete_message socket messageId
  | req_restore socket messageId => restore_message socket messageId
  | req_pin socket messageId isPinned => pin_message socket messageId isPinned
  | req_toggle socket messageId emoji => toggle_reaction socket messageId emoji
  | req_mark_read socket messageId => mark_read socket messageId
  end.

(** The requests served one after the other. *)
Definition serve (rs : list Request) (s : Server) : Server :=
  fold_left (fun s r => fst (exec (handle r) s)) rs s.

Definition pinned (d : Db) : list Message.t := filter Message.isPinned (message d).

(** A fresh row of [Message]: the column defaults of the migration. *)
Definition fresh_message (id userId createdAt : Z) (content : string)
  (parentId : option Z) : Message.t :=
  Message.mk id (Some content) createdAt false None false false userId parentId.

(** ** Predicates of the properties and the stores of the examples *)

(** Where the upward walk may stop: at a message whose [parentId] is falsy,
    or whose parent is not in the table. *)
Definition no_parent_to_follow (d : Db) (root : Message.t) : Prop :=
  truthy (Message.parentId root) = false
  \/ exists p, Message.parentId root = Some p /\ message_findUnique p d = None.

(** The parent links of a table are acyclic when some rank strictly falls
    from every message to its parent. *)
Definition acyclic_parents (d : Db) : Prop :=
  exists rank : Z -> nat,
    forall m p, In m (message d) -> Message.parentId m = Some p ->
                (rank p < rank (Message.id m))%nat.

Definition alice : Socket := mkSocket "socket-a" 2.

Definition bob : Socket := mkSocket "socket-b" 3.

Definition carol : Socket := mkSocket "socket-c" 4.

(** Two fresh messages of alice, nothing pinned. *)
Definition two_messages : Server :=
  mkServer
    (mkDb [fresh_message 1 2 0 "first" None; fresh_message 2 2 10 "second" None]
          [] [] [] [] [] 3 1 1 [1; 2; 3; 4]) [].

(** Message 1 of alice is pinned, there is no message 2. *)
Definition one_pinned : Server :=
  mkServer
    (mkDb [Message.set_isPinned true (fresh_message 1 2 0 "first" None)]
          [] [] [] [] [] 2 1 1 [1; 2; 3; 4]) [].

(** Alice (user 2) wrote message 1 and mentioned bob (user 3) in it. *)
Definition one_mention : Server :=
  mkServer
    (mkDb [fresh_message 1 2 0 "hi @bob" None]
          [Mention.mk 1 3 1 false None] [] [] [] [] 2 2 1 [1; 2; 3; 4]) [].

(** Bob has acknowledged alice's mention of him. *)
Definition acknowledged_mention : Server :=
  mkServer
    (mkDb [fresh_message 1 2 0 "hi @bob" None]
          [Mention.mk 1 3 1 true (Some 500)] [] [] [] [] 2 2 1 [1; 2; 3; 4]) [].

Definition triple (r : Reaction.t) : Z * Z * string :=
  (Reaction.userId r, Reaction.messageId r, Reaction.emoji r).

(** Does the table hold a reaction of this user to this message with this
    emoji? *)
Definition has_reaction (userId messageId : Z) (emoji : string) (d : Db) : bool :=
  existsb (same_triple userId messageId emoji) (reaction d).

(** What the schema keeps true of the [Reaction] table: the unique index on
    (userId, messageId, emoji), ids below the AUTOINCREMENT counter, and the
    foreign key to [Message]. *)
Definition reactions_wf (d : Db) : Prop :=
  NoDup (map triple (reaction d))
  /\ (forall r, In r (reaction d) -> Reaction.id r < reaction_seq d)
  /\ (forall r, In r (reaction d) -> fk_message (Reaction.messageId r) d = true).

(** A run of toggles, each by some socket on some message with some emoji. *)
Definition serve_toggles (ts : list (Socket * Z * string)) (s : Server) : Server :=
  serve (map (fun t => req_toggle (fst (fst t)) (snd (fst t)) (snd t)) ts) s.

(** How many [MessageRead] rows the user has for the message. *)
Definition count_reads (userId messageId : Z) (d : Db) : nat :=
  List.length (filter (same_read userId messageId) (messageRead d)).

(** The unique index on (userId, messageId). *)
Definition reads_unique (d : Db) : Prop :=
  forall userId messageId, (count_reads userId messageId d <= 1)%nat.

(** A Map has each key once and a Set each element once. *)
Definition buffer_wf (buf : list (Z * list Z)) : Prop :=
  NoDup (map fst buf) /\ Forall (fun kv => NoDup (snd kv)) buf.

(** A run of [mark_read] calls, each by some socket on some message. *)
Definition serve_reads (calls : list (Socket * Z)) (s : Server) : Server :=
  serve (map (fun c => req_mark_read (fst c) (snd c)) calls) s.

Definition is_batch_for (messageId : Z) (e : Emission) : bool :=
  match snd e with
  | message_read_update_batch m _ => m =? messageId
  | _ => false
  end.

(** What [mark_read] does to the buffer. *)
Definition buffer_add (messageId userId : Z) (buf : list (Z * list Z))
  : list (Z * list Z) :=
  Map_get_add messageId userId
    (if negb (Map_has messageId buf) then Map_set messageId [] buf else buf).

(** The ids and parent links of the [Message] table, with its id counter. *)
Definition links (d : Db) : list (Z * option Z) * Z :=
  (map (fun m => (Message.id m, Message.parentId m)) (message d), message_seq d).

(** Ids are positive and below the counter, and no parent has a greater id
    than its reply: a reply names a message that was there before it, or
    itself. *)
Definition created_in_order (d : Db) : Prop :=
  0 < message_seq d
  /\ forall i p, In (i, p) (fst (links d)) ->
                 0 < i < message_seq d /\ forall q, p = Some q -> q <= i.

(** A handler that leaves the ids and parent links as they are. *)
Definition keeps_links {A} (m : M A) : Prop :=
  forall s, links (prisma (snd (fst (m s)))) = links (prisma s).

(** The server after the seed script: its four users and nothing else. *)
Definition fresh_server : Server :=
  mkServer (mkDb [] [] [] [] [] [] 1 1 1 [1; 2; 3; 4]) [].

(** What the server runs on its [Message] table: the socket handlers, the
    flush and the sweep.  (The REST endpoints read it; the only tables they
    write are [Bookmark] and [Device].) *)
Inductive entry_point (sanitizeHtml : string -> string) : M unit -> Prop :=
| on_send now socket data :
    entry_point sanitizeHtml (send_message sanitizeHtml now socket data)
| on_delete socket messageId :
    entry_point sanitizeHtml (delete_message socket messageId)
| on_restore socket messageId :
    entry_point sanitizeHtml (restore_message socket messageId)
| on_edit now socket messageId newContent :
    entry_point sanitizeHtml
      (edit_message sanitizeHtml now socket messageId newContent)
| on_pin socket messageId isPinned :
    entry_point sanitizeHtml (pin_message socket messageId isPinned)
| on_toggle socket messageId emoji :
    entry_point sanitizeHtml (toggle_reaction socket messageId emoji)
| on_mark_read socket messageId :
    entry_point sanitizeHtml (mark_read socket messageId)
| on_mark_mention_read now socket mentionId :
    entry_point sanitizeHtml (mark_mention_read now socket mentionId)
| on_flush : entry_point sanitizeHtml flush
| on_sweep now : entry_point sanitizeHtml (sweep now).

(** The states the server can be in: it starts empty and runs one entry
    point after the other. *)
Inductive built (sanitizeHtml : string -> string) : Server -> Prop :=
| built_fresh : built sanitizeHtml fresh_server
| built_step (h : M unit) (s : Server) :
    built sanitizeHtml s -> entry_point sanitizeHtml h ->
    built sanitizeHtml (fst (exec h s)).

(** An update of a message that touches neither its id nor its parent. *)
Definition quiet (f : Message.t -> Message.t) : Prop :=
  forall x, Message.id (f x) = Message.id x
            /\ Message.parentId (f x) = Message.parentId x.

(** The primary key of [Message]. *)
Definition unique_ids (d : Db) : Prop := NoDup (map Message.id (message d)).

Definition at_most_one_pinned (d : Db) : Prop := (List.length (pinned d) <= 1)%nat.

Definition is_pin_or_delete (r : Request) : Prop :=
  match r with
  | req_pin _ _ _ | req_delete _ _ => True
  | _ => False
  end.

(** Alice opens a thread and bob replies to it. *)
Definition small_talk : Server :=
  fst (exec (send_message (fun c => c) 200 bob
               (mkSendData "reply" (Some 1) None [2]))
         (fst (exec (send_message (fun c => c) 100 alice
                       (mkSendData "root" None None []))
                 fresh_server))).

(** ** Predicates and stores of the further properties *)




(** [expiresAt: { lt: now }] *)
Definition is_expired (now : Z) (m : Message.t) : bool :=
  match Message.expiresAt m with
  | Some t => t <? now
  | None => false
  end.

(** The foreign key of [parentId]: every parent named is in the table. *)
Definition parents_resolve (d : Db) : Prop :=
  forall m p, In m (message d) -> Message.parentId m = Some p ->
              fk_message p d = true.

(** Alice's message 1 was deleted while pinned; bob bookmarked it, carol
    bookmarked both messages. *)
Definition deleted_with_bookmarks : Server :=
  mkServer
    (mkDb [Message.set_flags true false true (fresh_message 1 2 0 "first" None);
           fresh_message 2 2 10 "second" None]
          [] [] [] []
          [Bookmark.mk 3 1; Bookmark.mk 4 2; Bookmark.mk 4 1] 3 1 1
          [1; 2; 3; 4]) [].

(** Message 1 expires at time 50; message 2 replies to it and does not
    expire. *)
Definition expiring_thread : Server :=
  mkServer
    (mkDb [Message.mk 1 (Some "soon gone"%string) 0 false (Some 50) false false
             2 None;
           fresh_message 2 3 10 "still here" (Some 1)]
          [] [] [] [] [] 3 1 1 [1; 2; 3; 4]) [].

(** A handler that leaves a view of the database as it is. *)
Definition keeps_db {X A} (view : Db -> X) (m : M A) : Prop :=
  forall s, view (prisma (snd (fst (m s)))) = view (prisma s).

(** A handler that leaves the read-receipt buffer as it is. *)
Definition keeps_buf {A} (m : M A) : Prop :=
  forall s, readReceiptBuffer (snd (fst (m s))) = readReceiptBuffer s.

(** The tables that only the reaction and read-receipt handlers write. *)
Definition side_tables (d : Db) : list Reaction.t * Z * list MessageRead.t :=
  (reaction d, reaction_seq d, messageRead d).

(** What the schema and the buffer's type keep true of a server state. *)
Definition schema_holds (s : Server) : Prop :=
  unique_ids (prisma s)
  /\ parents_resolve (prisma s)
  /\ reactions_wf (prisma s)
  /\ NoDup (map Reaction.id (reaction (prisma s)))
  /\ reads_unique (prisma s)
  /\ buffer_wf (readReceiptBuffer s).

(** ** GET /api/messages/:id/context *)

Fixpoint insert_ranked (rank : Message.t -> Z) (m : Message.t)
  (l : list Message.t) : list Message.t :=
  match l with
  | [] => [m]
  | x :: rest =>
      if rank m <=? rank x then m :: x :: rest
      else x :: insert_ranked rank m rest
  end.

(** [orderBy]: ascending in [rank].  [{ id: 'asc' }] ranks a row by its id,
    [{ id: 'desc' }] by the opposite of its id. *)
Definition order_by (rank : Message.t -> Z) (l : list Message.t)
  : list Message.t :=
  fold_right (insert_ranked rank) [] l.

Inductive ContextResponse :=
| context_404
| context_500
| context_json (combined : list Message.t).

(** The handler, once [authenticateToken] has let the request through and
    [parseInt] has read an integer: the ten live messages before [messageId],
    nearest first, turned round, then the ten live messages from [messageId]
    on.  [findUnique] throws on an id that is no 64-bit integer, and the
    catch answers 500.  The relations that [include] joins to each row are
    left out. *)
Definition context (d : Db) (messageId : Z) : ContextResponse :=
  match message_findUnique messageId d with
  | None => if is_int64 messageId then context_404 else context_500
  | Some targetMsg =>
      let prevMessages :=
        firstn 10
          (order_by (fun m => - Message.id m)
             (filter (fun m => (Message.id m <? messageId)
                               && negb (Message.isDeleted m))
                     (message d))) in
      let nextMessages :=
        firstn 10
          (order_by Message.id
             (filter (fun m => (messageId <=? Message.id m)
                               && negb (Message.isDeleted m))
                     (message d))) in
      context_json (rev prevMessages ++ nextMessages)
  end.

(** The route on what [parseInt(req.params.id)] gives: an integer, or NaN
    ([None]), which Prisma refuses as it refuses a number out of range. *)
Definition context_route (d : Db) (parsed : option Z) : ContextResponse :=
  match parsed with
  | Some messageId => context d messageId
  | None => context_500
  end.

Definition ranks_ascend (rank : Message.t -> Z) : list Message.t -> Prop :=
  StronglySorted (fun a b => rank a <= rank b).

(** Ten messages, of which message 4 is deleted. *)
Definition ten_messages : Db :=
  mkDb (map (fun i => Message.mk i (Some "m"%string) i (i =? 4) None false false
                        2 None)
            [3; 1; 2; 4; 5; 6; 7; 8; 9; 10])
       [] [] [] [] [] 11 1 1 [1; 2; 3; 4].

(** ** authenticateToken, the middleware of the HTTP routes *)

Fixpoint has_char (c : ascii) (s : string) : bool :=
  match s with
  | EmptyString => false
  | String x rest => Ascii.eqb x c || has_char c rest
  end.

(** [s.split(sep)] for a separator of one character.  A string is the
    sequence of its UTF-8 bytes; the characters that the functions below look
    for are ASCII, which no byte of a longer character equals. *)
Fixpoint str_split (sep : ascii) (s : string) : list string :=
  match s with
  | EmptyString => [EmptyString]
  | String c rest =>
      if Ascii.eqb c sep then EmptyString :: str_split sep rest
      else match str_split sep rest with
           | w :: ws => String c w :: ws
           | [] => [String c EmptyString]
           end
  end.

(** What the middleware does with the request: answer it with a status, or
    hand it to the route with [req.user] set. *)
Inductive Middleware (User : Type) :=
| sendStatus (code : Z)
| next (user : User).
Arguments sendStatus {User} code.
Arguments next {User} user.

Section Auth.
Variable User : Type.
(** [verifyToken] of server/utils.js is [jwt.verify] with the server's
    secret: the claims of the token, or [None] where it throws. *)
Variable verifyToken : string -> option User.

(** [authHeader && authHeader.split(' ')[1]]: [None] is [undefined]; an
    empty header is falsy and is the value of the conjunction. *)
Definition header_token (authHeader : option string) : option string :=
  match authHeader with
  | None => None
  | Some EmptyString => Some EmptyString
  | Some h => nth_error (str_split " " h) 1
  end.

Definition authenticateToken (authorization : option string)
  : Middleware User :=
  match header_token authorization with
  | None | Some EmptyString => sendStatus 401
  | Some token =>
      match verifyToken token with
      | Some user => next user
      | None => sendStatus 403
      end
  end.
End Auth.

(** ** client/src/utils.js *)

(** [s.replace(/c/g, by)] for a pattern of one character. *)
Fixpoint replace_all (c : ascii) (by_ : string) (s : string) : string :=
  match s with
  | EmptyString => EmptyString
  | String x rest =>
      if Ascii.eqb x c then String.append by_ (replace_all c by_ rest)
      else String x (replace_all c by_ rest)
  end.

Definition escapeHtml (unsafe : string) : string :=
  replace_all "'" "&#039;"
    (replace_all "034" "&quot;"
       (replace_all ">" "&gt;"
          (replace_all "<" "&lt;"
             (replace_all "&" "&amp;" unsafe)))).

(** The entity that stands for a character, the character itself where it
    has none. *)
Definition entity (c : ascii) : string :=
  if Ascii.eqb c "&" then "&amp;"
  else if Ascii.eqb c "<" then "&lt;"
  else if Ascii.eqb c ">" then "&gt;"
  else if Ascii.eqb c "034" then "&quot;"
  else if Ascii.eqb c "'" then "&#039;"
  else String c EmptyString.

Fixpoint each_char (f : ascii -> string) (s : string) : string :=
  match s with
  | EmptyString => EmptyString
  | String x rest => String.append (f x) (each_char f rest)
  end.

Definition is_markup (c : ascii) : bool :=
  Ascii.eqb c "&" || Ascii.eqb c "<" || Ascii.eqb c ">"
  || Ascii.eqb c "034" || Ascii.eqb c "'".

Fixpoint has_markup (s : string) : bool :=
  match s with
  | EmptyString => false
  | String x rest => is_markup x || has_markup rest
  end.

(** ** POST /api/bookmarks

    The route behind [authenticateToken], with [req.user.id] as [userId] and
    a number as [req.body.messageId]. *)

Definition with_bookmark (l : list Bookmark.t) (d : Db) : Db :=
  mkDb (message d) (mention d) (reaction d) (messageHistory d) (messageRead d)
       l (message_seq d) (mention_seq d) (reaction_seq d) (user d).

Definition same_bookmark (userId messageId : Z) (b : Bookmark.t) : bool :=
  (Bookmark.userId b =? userId) && (Bookmark.messageId b =? messageId).

(** [prisma.bookmark.findUnique({ where: { userId_messageId } })] *)
Definition bookmark_findUnique (userId messageId : Z) (d : Db)
  : option Bookmark.t :=
  find (same_bookmark userId messageId) (bookmark d).

Fixpoint remove_first (p : Bookmark.t -> bool) (l : list Bookmark.t)
  : list Bookmark.t :=
  match l with
  | [] => []
  | b :: rest => if p b then rest else b :: remove_first p rest
  end.

(** [prisma.bookmark.delete({ where: { id: existing.id } })] for the row that
    [findUnique] gave, which is the first of the table with its user and
    message. *)
Definition bookmark_delete (userId messageId : Z) (d : Db) : Db :=
  with_bookmark (remove_first (same_bookmark userId messageId) (bookmark d)) d.

(** [prisma.bookmark.create]: refused when the message does not exist or the
    unique index on (userId, messageId) already holds the pair. *)
Definition bookmark_create (userId messageId : Z) (d : Db) : option Db :=
  if fk_message messageId d
     && negb (existsb (same_bookmark userId messageId) (bookmark d))
  then Some (with_bookmark (bookmark d ++ [Bookmark.mk userId messageId]) d)
  else None.

(** The private event [bookmark_updated] with [{ message, bookmarked }], sent
    to the room of [to_user]. *)
Record BookmarkUpdated := mkBookmarkUpdated {
  to_user : Z;
  updated_message : option Message.t;
  bookmarked : bool }.

Inductive BookmarkResponse :=
| bookmark_json (bookmarked : bool)
| bookmark_500.

(** The route: the database it leaves, what it sends and what it answers. *)
Definition bookmarks_toggle (userId messageId : Z) (d : Db)
  : Db * list BookmarkUpdated * BookmarkResponse :=
  match bookmark_findUnique userId messageId d with
  | Some existing =>
      let d1 := bookmark_delete userId messageId d in
      (d1,
       [mkBookmarkUpdated userId (message_findUnique messageId d1) false],
       bookmark_json false)
  | None =>
      match bookmark_create userId messageId d with
      | Some d1 =>
          (d1,
           [mkBookmarkUpdated userId (message_findUnique messageId d1) true],
           bookmark_json true)
      | None => (d, [], bookmark_500)
      end
  end.

Definition has_bookmark (userId messageId : Z) (d : Db) : bool :=
  existsb (same_bookmark userId messageId) (bookmark d).

Definition bookmark_pair (b : Bookmark.t) : Z * Z :=
  (Bookmark.userId b, Bookmark.messageId b).

(** ** The bookmarks panel of the client (BookmarksPanel.jsx)

    The list holds messages; [handleBookmarkUpdate] reads their [id] and
    [createdAt].  [Array.prototype.sort] is stable, as [order_by] is. *)
Definition handleBookmarkUpdate (u : BookmarkUpdated) (prev : list Message.t)
  : list Message.t :=
  match updated_message u with
  | None => prev
  | Some message =>
      if bookmarked u then
        if existsb (fun b => Message.id b =? Message.id message) prev then prev
        else order_by (fun a => - Message.createdAt a) (message :: prev)
      else filter (fun b => negb (Message.id b =? Message.id message)) prev
  end.

(** ** The thread panel of the client (ThreadPanel.jsx)

    A message and a reaction as the two reaction reducers read them. *)
Module Client.
Record Reaction := mkReaction {
    reaction_id : Z;
    emoji : string;
    userId : Z }.

Record Msg := mkMsg {
    id : Z;
    reactions : list Reaction }.
End Client.

Record ThreadPanel := mkThreadPanel {
  rootMsg : option Client.Msg;
  replies : list Client.Msg }.

Section Panel.
Variable rootId : Z.

Definition updateReaction (messageId : Z) (reaction : Client.Reaction)
  (msg : Client.Msg) : Client.Msg :=
  if negb (Client.id msg =? messageId) then msg
  else Client.mkMsg (Client.id msg) (Client.reactions msg ++ [reaction]).

Definition handleReactionAdded (messageId : Z) (reaction : Client.Reaction)
  (p : ThreadPanel) : ThreadPanel :=
  mkThreadPanel
    (if rootId =? messageId
     then option_map (updateReaction messageId reaction) (rootMsg p)
     else rootMsg p)
    (map (updateReaction messageId reaction) (replies p)).

Definition removeReaction (messageId : Z) (emoji : string) (userId : Z)
  (msg : Client.Msg) : Client.Msg :=
  if negb (Client.id msg =? messageId) then msg
  else Client.mkMsg (Client.id msg)
         (filter (fun r => negb ((Client.userId r =? userId)
                                 && String.eqb (Client.emoji r) emoji))
                 (Client.reactions msg)).

Definition handleReactionRemoved (messageId : Z) (emoji : string) (userId : Z)
  (p : ThreadPanel) : ThreadPanel :=
  mkThreadPanel
    (if rootId =? messageId
     then option_map (removeReaction messageId emoji userId) (rootMsg p)
     else rootMsg p)
    (map (removeReaction messageId emoji userId) (replies p)).
End Panel.

(** The reaction as [message_reaction_added] carries it: [id], [emoji] and
    [userId] of the new row. *)
Definition as_sent (r : Reaction.t) : Client.Reaction :=
  Client.mkReaction (Reaction.id r) (Reaction.emoji r) (Reaction.userId r).

(** The message on the client shows the reactions that the table holds for
    it, in the order of the table. *)
Definition shows (d : Db) (msg : Client.Msg) : Prop :=
  Client.reactions msg
  = map as_sent
      (filter (fun r => Reaction.messageId r =? Client.id msg) (reaction d)).

(** A panel opened on [rootId] whose messages all show the table. *)
Definition panel_shows (rootId : Z) (d : Db) (p : ThreadPanel) : Prop :=
  (forall r, rootMsg p = Some r -> Client.id r = rootId /\ shows d r)
  /\ Forall (shows d) (replies p).

(** Bob has reacted to message 1; the panel is open on it and holds
    message 2 too. *)
Definition one_reaction : Server :=
  mkServer
    (with_reaction [Reaction.mk 1 "+1" 3 1] 2 (prisma two_messages))
    [].

Definition open_panel : ThreadPanel :=
  mkThreadPanel (Some (Client.mkMsg 1 [Client.mkReaction 1 "+1" 3]))
                [Client.mkMsg 2 []].

(** * Properties *)

(** ** Running the monad *)

Lemma find_has_id (i : Z) (d : Db) (m : Message.t) :
  message_findUnique i d = Some m -> In m (message d) /\ Message.id m = i.
Proof.
  unfold message_findUnique, has_id. intros H.
  apply find_some in H. destruct H as [Hin Hid]. split; [assumption | lia].
Qed.

Lemma found_fk (i : Z) (d : Db) (m : Message.t) :
  message_findUnique i d = Some m -> fk_message i d = true.
Proof.
  intros H. apply find_has_id in H. destruct H as [Hin Hid].
  unfold fk_message. apply existsb_exists. exists m. split; [assumption |].
  unfold has_id. lia.
Qed.

(** ** Handlers that leave the reply tree alone *)

Section KeepsLinks.
Context {A B : Type}.

Lemma keeps_ret (a : A) : keeps_links (ret a).
Proof. intros s. reflexivity. Qed.

Lemma keeps_throw (msg : string) : keeps_links (@throw A msg).
Proof. intros s. reflexivity. Qed.

Lemma keeps_query (q : Db -> A) : keeps_links (query q).
Proof. intros s. reflexivity. Qed.

Lemma keeps_inspect (q : list (Z * list Z) -> A) : keeps_links (inspect q).
Proof. intros s. reflexivity. Qed.

Lemma keeps_bind (m : M A) (f : A -> M B) :
  keeps_links m -> (forall a, keeps_links (f a)) -> keeps_links (bind m f).
Proof.
  intros Hm Hf s. unfold bind. specialize (Hm s).
  destruct (m s) as [[[a | e] s1] o1]; simpl in Hm; [| exact Hm].
  specialize (Hf a s1). destruct (f a s1) as [[r s2] o2]. simpl in *.
  congruence.
Qed.

Lemma keeps_try_catch (body : M A) (handler : string -> M A) :
  keeps_links body -> (forall e, keeps_links (handler e)) ->
  keeps_links (try_catch body handler).
Proof.
  intros Hb Hh s. unfold try_catch. specialize (Hb s).
  destruct (body s) as [[[a | e] s1] o1]; simpl in Hb; [exact Hb |].
  specialize (Hh e s1). destruct (handler e s1) as [[r s2] o2]. simpl in *.
  congruence.
Qed.

Lemma keeps_transaction (body : M A) :
  keeps_links body -> keeps_links (transaction body).
Proof.
  intros Hb s. unfold transaction. specialize (Hb s).
  destruct (body s) as [[[a | e] s1] o1]; simpl in *; [exact Hb | reflexivity].
Qed.

Lemma keeps_write_or_throw (w : Db -> option (A * Db)) (msg : string) :
  (forall d a d', w d = Some (a, d') -> links d' = links d) ->
  keeps_links (write_or_throw w msg).
Proof.
  intros Hw s. unfold write_or_throw.
  destruct (w (prisma s)) as [[a d'] |] eqn:E; simpl; [| reflexivity].
  eapply Hw. exact E.
Qed.
End KeepsLinks.

Lemma keeps_emit (a : Audience) (e : Event) : keeps_links (emit a e).
Proof. intros s. reflexivity. Qed.

Lemma keeps_buffer (f : list (Z * list Z) -> list (Z * list Z)) :
  keeps_links (buffer f).
Proof. intros s. reflexivity. Qed.

Lemma keeps_write (w : Db -> Db) :
  (forall d, links (w d) = links d) -> keeps_links (write w).
Proof. intros Hw s. apply Hw. Qed.

Lemma keeps_when (b : bool) (m : M unit) :
  keeps_links m -> keeps_links (when b m).
Proof. intros Hm. destruct b; [exact Hm | apply keeps_ret]. Qed.

Lemma keeps_flush : keeps_links flush.
Proof. intros [d buf]. destruct buf; reflexivity. Qed.

Lemma keeps_message_find (i : Z) : keeps_links (message_find i).
Proof.
  intros s. unfold message_find.
  destruct (message_findUnique i (prisma s)); [reflexivity |].
  destruct (is_int64 i); reflexivity.
Qed.

Lemma links_update_where (p : Message.t -> bool) (f : Message.t -> Message.t)
  (d : Db) :
  quiet f -> links (with_message (update_where p f (message d)) d) = links d.
Proof.
  intros Q. unfold links, update_where. simpl. f_equal.
  rewrite map_map. apply map_ext. intros x.
  destruct (p x); [| reflexivity]. destruct (Q x) as [Hi Hp].
  rewrite Hi, Hp. reflexivity.
Qed.

Lemma links_message_update (i : Z) (f : Message.t -> Message.t) :
  quiet f ->
  forall d a d', message_update i f d = Some (a, d') -> links d' = links d.
Proof.
  intros Q d a d' H. unfold message_update in H.
  destruct (message_findUnique i d); inversion H; subst.
  apply links_update_where. exact Q.
Qed.

Lemma quiet_set_flags (del pin was : bool) : quiet (Message.set_flags del pin was).
Proof. intros x. split; reflexivity. Qed.

Lemma quiet_set_isPinned (b : bool) : quiet (Message.set_isPinned b).
Proof. intros x. split; reflexivity. Qed.

Lemma quiet_set_content (c : option string) : quiet (Message.set_content c).
Proof. intros x. split; reflexivity. Qed.

Lemma links_messageHistory_create (h : MessageHistory.t) :
  forall d a d', messageHistory_create h d = Some (a, d') -> links d' = links d.
Proof.
  intros d a d' H. unfold messageHistory_create in H.
  destruct (fk_message _ d); inversion H; reflexivity.
Qed.

Lemma links_mention_update (i : Z) (f : Mention.t -> Mention.t) :
  forall d a d', mention_update i f d = Some (a, d') -> links d' = links d.
Proof.
  intros d a d' H. unfold mention_update in H.
  destruct (mention_findUnique i d); inversion H; reflexivity.
Qed.

Lemma links_reaction_delete (i : Z) :
  forall d a d', reaction_delete i d = Some (a, d') -> links d' = links d.
Proof.
  intros d a d' H. unfold reaction_delete in H.
  destruct (existsb _ _); inversion H; reflexivity.
Qed.

Lemma links_reaction_create (emoji : string) (userId messageId : Z) :
  forall d a d',
    reaction_create emoji userId messageId d = Some (a, d') -> links d' = links d.
Proof.
  intros d a d' H. unfold reaction_create in H.
  destruct (_ && _); inversion H; reflexivity.
Qed.

Lemma links_messageRead_upsert (userId messageId : Z) :
  forall d a d',
    messageRead_upsert userId messageId d = Some (a, d') -> links d' = links d.
Proof.
  intros d a d' H. unfold messageRead_upsert in H.
  destruct (existsb _ _); [inversion H; reflexivity |].
  destruct (fk_message _ d); inversion H; reflexivity.
Qed.

Create HintDb links.
#[local] Hint Resolve keeps_ret keeps_throw keeps_query keeps_inspect keeps_emit
  keeps_buffer keeps_flush keeps_message_find quiet_set_flags quiet_set_isPinned quiet_set_content
  links_messageHistory_create links_mention_update links_reaction_delete
  links_reaction_create links_messageRead_upsert : links.
#[local] Hint Resolve links_message_update links_update_where : links.

(** Takes a handler apart along its binds, catches and branches. *)
Ltac keeps :=
  repeat first
    [ apply keeps_bind; [| intros ?]
    | apply keeps_try_catch; [| intros ?]
    | apply keeps_transaction
    | apply keeps_when
    | apply keeps_write_or_throw
    | apply keeps_write; intros ?
    | match goal with
      | |- keeps_links (match ?x with _ => _ end) => destruct x
      end
    | solve [eauto with links] ].

Lemma keeps_handleDeleteMessage (socket : Socket) (messageId : Z) :
  keeps_links (handleDeleteMessage socket messageId).
Proof. unfold handleDeleteMessage. keeps. Qed.

Lemma keeps_restore_message (socket : Socket) (messageId : Z) :
  keeps_links (restore_message socket messageId).
Proof.
  unfold restore_message. keeps.
  match goal with |- keeps_links (fold_right _ _ ?l) => induction l end;
    simpl; keeps.
Qed.

Lemma keeps_pin_message (socket : Socket) (messageId : Z) (isPinned : bool) :
  keeps_links (pin_message socket messageId isPinned).
Proof.
  unfold pin_message. keeps.
Qed.

Lemma keeps_toggle_reaction (socket : Socket) (messageId : Z) (emoji : string) :
  keeps_links (toggle_reaction socket messageId emoji).
Proof. unfold toggle_reaction. keeps. Qed.

Lemma keeps_mark_read (socket : Socket) (messageId : Z) :
  keeps_links (mark_read socket messageId).
Proof. unfold mark_read. keeps. Qed.

Lemma keeps_mark_mention_read (now : Z) (socket : Socket) (mentionId : Z) :
  keeps_links (mark_mention_read now socket mentionId).
Proof. unfold mark_mention_read. keeps. Qed.

Lemma keeps_edit_message (sanitizeHtml : string -> string) (now : Z)
  (socket : Socket) (messageId : Z) (newContent : string) :
  keeps_links (edit_message sanitizeHtml now socket messageId newContent).
Proof. unfold edit_message. keeps. Qed.

(** ** The server builds its reply tree in order *)

Lemma exec_state (h : M unit) (s : Server) : fst (exec h s) = snd (fst (h s)).
Proof. unfold exec. destruct (h s) as [[r s'] out]. reflexivity. Qed.

Lemma kept_in_order (d d' : Db) :
  links d' = links d -> created_in_order d -> created_in_order d'.
Proof.
  intros E [H0 H]. unfold created_in_order.
  assert (S : message_seq d' = message_seq d) by exact (f_equal snd E).
  rewrite E, S. split; assumption.
Qed.

Lemma message_create_in_order (content : option string) (createdAt userId : Z)
  (parentId expiresAt : option Z) (mentionUserIds : list Z) (d d' : Db)
  (m : Message.t) :
  created_in_order d ->
  message_create content createdAt userId parentId expiresAt mentionUserIds d
  = Some (m, d') ->
  created_in_order d'.
Proof.
  intros [H0 H] C. unfold message_create in C.
  destruct (match parentId with
            | Some p => fk_message p d || (p =? message_seq d)
            | None => true
            end) eqn:K; simpl in C; [| discriminate].
  destruct (distinct mentionUserIds); simpl in C; [| discriminate].
  destruct (forallb _ mentionUserIds); simpl in C; [| discriminate].
  destruct (match expiresAt with Some t => is_date t | None => true end);
    inversion C; subst; clear C.
  unfold created_in_order, links. simpl. split; [lia |].
  intros i p Hin. rewrite map_app in Hin. apply in_app_or in Hin.
  destruct Hin as [Hin | [Hin | []]].
  - destruct (H i p Hin) as [Hi Hp]. split; [lia | exact Hp].
  - inversion Hin; subst. split; [lia |].
    intros q E. subst. simpl in K.
    apply orb_true_iff in K. destruct K as [K | K]; [| lia].
    unfold fk_message in K. apply existsb_exists in K.
    destruct K as [x [Hx Ix]]. unfold has_id in Ix.
    destruct (H (Message.id x) (Message.parentId x)) as [Hi _]; [| lia].
    unfold links. simpl.
    apply (in_map (fun m => (Message.id m, Message.parentId m))). exact Hx.
Qed.

Lemma message_deleteMany_in_order (where_ : Message.t -> bool) (d : Db) :
  created_in_order d -> created_in_order (snd (message_deleteMany where_ d)).
Proof.
  intros [H0 H]. unfold created_in_order, message_deleteMany, links. simpl.
  split; [exact H0 |].
  intros i p Hin. rewrite map_map in Hin. apply in_map_iff in Hin.
  destruct Hin as [x [E Hx]]. apply filter_In in Hx. destruct Hx as [Hx _].
  destruct (H (Message.id x) (Message.parentId x)) as [Hi Hp].
  { unfold links. simpl.
    apply (in_map (fun m => (Message.id m, Message.parentId m))). exact Hx. }
  destruct (match Message.parentId x with
            | Some p0 => existsb (has_id p0) (filter where_ (message d))
            | None => false
            end); simpl in E; inversion E; subst.
  - split; [exact Hi | discriminate].
  - split; assumption.
Qed.

Lemma send_message_in_order (sanitizeHtml : string -> string) (now : Z)
  (socket : Socket) (data : SendData) (s : Server) :
  created_in_order (prisma s) ->
  created_in_order
    (prisma (fst (exec (send_message sanitizeHtml now socket data) s))).
Proof.
  intros H. unfold exec, send_message, try_catch, bind, write_or_throw.
  destruct (message_create _ _ _ _ _ _ (prisma s)) as [[m d'] |] eqn:C.
  - simpl. eapply message_create_in_order; eassumption.
  - simpl. exact H.
Qed.

Lemma sweep_in_order (now : Z) (s : Server) :
  created_in_order (prisma s) ->
  created_in_order (prisma (fst (exec (sweep now) s))).
Proof.
  intros H. unfold exec, sweep, try_catch, bind, write_returning.
  match goal with
  | |- context [message_deleteMany ?w (prisma s)] =>
      pose proof (message_deleteMany_in_order w (prisma s) H) as D;
      destruct (message_deleteMany w (prisma s)) as [count d']
  end.
  simpl in D. destruct (0 <? count); simpl; exact D.
Qed.

Lemma built_in_order (sanitizeHtml : string -> string) (s : Server) :
  built sanitizeHtml s -> created_in_order (prisma s).
Proof.
  induction 1 as [| h s Hs IH E].
  - split; [reflexivity | intros i p []].
  - destruct E;
      try (apply send_message_in_order; exact IH);
      try (apply sweep_in_order; exact IH);
      rewrite exec_state;
      (eapply kept_in_order; [| exact IH]).
    + apply keeps_handleDeleteMessage.
    + apply keeps_restore_message.
    + apply keeps_edit_message.
    + apply keeps_pin_message.
    + apply keeps_toggle_reaction.
    + apply keeps_mark_read.
    + apply keeps_mark_mention_read.
    + apply keeps_flush.
Qed.

Example small_talk_built :
  built (fun c => c) small_talk
  /\ map Message.parentId (message (prisma small_talk)) = [None; Some 1].
Proof.
  split; [| reflexivity].
  unfold small_talk. apply built_step; [| apply on_send].
  apply built_step; [| apply on_send]. apply built_fresh.
Qed.

(** ** Thread resolution *)

Section Thread.
Variable d : Db.

Lemma walk_up_stops :
  forall fuel m root, walk_up fuel d m = Some root -> no_parent_to_follow d root.
Proof.
  induction fuel as [| fuel IH]; intros m root H; simpl in H; [discriminate |].
  destruct (truthy (Message.parentId m)) eqn:T.
  - destruct (Message.parentId m) as [p |] eqn:P; [| discriminate].
    destruct (message_findUnique p d) as [parent |] eqn:F.
    + eapply IH; eassumption.
    + inversion H; subst. right. exists p. split; assumption.
  - inversion H; subst. left. assumption.
Qed.

Section Ranked.
Variable rank : Z -> nat.
Hypothesis rank_decreases :
  forall m p, In m (message d) -> Message.parentId m = Some p ->
              (rank p < rank (Message.id m))%nat.

Lemma walk_up_terminates :
  forall fuel m, In m (message d) -> (rank (Message.id m) < fuel)%nat ->
                 exists root, walk_up fuel d m = Some root.
Proof.
  induction fuel as [| fuel IH]; intros m Hin Hfuel; [lia |].
  simpl. destruct (truthy (Message.parentId m)); [| eauto].
  destruct (Message.parentId m) as [p |] eqn:P; [| eauto].
  destruct (message_findUnique p d) as [parent |] eqn:F; [| eauto].
  apply find_has_id in F. destruct F as [Hp Hid].
  apply IH; [assumption |].
  specialize (rank_decreases m p Hin P). rewrite Hid. lia.
Qed.
End Ranked.

Lemma bfs_terminates :
  forall fuel allReplies queue depth,
    0 <= depth <= MAX_DEPTH ->
    (Z.to_nat (MAX_DEPTH - depth) < fuel)%nat ->
    exists replies depth',
      bfs fuel d allReplies queue depth = Some (replies, depth')
      /\ depth' <= MAX_DEPTH.
Proof.
  induction fuel as [| fuel IH]; intros allReplies queue depth Hd Hfuel; [lia |].
  simpl.
  destruct (0 <? Z.of_nat (List.length queue)); simpl;
    [| exists allReplies, depth; split; [reflexivity | lia]].
  destruct (depth <? MAX_DEPTH) eqn:L;
    [| exists allReplies, depth; split; [reflexivity | lia]].
  destruct (Z.of_nat (List.length (message_findMany_children queue d)) =? 0);
    [exists allReplies, depth; split; [reflexivity | lia] |].
  apply Z.ltb_lt in L. apply IH; lia.
Qed.
End Thread.

Lemma thread_answers (d : Db) :
  acyclic_parents d ->
  forall startId, exists fuel res, thread fuel d startId = Some res.
Proof.
  intros [rank Hrank] startId.
  destruct (message_findUnique startId d) as [m |] eqn:F.
  - pose (fuel := Nat.max (S (rank (Message.id m))) 51).
    apply find_has_id in F as Hm. destruct Hm as [Hin _].
    destruct (walk_up_terminates d rank Hrank fuel m Hin) as [root Hroot];
      [unfold fuel; lia |].
    destruct (bfs_terminates d fuel [] [Message.id root] 0)
      as [replies [depth [Hbfs _]]];
      [unfold MAX_DEPTH; lia | unfold MAX_DEPTH, fuel; lia |].
    exists fuel, (json root (sort_by_createdAt replies)).
    unfold thread. rewrite F, Hroot, Hbfs. reflexivity.
  - unfold thread. rewrite F.
    destruct (is_int64 startId); exists 0%nat; eauto.
Qed.

(** The upward walk never leaves a message that is its own parent. *)
Lemma walk_up_self (d : Db) (m : Message.t) :
  Message.id m <> 0 ->
  Message.parentId m = Some (Message.id m) ->
  message_findUnique (Message.id m) d = Some m ->
  forall fuel, walk_up fuel d m = None.
Proof.
  intros N P F. induction fuel as [| fuel IH]; [reflexivity |].
  simpl. rewrite P. cbn [truthy].
  apply Z.eqb_neq in N. rewrite N. cbn [negb]. rewrite F. exact IH.
Qed.

(** C2 fails on the code.  On the seeded server alice sends, as the first
    message, a reply to message 1: the new row gets id 1 and is its own
    parent, which the foreign key accepts.  The state is one the server
    reaches, and on it no amount of fuel lets the thread endpoint answer
    for message 1: the upward walk has no bound and never leaves the row.
    The breadth-first loop beside it carries its bound and ends on every
    store within 51 turns. *)
Theorem thread_hangs_on_self_reply :
  forall sanitizeHtml : string -> string,
    let s := fst (exec (send_message sanitizeHtml 0 alice
                          (mkSendData "hello" (Some 1) None []))
                    fresh_server) in
    built sanitizeHtml s
    /\ map (fun m => (Message.id m, Message.parentId m)) (message (prisma s))
       = [(1, Some 1)]
    /\ (forall fuel, thread fuel (prisma s) 1 = None)
    /\ (forall d queue, exists replies depth,
          bfs 51 d [] queue 0 = Some (replies, depth) /\ depth <= MAX_DEPTH).
Proof.
  intros sanitizeHtml s. split; [| split; [| split]].
  - apply built_step; [apply built_fresh | apply on_send].
  - reflexivity.
  - intros fuel. unfold thread.
    assert (F : message_findUnique 1 (prisma s)
                = Some (Message.mk 1 (Some (sanitizeHtml "hello"%string)) 0
                          false None false false 2 (Some 1)))
      by reflexivity.
    rewrite F. rewrite (walk_up_self (prisma s) _); try reflexivity.
    simpl. lia.
  - intros d queue. apply bfs_terminates; unfold MAX_DEPTH; lia.
Qed.

(** ** Pin mutual exclusion *)

(** C1 fails on the code: alice pins message 1, deletes it, pins message 2
    and restores message 1.  The restore writes [isPinned] back from
    [wasPinned] but, unlike [pin_message], does not clear the other pins
    first, and leaves both messages pinned. *)
Theorem restore_breaks_pin_exclusion :
  pinned (prisma two_messages) = []
  /\ map Message.id
       (pinned (prisma (serve [req_pin alice 1 true; req_delete alice 1;
                               req_pin alice 2 true; req_restore alice 1]
                              two_messages)))
     = [1; 2].
Proof. split; reflexivity. Qed.

(** What [pin_message] and [delete_message] leave in the [Message] table. *)
Lemma pin_message_table (socket : Socket) (messageId : Z) (isPinned : bool)
  (s : Server) :
  let l := if isPinned
           then update_where Message.isPinned (Message.set_isPinned false)
                  (message (prisma s))
           else message (prisma s) in
  message (prisma (fst (exec (pin_message socket messageId isPinned) s)))
  = match find (has_id messageId) l with
    | Some _ => update_where (has_id messageId) (Message.set_isPinned isPinned) l
    | None => l
    end.
Proof.
  unfold exec, pin_message, try_catch, bind, write_or_throw, message_update,
    message_findUnique, when.
  destruct isPinned; cbn.
  - destruct (find (has_id messageId) _); reflexivity.
  - destruct (find (has_id messageId) _); reflexivity.
Qed.

Lemma delete_message_table (socket : Socket) (messageId : Z) (s : Server) :
  exists keep : bool,
    message (prisma (fst (exec (delete_message socket messageId) s)))
    = match find (has_id messageId) (message (prisma s)) with
      | Some msg =>
          if keep then message (prisma s)
          else update_where (has_id messageId)
                 (Message.set_flags true false (Message.isPinned msg))
                 (message (prisma s))
      | None => message (prisma s)
      end.
Proof.
  unfold exec, delete_message, handleDeleteMessage, try_catch, bind,
    message_find, write_or_throw, message_update, message_findUnique.
  destruct (find (has_id messageId) (message (prisma s))) as [msg |] eqn:F.
  - destruct (negb (Message.userId msg =? currentUser socket)
              && negb (currentUser socket =? 1)).
    + exists true. reflexivity.
    + exists false. rewrite F. destruct (Message.isPinned msg); reflexivity.
  - exists true. destruct (is_int64 messageId); reflexivity.
Qed.

Section PinCount.
Variable i : Z.

Lemma update_where_ids (p : Message.t -> bool) (f : Message.t -> Message.t)
  (l : list Message.t) :
  (forall x, Message.id (f x) = Message.id x) ->
  map Message.id (update_where p f l) = map Message.id l.
Proof.
  intros Hf. unfold update_where. rewrite map_map. apply map_ext.
  intros x. destruct (p x); [apply Hf | reflexivity].
Qed.

Lemma unpin_all (l : list Message.t) :
  filter Message.isPinned
    (update_where Message.isPinned (Message.set_isPinned false) l) = [].
Proof.
  induction l as [| x l IH]; simpl; [reflexivity |].
  destruct (Message.isPinned x) eqn:P; simpl; [| rewrite P]; exact IH.
Qed.

Lemma one_row_per_id (l : list Message.t) :
  NoDup (map Message.id l) -> (List.length (filter (has_id i) l) <= 1)%nat.
Proof.
  induction l as [| x l IH]; simpl; intros N; [lia |].
  apply NoDup_cons_iff in N. destruct N as [Nx N].
  destruct (has_id i x) eqn:H; [| auto].
  simpl. destruct (filter (has_id i) l) as [| y rest] eqn:F; [simpl; lia |].
  exfalso. apply Nx.
  assert (Hy : In y (filter (has_id i) l)) by (rewrite F; left; reflexivity).
  apply filter_In in Hy. destruct Hy as [Hy Iy].
  unfold has_id in *. apply in_map_iff. exists y. split; [lia | assumption].
Qed.

Lemma pin_one (l : list Message.t) :
  filter Message.isPinned l = [] ->
  List.length
    (filter Message.isPinned
       (update_where (has_id i) (Message.set_isPinned true) l))
  = List.length (filter (has_id i) l).
Proof.
  induction l as [| x l IH]; simpl; intros E; [reflexivity |].
  destruct (Message.isPinned x) eqn:P; [discriminate |].
  destruct (has_id i x); simpl; [| rewrite P]; rewrite IH; auto.
Qed.

Lemma unpin_some (f : Message.t -> Message.t) (l : list Message.t) :
  (forall x, Message.isPinned (f x) = false) ->
  (List.length (filter Message.isPinned (update_where (has_id i) f l))
   <= List.length (filter Message.isPinned l))%nat.
Proof.
  intros Hf. induction l as [| x l IH]; simpl; [lia |].
  destruct (has_id i x).
  - rewrite Hf. destruct (Message.isPinned x); simpl; lia.
  - destruct (Message.isPinned x); simpl; lia.
Qed.
End PinCount.

Lemma pin_or_delete_step (r : Request) (s : Server) :
  is_pin_or_delete r ->
  unique_ids (prisma s) -> at_most_one_pinned (prisma s) ->
  unique_ids (prisma (fst (exec (handle r) s)))
  /\ at_most_one_pinned (prisma (fst (exec (handle r) s))).
Proof.
  unfold unique_ids, at_most_one_pinned, pinned.
  destruct r as [socket i | | socket i b | |]; simpl; try contradiction;
    intros _ U P.
  - destruct (delete_message_table socket i s) as [keep E]. rewrite E.
    destruct (find (has_id i) (message (prisma s))); [| auto].
    destruct keep; [auto |]. split.
    + rewrite update_where_ids; [assumption | reflexivity].
    + etransitivity; [apply unpin_some; reflexivity | exact P].
  - rewrite pin_message_table. destruct b.
    + assert (U1 : NoDup (map Message.id
                            (update_where Message.isPinned
                               (Message.set_isPinned false) (message (prisma s)))))
        by (rewrite update_where_ids; [assumption | reflexivity]).
      destruct (find (has_id i) _).
      * split; [rewrite update_where_ids; [assumption | reflexivity] |].
        rewrite pin_one by apply unpin_all. apply one_row_per_id. exact U1.
      * split; [exact U1 | rewrite unpin_all; simpl; lia].
    + destruct (find (has_id i) _); [| auto]. split.
      * rewrite update_where_ids; [assumption | reflexivity].
      * etransitivity; [apply unpin_some; reflexivity | exact P].
Qed.

(** X1: without [restore_message] the exclusion holds for serial runs: no
    run of [pin_message] and [delete_message] requests that are served one
    after the other, each to its end before the next begins, leaves more
    than one message pinned.  Requests whose writes interleave are not
    covered. *)
Lemma pin_delete_keep_exclusion :
  forall rs s,
    Forall is_pin_or_delete rs ->
    unique_ids (prisma s) -> at_most_one_pinned (prisma s) ->
    at_most_one_pinned (prisma (serve rs s)).
Proof.
  induction rs as [| r rs IH]; intros s F U P; [exact P |].
  inversion F; subst. unfold serve. simpl.
  destruct (pin_or_delete_step r s) as [U' P']; try assumption.
  apply IH; assumption.
Qed.

(** ** Atomicity of pin_message *)

(** C3 fails on the code: asked to pin message 2, which does not exist,
    [pin_message] first unpins message 1, then fails on the update of
    message 2.  The unpin stays written, nothing is broadcast, and only the
    asking socket hears of the failure. *)
Theorem pin_message_absent_target_half_done :
  message_findUnique 2 (prisma one_pinned) = None
  /\ map Message.id (pinned (prisma one_pinned)) = [1]
  /\ pinned (prisma (fst (exec (pin_message bob 2 true) one_pinned))) = []
  /\ snd (exec (pin_message bob 2 true) one_pinned)
     = [(to_socket "socket-b", error "Failed to pin message")].
Proof. repeat split; reflexivity. Qed.

(** On any store, a request to pin a message that does not exist unpins
    every message and tells only the sender. *)
Lemma pin_absent_unpins_all (socket : Socket) (messageId : Z) (s : Server) :
  message_findUnique messageId (prisma s) = None ->
  exec (pin_message socket messageId true) s
  = (mkServer
       (message_updateMany Message.isPinned (Message.set_isPinned false)
          (prisma s))
       (readReceiptBuffer s),
     [(to_socket (socket_id socket), error "Failed to pin message")]).
Proof.
  intros F.
  assert (F' : message_findUnique messageId
                 (message_updateMany Message.isPinned
                    (Message.set_isPinned false) (prisma s)) = None).
  { unfold message_findUnique, message_updateMany in *. simpl.
    induction (message (prisma s)) as [| x l IH]; simpl in *; [reflexivity |].
    destruct (has_id messageId x) eqn:H; [discriminate |].
    destruct (Message.isPinned x); unfold has_id in *; simpl; rewrite H;
      apply IH; exact F. }
  unfold exec, pin_message, try_catch, bind, write_or_throw, message_update,
    when, write.
  cbn [prisma]. rewrite F'. reflexivity.
Qed.

(** ** Delete and edit of a message that does not exist *)

(** C4, as stated, fails: [edit_message] on an id that resolves to no message
    sends an error to the asking socket. *)
Lemma edit_missing_reports_error :
  message_findUnique 7 (prisma two_messages) = None
  /\ snd (exec (edit_message (fun c => c) 0 alice 7 "hello") two_messages)
     = [(to_socket "socket-a", error "Unauthorized")].
Proof. split; reflexivity. Qed.

Lemma absent_message_runs
  (sanitizeHtml : string -> string) (now : Z) (socket : Socket)
  (messageId : Z) (newContent : string) (s : Server) :
  message_findUnique messageId (prisma s) = None ->
  exec (delete_message socket messageId) s
  = (s, if is_int64 messageId then []
        else [(to_socket (socket_id socket), error PrismaValidation)])
  /\ exec (edit_message sanitizeHtml now socket messageId newContent) s
     = (s, [(to_socket (socket_id socket),
             error (if is_int64 messageId then "Unauthorized"%string
                    else PrismaValidation))]).
Proof.
  intros H. split.
  - unfold exec, delete_message, handleDeleteMessage, try_catch, bind,
      message_find.
    rewrite H. destruct (is_int64 messageId); reflexivity.
  - unfold exec, edit_message, try_catch, bind, message_find.
    rewrite H. destruct (is_int64 messageId); reflexivity.
Qed.

(** C4, amended: for an id that is a 64-bit integer and resolves to no
    message, [delete_message] changes nothing and sends nothing, and
    [edit_message] changes nothing, broadcasts nothing and sends the error
    Unauthorized to the asking socket alone.  For an id outside that range
    Prisma refuses the lookup: both handlers change nothing, broadcast
    nothing and send the text of that refusal to the asking socket alone. *)
Theorem missing_message_delete_edit :
  forall sanitizeHtml now socket messageId newContent s,
    message_findUnique messageId (prisma s) = None ->
    (is_int64 messageId = true ->
     exec (delete_message socket messageId) s = (s, [])
     /\ exec (edit_message sanitizeHtml now socket messageId newContent) s
        = (s, [(to_socket (socket_id socket), error "Unauthorized")]))
    /\ (is_int64 messageId = false ->
        exec (delete_message socket messageId) s
        = (s, [(to_socket (socket_id socket), error PrismaValidation)])
        /\ exec (edit_message sanitizeHtml now socket messageId newContent) s
           = (s, [(to_socket (socket_id socket), error PrismaValidation)])).
Proof.
  intros sanitizeHtml now socket messageId newContent s H.
  destruct (absent_message_runs sanitizeHtml now socket messageId newContent
              s H) as [D E].
  split; intros R; rewrite R in D, E; split; assumption.
Qed.

(** Message 7 does not exist in [two_messages], and 2^63 is no id. *)
Lemma missing_message_delete_edit_witness :
  (exec (delete_message alice 7) two_messages = (two_messages, [])
   /\ exec (edit_message (fun c => c) 0 alice 7 "hello") two_messages
      = (two_messages, [(to_socket "socket-a", error "Unauthorized")]))
  /\ (exec (delete_message alice 9223372036854775808) two_messages
      = (two_messages, [(to_socket "socket-a", error PrismaValidation)])
      /\ exec (edit_message (fun c => c) 0 alice 9223372036854775808 "hello")
           two_messages
         = (two_messages, [(to_socket "socket-a", error PrismaValidation)])).
Proof.
  split.
  - apply (proj1 (missing_message_delete_edit (fun c => c) 0 alice 7 "hello"
                    two_messages eq_refl)).
    reflexivity.
  - apply (proj2 (missing_message_delete_edit (fun c => c) 0 alice
                    9223372036854775808 "hello" two_messages eq_refl)).
    reflexivity.
Defined.

(** ** Mention acknowledgement *)

(** C10 fails on the code: [mark_mention_read] never looks at the socket it
    came from.  When carol (user 4) sends the id of bob's mention, the mention
    is marked read, and alice is told that bob read it. *)
Theorem mark_mention_read_by_stranger :
  (forall now socket socket' mentionId,
      mark_mention_read now socket mentionId
      = mark_mention_read now socket' mentionId)
  /\ mention (prisma (fst (exec (mark_mention_read 1000 carol 1) one_mention)))
     = [Mention.mk 1 3 1 true (Some 1000)]
  /\ snd (exec (mark_mention_read 1000 carol 1) one_mention)
     = [(room_user 2, mention_read_status 1 1 3 (Some 1000));
        (room_user 3, my_mention_updated (Mention.mk 1 3 1 true (Some 1000)))].
Proof. repeat split; reflexivity. Qed.

(** ** Updating one message *)

Lemma find_update_where (i : Z) (f : Message.t -> Message.t) :
  (forall x, Message.id (f x) = Message.id x) ->
  forall l m,
    find (has_id i) l = Some m ->
    find (has_id i) (update_where (has_id i) f l) = Some (f m).
Proof.
  intros Hid. induction l as [| x l IH]; intros m H; simpl in *; [discriminate |].
  destruct (has_id i x) eqn:E.
  - inversion H; subst. unfold has_id in *. rewrite Hid, E. reflexivity.
  - rewrite E. apply IH. assumption.
Qed.

Lemma message_update_found (i : Z) (f : Message.t -> Message.t) (d : Db)
  (m : Message.t) :
  (forall x, Message.id (f x) = Message.id x) ->
  message_findUnique i d = Some m ->
  exists d',
    message_update i f d = Some (f m, d')
    /\ message_findUnique i d' = Some (f m)
    /\ mention d' = mention d /\ messageHistory d' = messageHistory d
    /\ reaction d' = reaction d /\ messageRead d' = messageRead d
    /\ bookmark d' = bookmark d.
Proof.
  intros Hid H. unfold message_update. rewrite H.
  eexists. split; [reflexivity |]. split; [| repeat split].
  unfold message_findUnique in *. simpl. apply find_update_where; assumption.
Qed.

(** ** The edit window and the edit transaction *)

Section EditProperties.
Variable sanitizeHtml : string -> string.
Variables (now : Z) (socket : Socket) (messageId : Z) (newContent : string).
Variable s : Server.

Let edited := exec (edit_message sanitizeHtml now socket messageId newContent) s.

Lemma edit_by_other (msg : Message.t) :
  message_findUnique messageId (prisma s) = Some msg ->
  Message.userId msg <> currentUser socket ->
  edited = (s, [(to_socket (socket_id socket), error "Unauthorized")]).
Proof.
  intros F Hu. unfold edited, exec, edit_message, try_catch, bind, message_find.
  rewrite F.
  destruct (Message.userId msg =? currentUser socket) eqn:E; [lia |].
  reflexivity.
Qed.

Lemma edit_too_late (msg : Message.t) :
  message_findUnique messageId (prisma s) = Some msg ->
  Message.userId msg = currentUser socket ->
  now - Message.createdAt msg > 5 * 60 * 1000 ->
  edited = (s, [(to_socket (socket_id socket),
                 error "Edit time limit exceeded (5 mins)")]).
Proof.
  intros F Hu Ht. unfold edited, exec, edit_message, try_catch, bind, message_find.
  rewrite F.
  destruct (Message.userId msg =? currentUser socket) eqn:E; [| lia].
  destruct (now - Message.createdAt msg >? 5 * 60 * 1000) eqn:T;
    [| rewrite Z.gtb_ltb in T; lia].
  reflexivity.
Qed.

Lemma edit_in_time (msg : Message.t) :
  message_findUnique messageId (prisma s) = Some msg ->
  Message.userId msg = currentUser socket ->
  now - Message.createdAt msg <= 5 * 60 * 1000 ->
  let updated := Message.set_content (Some (sanitizeHtml newContent)) msg in
  snd edited = [(room_general, message_updated updated)]
  /\ message_findUnique messageId (prisma (fst edited)) = Some updated
  /\ mention (prisma (fst edited))
     = update_where (fun x => Mention.messageId x =? messageId)
         (Mention.set_read false None) (mention (prisma s))
  /\ messageHistory (prisma (fst edited))
     = messageHistory (prisma s)
       ++ [MessageHistory.mk messageId (content_or_empty (Message.content msg))].
Proof.
  intros F Hu Ht updated.
  destruct (find_has_id _ _ _ F) as [_ Hid].
  unfold edited, exec, edit_message, try_catch, bind, message_find.
  rewrite F.
  destruct (Message.userId msg =? currentUser socket) eqn:E; [| lia].
  destruct (now - Message.createdAt msg >? 5 * 60 * 1000) eqn:T;
    [rewrite Z.gtb_ltb in T; lia |].
  cbn [negb].
  unfold transaction, bind, write_or_throw, write, messageHistory_create.
  cbn [MessageHistory.messageId]. rewrite Hid, (found_fk _ _ _ F).
  cbn [prisma readReceiptBuffer].
  set (d1 := mention_updateMany _ _ _).
  assert (F1 : message_findUnique messageId d1 = Some msg) by exact F.
  destruct (message_update_found messageId
              (Message.set_content (Some (sanitizeHtml newContent))) d1 msg)
    as [d' [U [F' [Mn [Hi _]]]]]; [reflexivity | exact F1 |].
  rewrite U. cbn [fst snd prisma app emit].
  rewrite Mn, Hi. repeat split; assumption.
Qed.

Lemma edit_in_time_messages (msg : Message.t) :
  message_findUnique messageId (prisma s) = Some msg ->
  Message.userId msg = currentUser socket ->
  now - Message.createdAt msg <= 5 * 60 * 1000 ->
  message (prisma (fst edited))
  = update_where (has_id messageId)
      (Message.set_content (Some (sanitizeHtml newContent)))
      (message (prisma s)).
Proof.
  intros F Hu Ht.
  destruct (find_has_id _ _ _ F) as [_ Hid].
  unfold edited, exec, edit_message, try_catch, bind, message_find.
  rewrite F.
  destruct (Message.userId msg =? currentUser socket) eqn:E; [| lia].
  destruct (now - Message.createdAt msg >? 5 * 60 * 1000) eqn:T;
    [rewrite Z.gtb_ltb in T; lia |].
  cbn [negb].
  unfold transaction, bind, write_or_throw, write, messageHistory_create.
  cbn [MessageHistory.messageId]. rewrite Hid, (found_fk _ _ _ F).
  cbn [prisma readReceiptBuffer]. unfold message_update.
  match goal with
  | |- context [message_findUnique messageId ?d1] =>
      change (message_findUnique messageId d1)
        with (message_findUnique messageId (prisma s))
  end.
  rewrite F. reflexivity.
Qed.
End EditProperties.

Lemma in_update_where {A} (p : A -> bool) (f : A -> A) (l : list A) (x : A) :
  In x (update_where p f l) ->
  exists y, In y l /\ x = if p y then f y else y.
Proof.
  unfold update_where. intros H. apply in_map_iff in H.
  destruct H as [y [E Hin]]. exists y. split; [assumption | symmetry; assumption].
Qed.

(** C9: an edit is broadcast only when the message exists, the socket's user
    is its author and no more than 5 minutes have passed since its creation;
    an edit by anyone else, or later than that, leaves the server state as it
    was and sends one error, to the asking socket. *)
Theorem edit_message_guard :
  forall sanitizeHtml now socket messageId newContent s,
    ((exists m, In (room_general, message_updated m)
                   (snd (exec (edit_message sanitizeHtml now socket messageId
                                 newContent) s))) ->
     exists msg,
       message_findUnique messageId (prisma s) = Some msg
       /\ Message.userId msg = currentUser socket
       /\ now - Message.createdAt msg <= 5 * 60 * 1000)
    /\ (forall msg,
          message_findUnique messageId (prisma s) = Some msg ->
          Message.userId msg <> currentUser socket
          \/ now - Message.createdAt msg > 5 * 60 * 1000 ->
          exists e,
            exec (edit_message sanitizeHtml now socket messageId newContent) s
            = (s, [(to_socket (socket_id socket), error e)])).
Proof.
  intros sanitizeHtml now socket messageId newContent s.
  assert (R : forall msg,
             message_findUnique messageId (prisma s) = Some msg ->
             Message.userId msg <> currentUser socket
             \/ now - Message.createdAt msg > 5 * 60 * 1000 ->
             exists e,
               exec (edit_message sanitizeHtml now socket messageId newContent) s
               = (s, [(to_socket (socket_id socket), error e)])).
  { intros msg F [Hu | Ht].
    - eexists. eapply edit_by_other; eassumption.
    - destruct (Z.eq_dec (Message.userId msg) (currentUser socket)) as [Hu | Hu].
      + eexists. eapply edit_too_late; eassumption.
      + eexists. eapply edit_by_other; eassumption. }
  split; [| exact R].
  intros [m Hin].
  destruct (message_findUnique messageId (prisma s)) as [msg |] eqn:F.
  - destruct (Z.eq_dec (Message.userId msg) (currentUser socket)) as [Hu | Hu].
    + destruct (Z_le_gt_dec (now - Message.createdAt msg) (5 * 60 * 1000))
        as [Ht | Ht].
      * exists msg. repeat split; assumption.
      * destruct (R msg eq_refl (or_intror Ht)) as [e He].
        rewrite He in Hin. simpl in Hin.
        destruct Hin as [Hin | []]. discriminate.
    + destruct (R msg eq_refl (or_introl Hu)) as [e He].
      rewrite He in Hin. simpl in Hin.
      destruct Hin as [Hin | []]. discriminate.
  - destruct (absent_message_runs sanitizeHtml now socket messageId
                newContent s F) as [_ He].
    rewrite He in Hin. simpl in Hin.
    destruct Hin as [Hin | []]. discriminate.
Qed.

(** Bob may not edit alice's message 1. *)
Lemma edit_message_guard_witness :
  exists e,
    exec (edit_message (fun c => c) 0 bob 1 "mine now") two_messages
    = (two_messages, [(to_socket "socket-b", error e)]).
Proof.
  apply (proj2 (edit_message_guard (fun c => c) 0 bob 1 "mine now" two_messages)
           (fresh_message 1 2 0 "first" None)).
  - reflexivity.
  - left. simpl. lia.
Defined.

(** ** Mentions are reset by an edit *)

(** C6: when the author edits a message within the window, the one run of
    the handler leaves every mention of that message with [isRead = false]
    and [readAt = null], whatever they were before, and the mentions of other
    messages as they were; it appends to the edit history one row with the
    content the message had before the edit (the empty string for a null
    content); it stores the new, sanitized content in the row of the message
    and changes no other column or row; and it broadcasts the edited row.
    The three writes are one transaction, none of which can be refused once
    the message is found. *)
Theorem edit_resets_mentions :
  forall sanitizeHtml now socket messageId newContent s msg,
    message_findUnique messageId (prisma s) = Some msg ->
    Message.userId msg = currentUser socket ->
    now - Message.createdAt msg <= 5 * 60 * 1000 ->
    let run := exec (edit_message sanitizeHtml now socket messageId
                       newContent) s in
    let d := prisma s in
    let d' := prisma (fst run) in
    let cleanContent := sanitizeHtml newContent in
    (forall mn, In mn (mention d') ->
                Mention.messageId mn = messageId ->
                Mention.isRead mn = false /\ Mention.readAt mn = None)
    /\ mention d'
       = map (fun x =>
                if Mention.messageId x =? messageId
                then Mention.mk (Mention.id x) (Mention.userId x)
                       (Mention.messageId x) false None
                else x) (mention d)
    /\ messageHistory d'
       = messageHistory d
         ++ [MessageHistory.mk messageId
               (match Message.content msg with
                | Some c => c
                | None => EmptyString
                end)]
    /\ message d'
       = map (fun x =>
                if Message.id x =? messageId
                then Message.mk (Message.id x) (Some cleanContent)
                       (Message.createdAt x) (Message.isDeleted x)
                       (Message.expiresAt x) (Message.isPinned x)
                       (Message.wasPinned x) (Message.userId x)
                       (Message.parentId x)
                else x) (message d)
    /\ (exists stored,
          message_findUnique messageId d' = Some stored
          /\ Message.content stored = Some cleanContent
          /\ snd run = [(room_general, message_updated stored)]).
Proof.
  intros sanitizeHtml now socket messageId newContent s msg F Hu Ht
    run d d' cleanContent.
  destruct (edit_in_time sanitizeHtml now socket messageId newContent s msg
              F Hu Ht) as [Ho [Hm [Hmn Hh]]].
  pose proof (edit_in_time_messages sanitizeHtml now socket messageId
                newContent s msg F Hu Ht) as Ht'.
  fold run in Ho, Hm, Hmn, Hh, Ht'. fold d' in Hm, Hmn, Hh, Ht'.
  split; [| split; [exact Hmn | split; [exact Hh | split; [exact Ht' |]]]].
  - intros mn Hin Hid. rewrite Hmn in Hin.
    apply in_update_where in Hin. destruct Hin as [y [_ E]].
    destruct (Mention.messageId y =? messageId) eqn:Y.
    + subst mn. split; reflexivity.
    + subst mn. lia.
  - eexists. split; [exact Hm |]. split; [reflexivity | exact Ho].
Qed.

(** Alice edits message 1 after bob acknowledged his mention. *)
Lemma edit_resets_mentions_witness :
  let d' := prisma (fst (exec (edit_message (fun c => c) 1000 alice 1
                                 "hi @bob!") acknowledged_mention)) in
  mention d' = [Mention.mk 1 3 1 false None]
  /\ messageHistory d' = [MessageHistory.mk 1 "hi @bob"]
  /\ message d'
     = [Message.mk 1 (Some "hi @bob!"%string) 0 false None false false 2 None].
Proof.
  pose proof (edit_resets_mentions (fun c => c) 1000 alice 1 "hi @bob!"
                acknowledged_mention (fresh_message 1 2 0 "hi @bob" None)
                eq_refl eq_refl ltac:(simpl; lia)) as [_ [M [H [T _]]]].
  split; [exact M | split; [exact H | exact T]].
Defined.

(** ** Delete and restore of a pinned message *)

Lemma set_flags_id (del pin was : bool) (x : Message.t) :
  Message.id (Message.set_flags del pin was x) = Message.id x.
Proof. reflexivity. Qed.

Lemma delete_authorized (socket : Socket) (messageId : Z) (s : Server)
  (msg : Message.t) :
  message_findUnique messageId (prisma s) = Some msg ->
  Message.userId msg = currentUser socket \/ currentUser socket = 1 ->
  message_findUnique messageId
    (prisma (fst (exec (delete_message socket messageId) s)))
  = Some (Message.set_flags true false (Message.isPinned msg) msg)
  /\ snd (exec (delete_message socket messageId) s)
     = (if Message.isPinned msg
        then [(room_general, message_pinned messageId false)] else [])
       ++ [(room_general, message_deleted messageId)].
Proof.
  intros F Hauth.
  unfold exec, delete_message, handleDeleteMessage, try_catch, bind,
    message_find.
  rewrite F.
  assert (A : negb (Message.userId msg =? currentUser socket)
              && negb (currentUser socket =? 1) = false).
  { destruct Hauth as [H | H].
    - apply Z.eqb_eq in H. rewrite H. reflexivity.
    - apply Z.eqb_eq in H. rewrite H. apply andb_false_r. }
  rewrite A. unfold write_or_throw.
  destruct (message_update_found messageId
              (Message.set_flags true false (Message.isPinned msg))
              (prisma s) msg (set_flags_id _ _ _) F) as [d' [U [F' _]]].
  rewrite U. destruct (Message.isPinned msg); cbn; split; auto.
Qed.

Lemma emit_each_bookmark (updatedMsg : option Message.t) :
  forall (bookmarks : list Bookmark.t) (s : Server),
    exists out,
      fold_right
        (fun bm rest =>
           emit (room_user (Bookmark.userId bm))
                (bookmark_updated updatedMsg bm) ;; rest)
        (ret tt) bookmarks s
      = (Ok tt, s, out)
      /\ forallb (fun e => negb (is_broadcast e)) out = true.
Proof.
  induction bookmarks as [| bm rest IH]; intros s; simpl.
  - exists []. split; reflexivity.
  - destruct (IH s) as [out [E B]]. unfold bind at 1. unfold emit at 1.
    rewrite E. eexists. split; [reflexivity |]. simpl. assumption.
Qed.

Lemma restore_by_author (socket : Socket) (messageId : Z) (s : Server)
  (msg : Message.t) :
  message_findUnique messageId (prisma s) = Some msg ->
  Message.userId msg = currentUser socket ->
  message_findUnique messageId
    (prisma (fst (exec (restore_message socket messageId) s)))
  = Some (Message.set_flags false (Message.wasPinned msg) false msg).
Proof.
  intros F Hu.
  unfold exec, restore_message, try_catch. unfold bind at 1. unfold query at 1.
  rewrite F. apply Z.eqb_eq in Hu. rewrite Hu. cbn [negb].
  unfold bind at 1. unfold write_or_throw.
  destruct (message_update_found messageId
              (Message.set_flags false (Message.wasPinned msg) false)
              (prisma s) msg (set_flags_id _ _ _) F) as [d' [U [F' _]]].
  rewrite U. unfold bind at 1. unfold query at 1. cbn [prisma].
  rewrite F'. unfold bind at 1. unfold emit at 1.
  unfold bind at 1.
  set (s1 := {| prisma := d'; readReceiptBuffer := readReceiptBuffer s |}).
  assert (W : exists o,
             when (Message.isPinned
                     (Message.set_flags false (Message.wasPinned msg) false msg))
               (emit room_general (message_pinned messageId true)) s1
             = (Ok tt, s1, o)).
  { destruct (Message.isPinned _); eexists; reflexivity. }
  destruct W as [o W]. rewrite W.
  unfold bind at 1. unfold query at 1.
  destruct (emit_each_bookmark
              (Some (Message.set_flags false (Message.wasPinned msg) false msg))
              (bookmark_findMany messageId (prisma s1)) s1) as [out [E _]].
  rewrite E. cbn. exact F'.
Qed.

(** C7: when an existing message is deleted by its author (or by user 1), it
    is left with [isDeleted = true], [isPinned = false] and [wasPinned] equal
    to the [isPinned] it had; when its author then restores it, it is left
    with [isDeleted = false], [wasPinned = false] and [isPinned] equal to the
    [isPinned] it had before the delete: pinned again if it was pinned, not
    pinned if it was not. *)
Theorem delete_then_restore_pin :
  forall deleter author messageId s msg,
    message_findUnique messageId (prisma s) = Some msg ->
    Message.userId msg = currentUser deleter \/ currentUser deleter = 1 ->
    Message.userId msg = currentUser author ->
    let s1 := fst (exec (delete_message deleter messageId) s) in
    let s2 := fst (exec (restore_message author messageId) s1) in
    exists m1 m2,
      message_findUnique messageId (prisma s1) = Some m1
      /\ message_findUnique messageId (prisma s2) = Some m2
      /\ Message.isDeleted m1 = true
      /\ Message.isPinned m1 = false
      /\ Message.wasPinned m1 = Message.isPinned msg
      /\ Message.isDeleted m2 = false
      /\ Message.isPinned m2 = Message.isPinned msg
      /\ Message.wasPinned m2 = false.
Proof.
  intros deleter author messageId s msg F Hauth Hu s1 s2.
  destruct (delete_authorized deleter messageId s msg F Hauth) as [F1 _].
  fold s1 in F1.
  assert (F2 := restore_by_author author messageId s1 _ F1 Hu). fold s2 in F2.
  eexists. eexists. split; [exact F1 |]. split; [exact F2 |].
  repeat split.
Qed.

(** Alice deletes her pinned message 1 and restores it. *)
Lemma delete_then_restore_pin_witness :
  exists m1 m2,
    message_findUnique 1 (prisma (fst (exec (delete_message alice 1) one_pinned)))
    = Some m1
    /\ message_findUnique 1
         (prisma (fst (exec (restore_message alice 1)
                         (fst (exec (delete_message alice 1) one_pinned)))))
       = Some m2
    /\ Message.isDeleted m1 = true
    /\ Message.isPinned m1 = false
    /\ Message.wasPinned m1 = true
    /\ Message.isDeleted m2 = false
    /\ Message.isPinned m2 = true
    /\ Message.wasPinned m2 = false.
Proof.
  exact (delete_then_restore_pin alice alice 1 one_pinned
           (Message.set_isPinned true (fresh_message 1 2 0 "first" None))
           eq_refl (or_introl eq_refl) eq_refl).
Defined.

(** ** Reaction toggling *)

Lemma same_triple_spec (u m : Z) (e : string) (r : Reaction.t) :
  same_triple u m e r = true <-> triple r = (u, m, e).
Proof.
  unfold same_triple, triple. rewrite !andb_true_iff, !Z.eqb_eq, String.eqb_eq.
  split.
  - intros [[H1 H2] H3]. congruence.
  - intros H. inversion H. auto.
Qed.

(** Under the unique index two rows with the same triple are one row. *)
Lemma one_row_per_triple (rs : list Reaction.t) :
  NoDup (map triple rs) ->
  forall r1 r2, In r1 rs -> In r2 rs -> triple r1 = triple r2 -> r1 = r2.
Proof.
  induction rs as [| r rs IH]; intros N r1 r2 H1 H2 E; [contradiction |].
  simpl in N. apply NoDup_cons_iff in N. destruct N as [Nr N].
  destruct H1 as [H1 | H1], H2 as [H2 | H2]; subst.
  - reflexivity.
  - exfalso. apply Nr. rewrite E. apply in_map. assumption.
  - exfalso. apply Nr. rewrite <- E. apply in_map. assumption.
  - apply IH; assumption.
Qed.

(** Deleting rows keeps the unique index. *)
Lemma unique_triples_after_delete (keep : Reaction.t -> bool)
  (rs : list Reaction.t) :
  NoDup (map triple rs) -> NoDup (map triple (filter keep rs)).
Proof.
  intros N. induction rs as [| r rs IH]; simpl; [constructor |].
  simpl in N. apply NoDup_cons_iff in N. destruct N as [Nr N].
  destruct (keep r); simpl; [| auto].
  constructor; [| auto].
  intros H. apply Nr. apply in_map_iff in H. destruct H as [x [E Hx]].
  apply filter_In in Hx. apply in_map_iff. exists x. tauto.
Qed.

Lemma NoDup_snoc {A} (l : list A) (x : A) :
  NoDup l -> ~ In x l -> NoDup (l ++ [x]).
Proof.
  intros N Hx. apply NoDup_app.
  - assumption.
  - constructor; [intros [] | constructor].
  - intros y Hy [E | []]. subst. contradiction.
Qed.

(** The three ways a toggle can go. *)
Lemma toggle_cases (socket : Socket) (messageId : Z) (emoji : string)
  (s : Server) :
  let d := prisma s in
  let d' := prisma (fst (exec (toggle_reaction socket messageId emoji) s)) in
  (exists r,
      reaction_findUnique (currentUser socket) messageId emoji d = Some r
      /\ d' = with_reaction
                (filter (fun x => negb (Reaction.id x =? Reaction.id r))
                        (reaction d))
                (reaction_seq d) d)
  \/ (reaction_findUnique (currentUser socket) messageId emoji d = None
      /\ fk_message messageId d = true
      /\ d' = with_reaction
                (reaction d
                 ++ [Reaction.mk (reaction_seq d) emoji (currentUser socket)
                       messageId])
                (reaction_seq d + 1) d)
  \/ (reaction_findUnique (currentUser socket) messageId emoji d = None
      /\ fk_message messageId d = false
      /\ d' = d).
Proof.
  intros d d'. subst d d'.
  unfold exec, toggle_reaction, try_catch, bind, query, write_or_throw.
  destruct (reaction_findUnique (currentUser socket) messageId emoji (prisma s))
    as [r |] eqn:F.
  - left. exists r. split; [reflexivity |].
    unfold reaction_delete.
    assert (E : existsb (fun x => Reaction.id x =? Reaction.id r)
                  (reaction (prisma s)) = true).
    { apply existsb_exists. exists r. split; [| apply Z.eqb_refl].
      apply (find_some _ _ F). }
    rewrite E. reflexivity.
  - unfold reaction_create.
    assert (E : existsb (same_triple (currentUser socket) messageId emoji)
                  (reaction (prisma s)) = false).
    { destruct (existsb _ _) eqn:X; [| reflexivity].
      apply existsb_exists in X. destruct X as [x [Hx Tx]].
      unfold reaction_findUnique in F. rewrite (find_none _ _ F x Hx) in Tx.
      discriminate. }
    rewrite E.
    destruct (fk_message messageId (prisma s)) eqn:K.
    + right. left. repeat split.
    + right. right. repeat split.
Qed.

Lemma toggle_keeps_messages (socket : Socket) (messageId : Z) (emoji : string)
  (s : Server) :
  message (prisma (fst (exec (toggle_reaction socket messageId emoji) s)))
  = message (prisma s).
Proof.
  destruct (toggle_cases socket messageId emoji s)
    as [[r [_ E]] | [[_ [_ E]] | [_ [_ E]]]]; rewrite E; reflexivity.
Qed.

Lemma toggle_keeps_fk (socket : Socket) (messageId : Z) (emoji : string)
  (s : Server) (i : Z) :
  fk_message i (prisma (fst (exec (toggle_reaction socket messageId emoji) s)))
  = fk_message i (prisma s).
Proof.
  unfold fk_message. rewrite toggle_keeps_messages. reflexivity.
Qed.

Lemma toggle_wf (socket : Socket) (messageId : Z) (emoji : string) (s : Server) :
  reactions_wf (prisma s) ->
  reactions_wf (prisma (fst (exec (toggle_reaction socket messageId emoji) s))).
Proof.
  intros [N [I K]].
  destruct (toggle_cases socket messageId emoji s)
    as [[r [F E]] | [[F [Kn E]] | [_ [_ E]]]]; rewrite E; clear E.
  - split; [| split]; simpl.
    + apply unique_triples_after_delete. assumption.
    + intros x Hx. apply filter_In in Hx. apply I. tauto.
    + intros x Hx. apply filter_In in Hx. apply (K x). tauto.
  - split; [| split]; simpl.
    + rewrite map_app. simpl. apply NoDup_snoc; [assumption |].
      intros H. apply in_map_iff in H. destruct H as [x [Tx Hx]].
      assert (T : same_triple (currentUser socket) messageId emoji x = true)
        by (apply same_triple_spec; exact Tx).
      unfold reaction_findUnique in F. rewrite (find_none _ _ F x Hx) in T.
      discriminate.
    + intros x Hx. apply in_app_or in Hx. destruct Hx as [Hx | [Hx | []]].
      * specialize (I x Hx). lia.
      * subst x. simpl. lia.
    + intros x Hx. apply in_app_or in Hx. destruct Hx as [Hx | [Hx | []]].
      * apply (K x Hx).
      * subst x. exact Kn.
  - split; [| split]; assumption.
Qed.

(** One toggle flips the presence of its triple, unless the message does not
    exist, in which case nothing is written. *)
Lemma toggle_flips (socket : Socket) (messageId : Z) (emoji : string)
  (s : Server) :
  reactions_wf (prisma s) ->
  has_reaction (currentUser socket) messageId emoji
    (prisma (fst (exec (toggle_reaction socket messageId emoji) s)))
  = xorb (has_reaction (currentUser socket) messageId emoji (prisma s))
         (fk_message messageId (prisma s)).
Proof.
  intros [N [I K]]. unfold has_reaction.
  destruct (toggle_cases socket messageId emoji s)
    as [[r [F E]] | [[F [Kn E]] | [F [Kn E]]]]; rewrite E; clear E; simpl.
  - unfold reaction_findUnique in F. apply find_some in F. destruct F as [Hr Tr].
    assert (H1 : existsb (same_triple (currentUser socket) messageId emoji)
                   (reaction (prisma s)) = true).
    { apply existsb_exists. exists r. split; assumption. }
    assert (H2 : fk_message messageId (prisma s) = true).
    { specialize (K r Hr). apply same_triple_spec in Tr. inversion Tr; subst.
      exact K. }
    rewrite H1, H2. simpl.
    destruct (existsb _ (filter _ _)) eqn:X; [| reflexivity].
    apply existsb_exists in X. destruct X as [x [Hx Tx]].
    apply filter_In in Hx. destruct Hx as [Hx Ne].
    apply same_triple_spec in Tx, Tr.
    assert (x = r).
    { apply (one_row_per_triple (reaction (prisma s))); congruence. }
    subst x. rewrite Z.eqb_refl in Ne. discriminate.
  - assert (H1 : existsb (same_triple (currentUser socket) messageId emoji)
                   (reaction (prisma s)) = false).
    { destruct (existsb _ _) eqn:X; [| reflexivity].
      apply existsb_exists in X. destruct X as [x [Hx Tx]].
      unfold reaction_findUnique in F. rewrite (find_none _ _ F x Hx) in Tx.
      discriminate. }
    rewrite existsb_app, H1, Kn. simpl.
    replace (same_triple (currentUser socket) messageId emoji
               (Reaction.mk (reaction_seq (prisma s)) emoji (currentUser socket)
                  messageId)) with true; [reflexivity |].
    symmetry. apply same_triple_spec. reflexivity.
  - rewrite Kn. rewrite xorb_false_r. reflexivity.
Qed.

Lemma serve_toggles_wf :
  forall ts s, reactions_wf (prisma s) -> reactions_wf (prisma (serve_toggles ts s)).
Proof.
  induction ts as [| [[socket messageId] emoji] ts IH]; intros s W; [exact W |].
  unfold serve_toggles, serve. simpl.
  apply (IH (fst (exec (toggle_reaction socket messageId emoji) s))).
  apply toggle_wf. exact W.
Qed.

(** C5: on a [Reaction] table that meets its schema, toggling the same
    (user, message, emoji) twice in a row leaves the triple present exactly
    when it was present before, and no run of toggles leaves two rows with
    the same triple. *)
Theorem toggle_reaction_twice_and_unique :
  forall s,
    reactions_wf (prisma s) ->
    (forall socket messageId emoji,
        has_reaction (currentUser socket) messageId emoji
          (prisma (fst (exec (toggle_reaction socket messageId emoji)
                          (fst (exec (toggle_reaction socket messageId emoji)
                                  s)))))
        = has_reaction (currentUser socket) messageId emoji (prisma s))
    /\ (forall ts, NoDup (map triple (reaction (prisma (serve_toggles ts s))))).
Proof.
  intros s W. split.
  - intros socket messageId emoji.
    rewrite toggle_flips; [| apply toggle_wf; exact W].
    rewrite toggle_flips; [| exact W].
    rewrite toggle_keeps_fk.
    rewrite xorb_assoc, xorb_nilpotent, xorb_false_r. reflexivity.
  - intros ts. apply (serve_toggles_wf ts s W).
Qed.

Lemma two_messages_wf : reactions_wf (prisma two_messages).
Proof.
  split; [constructor | split; intros r []].
Defined.

(** Four toggles on message 1 of [two_messages]. *)
Lemma toggle_reaction_twice_and_unique_witness :
  NoDup (map triple
           (reaction
              (prisma
                 (serve_toggles
                    [(alice, 1, "+1"%string); (bob, 1, "+1"%string);
                     (alice, 1, "+1"%string); (alice, 1, "+1"%string)]
                    two_messages)))).
Proof.
  exact (proj2 (toggle_reaction_twice_and_unique two_messages two_messages_wf) _).
Defined.

(** ** Read receipts *)

Section SetAdd.
Variable u : Z.

Lemma Set_add_in (us : list Z) : In u (Set_add u us).
Proof.
  unfold Set_add. destruct (existsb (Z.eqb u) us) eqn:E.
  - apply existsb_exists in E. destruct E as [x [Hx E]].
    apply Z.eqb_eq in E. subst. assumption.
  - apply in_or_app. right. left. reflexivity.
Qed.

Lemma Set_add_keeps (us : list Z) (x : Z) : In x us -> In x (Set_add u us).
Proof.
  unfold Set_add. destruct (existsb (Z.eqb u) us); [auto |].
  intros H. apply in_or_app. left. assumption.
Qed.

Lemma Set_add_NoDup (us : list Z) : NoDup us -> NoDup (Set_add u us).
Proof.
  intros N. unfold Set_add. destruct (existsb (Z.eqb u) us) eqn:E; [assumption |].
  apply NoDup_snoc; [assumption |]. intros H.
  assert (X : existsb (Z.eqb u) us = true).
  { apply existsb_exists. exists u. split; [assumption | apply Z.eqb_refl]. }
  congruence.
Qed.
End SetAdd.

Section MapOps.
Variables (k u : Z).

Lemma Map_get_add_keys (buf : list (Z * list Z)) :
  map fst (Map_get_add k u buf) = map fst buf.
Proof.
  unfold Map_get_add. rewrite map_map. apply map_ext.
  intros kv. destruct (fst kv =? k); reflexivity.
Qed.

Lemma Map_get_add_sets (buf : list (Z * list Z)) :
  Forall (fun kv => NoDup (snd kv)) buf ->
  Forall (fun kv => NoDup (snd kv)) (Map_get_add k u buf).
Proof.
  intros H. unfold Map_get_add. apply Forall_map.
  eapply Forall_impl; [| exact H].
  intros kv N. destruct (fst kv =? k); simpl; [apply Set_add_NoDup |]; assumption.
Qed.

Lemma Map_get_add_get (k' : Z) (buf : list (Z * list Z)) :
  Map_get k' (Map_get_add k u buf)
  = if k' =? k then option_map (Set_add u) (Map_get k buf) else Map_get k' buf.
Proof.
  unfold Map_get, Map_get_add.
  induction buf as [| [a v] buf IH]; simpl.
  - destruct (k' =? k); reflexivity.
  - destruct (a =? k) eqn:A; simpl.
    + apply Z.eqb_eq in A. subst a.
      destruct (k' =? k) eqn:K.
      * rewrite Z.eqb_sym, K. reflexivity.
      * rewrite Z.eqb_sym, K. rewrite IH. reflexivity.
    + destruct (a =? k') eqn:A'.
      * apply Z.eqb_eq in A'. subst a. rewrite A. reflexivity.
      * exact IH.
Qed.

Lemma Map_set_keys (v : list Z) (buf : list (Z * list Z)) :
  Map_has k buf = false -> map fst (Map_set k v buf) = map fst buf ++ [k].
Proof.
  unfold Map_has. induction buf as [| [a w] buf IH]; simpl; intros H;
    [reflexivity |].
  apply orb_false_iff in H. destruct H as [A H]. rewrite A. simpl.
  rewrite IH; [reflexivity | assumption].
Qed.

Lemma Map_set_sets (v : list Z) (buf : list (Z * list Z)) :
  NoDup v ->
  Forall (fun kv => NoDup (snd kv)) buf ->
  Forall (fun kv => NoDup (snd kv)) (Map_set k v buf).
Proof.
  intros Nv. induction buf as [| [a w] buf IH]; simpl; intros H.
  - constructor; [assumption | constructor].
  - inversion H; subst. destruct (a =? k); constructor; auto.
Qed.

Lemma Map_set_get (v : list Z) (k' : Z) (buf : list (Z * list Z)) :
  Map_has k buf = false ->
  Map_get k' (Map_set k v buf) = if k' =? k then Some v else Map_get k' buf.
Proof.
  unfold Map_has, Map_get. induction buf as [| [a w] buf IH]; simpl; intros H.
  - rewrite Z.eqb_sym. destruct (k' =? k); reflexivity.
  - apply orb_false_iff in H. destruct H as [A H]. rewrite A. simpl.
    destruct (a =? k') eqn:A'.
    + apply Z.eqb_eq in A'. subst a. rewrite A. reflexivity.
    + apply IH. assumption.
Qed.

Lemma Map_has_get (buf : list (Z * list Z)) :
  Map_has k buf = true -> exists v, Map_get k buf = Some v.
Proof.
  unfold Map_has, Map_get. induction buf as [| [a w] buf IH]; simpl; intros H;
    [discriminate |].
  destruct (a =? k); simpl in *; [eexists; reflexivity | auto].
Qed.

Lemma Map_get_has (buf : list (Z * list Z)) (v : list Z) :
  Map_get k buf = Some v -> Map_has k buf = true.
Proof.
  unfold Map_has, Map_get. induction buf as [| [a w] buf IH]; simpl; intros H;
    [discriminate |].
  destruct (a =? k); simpl in *; [reflexivity | auto].
Qed.

Lemma Map_has_keys (buf : list (Z * list Z)) :
  Map_has k buf = false -> ~ In k (map fst buf).
Proof.
  unfold Map_has. intros H Hin. apply in_map_iff in Hin.
  destruct Hin as [kv [E Hkv]].
  assert (X : existsb (fun kv => fst kv =? k) buf = true).
  { apply existsb_exists. exists kv. split; [assumption | lia]. }
  congruence.
Qed.
End MapOps.

Lemma buffer_add_wf (messageId userId : Z) (buf : list (Z * list Z)) :
  buffer_wf buf -> buffer_wf (buffer_add messageId userId buf).
Proof.
  intros [K S]. unfold buffer_add, buffer_wf.
  rewrite Map_get_add_keys. split.
  - destruct (Map_has messageId buf) eqn:H; simpl; [assumption |].
    rewrite Map_set_keys by assumption.
    apply NoDup_snoc; [assumption | apply Map_has_keys; assumption].
  - apply Map_get_add_sets.
    destruct (Map_has messageId buf); simpl; [assumption |].
    apply Map_set_sets; [constructor | assumption].
Qed.

Lemma buffer_add_get (messageId userId : Z) (buf : list (Z * list Z)) :
  exists us,
    Map_get messageId (buffer_add messageId userId buf) = Some us /\ In userId us.
Proof.
  unfold buffer_add. rewrite Map_get_add_get, Z.eqb_refl.
  destruct (Map_has messageId buf) eqn:H; simpl.
  - destruct (Map_has_get _ _ H) as [v E]. rewrite E. simpl.
    eexists. split; [reflexivity | apply Set_add_in].
  - rewrite Map_set_get by assumption. rewrite Z.eqb_refl. simpl.
    eexists. split; [reflexivity | apply Set_add_in].
Qed.

Lemma buffer_add_keeps (messageId userId m u : Z) (buf : list (Z * list Z))
  (us : list Z) :
  Map_get m buf = Some us -> In u us ->
  exists us',
    Map_get m (buffer_add messageId userId buf) = Some us' /\ In u us'.
Proof.
  intros G Hu. unfold buffer_add. rewrite Map_get_add_get.
  destruct (m =? messageId) eqn:E.
  - apply Z.eqb_eq in E. subst m.
    rewrite (Map_get_has _ _ _ G). simpl. rewrite G. simpl.
    eexists. split; [reflexivity | apply Set_add_keeps; assumption].
  - destruct (Map_has messageId buf) eqn:H; simpl.
    + exists us. split; assumption.
    + rewrite Map_set_get by assumption. rewrite E.
      exists us. split; assumption.
Qed.

(** The three ways a [mark_read] can go. *)
Lemma mark_read_cases (socket : Socket) (messageId : Z) (s : Server) :
  let u := currentUser socket in
  let s' := fst (exec (mark_read socket messageId) s) in
  (existsb (same_read u messageId) (messageRead (prisma s)) = false
   /\ fk_message messageId (prisma s) = false /\ s' = s)
  \/ (readReceiptBuffer s' = buffer_add messageId u (readReceiptBuffer s)
      /\ ((existsb (same_read u messageId) (messageRead (prisma s)) = true
           /\ prisma s' = prisma s)
          \/ (existsb (same_read u messageId) (messageRead (prisma s)) = false
              /\ fk_message messageId (prisma s) = true
              /\ prisma s'
                 = with_messageRead
                     (messageRead (prisma s) ++ [MessageRead.mk messageId u])
                     (prisma s)))).
Proof.
  intros u s'. subst u s'.
  unfold exec, mark_read, try_catch, bind, write_or_throw, messageRead_upsert,
    inspect, buffer_add.
  destruct (existsb _ (messageRead (prisma s))) eqn:X.
  - right. cbn [readReceiptBuffer prisma].
    destruct (Map_has messageId (readReceiptBuffer s)); cbn; split; auto.
  - destruct (fk_message messageId (prisma s)) eqn:K.
    + right. cbn [readReceiptBuffer prisma].
      destruct (Map_has messageId (readReceiptBuffer s)); cbn; split; auto.
    + left. cbn. auto.
Qed.

Lemma existsb_false_filter {A} (p : A -> bool) (l : list A) :
  existsb p l = false -> filter p l = [].
Proof.
  induction l as [| a l IH]; simpl; intros H; [reflexivity |].
  apply orb_false_iff in H. destruct H as [Pa H]. rewrite Pa. auto.
Qed.

Lemma count_reads_insert (userId messageId : Z) (x : MessageRead.t) (d : Db) :
  count_reads userId messageId (with_messageRead (messageRead d ++ [x]) d)
  = (count_reads userId messageId d
     + if same_read userId messageId x then 1 else 0)%nat.
Proof.
  unfold count_reads. simpl. rewrite filter_app, length_app. simpl.
  destruct (same_read userId messageId x); reflexivity.
Qed.

Lemma same_read_spec (u m u' m' : Z) :
  same_read u m (MessageRead.mk m' u') = true -> u' = u /\ m' = m.
Proof.
  unfold same_read. simpl. rewrite andb_true_iff, !Z.eqb_eq. tauto.
Qed.

Section MarkReadStep.
Variables (socket : Socket) (messageId : Z) (s : Server).
Let s' := fst (exec (mark_read socket messageId) s).

Lemma mark_read_grows (u m : Z) :
  (count_reads u m (prisma s) <= count_reads u m (prisma s'))%nat.
Proof.
  destruct (mark_read_cases socket messageId s)
    as [[_ [_ E]] | [_ [[_ E] | [_ [_ E]]]]]; fold s' in E; rewrite E.
  - lia.
  - lia.
  - rewrite count_reads_insert. lia.
Qed.

Lemma mark_read_unique : reads_unique (prisma s) -> reads_unique (prisma s').
Proof.
  intros U u m.
  destruct (mark_read_cases socket messageId s)
    as [[_ [_ E]] | [_ [[_ E] | [X [_ E]]]]]; fold s' in E; rewrite E.
  - apply U.
  - apply U.
  - rewrite count_reads_insert.
    destruct (same_read u m _) eqn:R; [| specialize (U u m); lia].
    apply same_read_spec in R. destruct R; subst.
    unfold count_reads. rewrite (existsb_false_filter _ _ X). simpl. lia.
Qed.

Lemma mark_read_buffer_wf :
  buffer_wf (readReceiptBuffer s) -> buffer_wf (readReceiptBuffer s').
Proof.
  intros W.
  destruct (mark_read_cases socket messageId s) as [[_ [_ E]] | [E _]];
    fold s' in E; rewrite E; [assumption | apply buffer_add_wf; assumption].
Qed.

Lemma mark_read_keeps_fk (i : Z) :
  fk_message i (prisma s') = fk_message i (prisma s).
Proof.
  destruct (mark_read_cases socket messageId s)
    as [[_ [_ E]] | [_ [[_ E] | [_ [_ E]]]]]; fold s' in E; rewrite E;
    reflexivity.
Qed.

(** After a [mark_read] for an existing message, the receipt is in the table
    and the user is in the buffer. *)
Lemma mark_read_records :
  reads_unique (prisma s) ->
  fk_message messageId (prisma s) = true ->
  count_reads (currentUser socket) messageId (prisma s') = 1%nat
  /\ exists us, Map_get messageId (readReceiptBuffer s') = Some us
                /\ In (currentUser socket) us.
Proof.
  intros U K.
  destruct (mark_read_cases socket messageId s)
    as [[_ [Kn _]] | [B [[X E] | [X [_ E]]]]]; [congruence | |];
    fold s' in B, E; rewrite B, E; (split; [| apply buffer_add_get]).
  - specialize (U (currentUser socket) messageId).
    unfold count_reads in *.
    apply existsb_exists in X. destruct X as [x [Hx Px]].
    assert (In x (filter (same_read (currentUser socket) messageId)
                    (messageRead (prisma s)))) by (apply filter_In; tauto).
    destruct (filter _ _); [contradiction | simpl in *; lia].
  - rewrite count_reads_insert. unfold count_reads.
    rewrite (existsb_false_filter _ _ X). unfold same_read. simpl.
    rewrite !Z.eqb_refl. reflexivity.
Qed.

(** A receipt that is recorded stays recorded by any later [mark_read]. *)
Lemma mark_read_keeps (u m : Z) :
  reads_unique (prisma s) ->
  (count_reads u m (prisma s) = 1%nat
   /\ exists us, Map_get m (readReceiptBuffer s) = Some us /\ In u us) ->
  count_reads u m (prisma s') = 1%nat
  /\ exists us, Map_get m (readReceiptBuffer s') = Some us /\ In u us.
Proof.
  intros U [C [us [G Hu]]]. split.
  - pose proof (mark_read_grows u m). pose proof (mark_read_unique U u m). lia.
  - destruct (mark_read_cases socket messageId s) as [[_ [_ E]] | [E _]];
      fold s' in E; rewrite E.
    + exists us. split; assumption.
    + eapply buffer_add_keeps; eassumption.
Qed.
End MarkReadStep.

Lemma serve_reads_cons (c : Socket * Z) (calls : list (Socket * Z)) (s : Server) :
  serve_reads (c :: calls) s
  = serve_reads calls (fst (exec (mark_read (fst c) (snd c)) s)).
Proof. reflexivity. Qed.

Lemma serve_reads_keeps (u m : Z) :
  forall calls s,
    reads_unique (prisma s) ->
    (count_reads u m (prisma s) = 1%nat
     /\ exists us, Map_get m (readReceiptBuffer s) = Some us /\ In u us) ->
    count_reads u m (prisma (serve_reads calls s)) = 1%nat
    /\ exists us, Map_get m (readReceiptBuffer (serve_reads calls s)) = Some us
                  /\ In u us.
Proof.
  induction calls as [| c calls IH]; intros s U P; [exact P |].
  rewrite serve_reads_cons. apply IH.
  - apply mark_read_unique. exact U.
  - apply mark_read_keeps; assumption.
Qed.

Lemma serve_reads_wf :
  forall calls s,
    buffer_wf (readReceiptBuffer s) ->
    buffer_wf (readReceiptBuffer (serve_reads calls s)).
Proof.
  induction calls as [| c calls IH]; intros s W; [exact W |].
  rewrite serve_reads_cons. apply IH. apply mark_read_buffer_wf. exact W.
Qed.

Lemma serve_reads_records (socket : Socket) (messageId : Z) :
  forall calls s,
    reads_unique (prisma s) ->
    fk_message messageId (prisma s) = true ->
    In (socket, messageId) calls ->
    count_reads (currentUser socket) messageId (prisma (serve_reads calls s))
    = 1%nat
    /\ exists us,
        Map_get messageId (readReceiptBuffer (serve_reads calls s)) = Some us
        /\ In (currentUser socket) us.
Proof.
  induction calls as [| c calls IH]; intros s U K Hin; [contradiction |].
  rewrite serve_reads_cons. destruct Hin as [E | Hin].
  - subst c. simpl fst. simpl snd. apply serve_reads_keeps.
    + apply mark_read_unique. exact U.
    + apply mark_read_records; assumption.
  - apply IH.
    + apply mark_read_unique. exact U.
    + rewrite mark_read_keeps_fk. exact K.
    + exact Hin.
Qed.

Lemma flush_drains (s : Server) :
  exec flush s
  = (mkServer (prisma s) [],
     map (fun kv => (room_general, message_read_update_batch (fst kv) (snd kv)))
         (readReceiptBuffer s)).
Proof.
  unfold exec, flush. destruct s as [d buf]. destruct buf; reflexivity.
Qed.

Lemma absent_key_filter (k : Z) (buf : list (Z * list Z)) :
  ~ In k (map fst buf) -> filter (fun kv => fst kv =? k) buf = [].
Proof.
  intros H. apply existsb_false_filter.
  destruct (existsb _ buf) eqn:X; [| reflexivity].
  exfalso. apply H. apply existsb_exists in X. destruct X as [kv [Hkv E]].
  apply in_map_iff. exists kv. split; [lia | assumption].
Qed.

Lemma one_entry_per_key (k : Z) (us : list Z) :
  forall buf,
    NoDup (map fst buf) -> Map_get k buf = Some us ->
    filter (fun kv => fst kv =? k) buf = [(k, us)].
Proof.
  unfold Map_get. induction buf as [| [a v] buf IH]; simpl; intros N G;
    [discriminate |].
  apply NoDup_cons_iff in N. destruct N as [Na N].
  destruct (a =? k) eqn:A.
  - apply Z.eqb_eq in A. subst a. simpl in G. inversion G; subst.
    rewrite absent_key_filter by assumption. reflexivity.
  - apply IH; assumption.
Qed.

(** C8: on a server whose [MessageRead] table meets its unique index and
    whose buffer is a Map of Sets, after any run of [mark_read] calls in which
    the user marked the (existing) message at least once, the table holds
    exactly one receipt of that user for that message; the next flush sends
    exactly one batch for that message, in which the user appears exactly
    once, and empties the buffer; and a flush of an empty buffer sends
    nothing. *)
Theorem mark_read_once :
  forall s socket messageId calls,
    reads_unique (prisma s) ->
    buffer_wf (readReceiptBuffer s) ->
    fk_message messageId (prisma s) = true ->
    In (socket, messageId) calls ->
    let s' := serve_reads calls s in
    count_reads (currentUser socket) messageId (prisma s') = 1%nat
    /\ (exists userIds,
           filter (is_batch_for messageId) (snd (exec flush s'))
           = [(room_general, message_read_update_batch messageId userIds)]
           /\ count_occ Z.eq_dec userIds (currentUser socket) = 1%nat)
    /\ readReceiptBuffer (fst (exec flush s')) = []
    /\ (forall s0, readReceiptBuffer s0 = [] -> snd (exec flush s0) = []).
Proof.
  intros s socket messageId calls U W K Hin s'.
  destruct (serve_reads_records socket messageId calls s U K Hin)
    as [C [us [G Hu]]]. fold s' in C, G.
  destruct (serve_reads_wf calls s W) as [Nk Ns]. fold s' in Nk, Ns.
  split; [exact C |]. split; [| split].
  - exists us. rewrite flush_drains. simpl snd.
    rewrite filter_map_swap.
    replace (filter _ (readReceiptBuffer s')) with [(messageId, us)].
    + split; [reflexivity |].
      apply NoDup_count_occ'; [| exact Hu].
      pose proof (one_entry_per_key messageId us _ Nk G) as F.
      rewrite Forall_forall in Ns. apply (Ns (messageId, us)).
      assert (X : In (messageId, us) [(messageId, us)]) by (left; reflexivity).
      rewrite <- F in X. apply filter_In in X. tauto.
    + symmetry. rewrite <- (one_entry_per_key messageId us _ Nk G).
      apply filter_ext. intros kv. reflexivity.
  - rewrite flush_drains. reflexivity.
  - intros s0 E. rewrite flush_drains, E. reflexivity.
Qed.

(** Bob marks message 1 three times among other calls. *)
Lemma mark_read_once_witness :
  count_reads 3 1
    (prisma (serve_reads [(bob, 1); (alice, 1); (bob, 1); (bob, 2); (bob, 1)]
               two_messages))
  = 1%nat.
Proof.
  refine (proj1 (mark_read_once two_messages bob 1
                   [(bob, 1); (alice, 1); (bob, 1); (bob, 2); (bob, 1)]
                   _ _ _ _)).
  - intros u m. unfold count_reads. simpl. lia.
  - split; constructor.
  - reflexivity.
  - left. reflexivity.
Defined.

(** * Further properties of the handlers *)

(** ** Pinning *)

(** X1 at a run on [two_messages]: two pins and a delete. *)
Lemma pin_delete_keep_exclusion_witness :
  at_most_one_pinned
    (prisma (serve [req_pin alice 1 true; req_pin bob 2 true; req_delete alice 2]
               two_messages)).
Proof.
  apply pin_delete_keep_exclusion.
  - repeat constructor.
  - unfold unique_ids. simpl.
    constructor; [intros [H | []]; discriminate |].
    constructor; [intros [] | constructor].
  - unfold at_most_one_pinned. simpl. lia.
Defined.

Lemma find_update_where_any (i : Z) (p : Message.t -> bool)
  (f : Message.t -> Message.t) :
  (forall x, Message.id (f x) = Message.id x) ->
  forall l,
    find (has_id i) (update_where p f l)
    = option_map (fun x => if p x then f x else x) (find (has_id i) l).
Proof.
  intros Hf. induction l as [| a l IH]; simpl; [reflexivity |].
  assert (E : has_id i (if p a then f a else a) = has_id i a).
  { unfold has_id. destruct (p a); [rewrite Hf |]; reflexivity. }
  rewrite E. destruct (has_id i a); [reflexivity | exact IH].
Qed.

Lemma update_where_nothing {A} (p : A -> bool) (f : A -> A) (l : list A) :
  (forall y, In y l -> p y = false) -> update_where p f l = l.
Proof.
  induction l as [| a l IH]; intros H; simpl; [reflexivity |].
  rewrite (H a) by (left; reflexivity).
  rewrite IH; [reflexivity |]. intros y Hy. apply H. right. exact Hy.
Qed.

Lemma pin_the_one (i : Z) :
  forall l x,
    NoDup (map Message.id l) ->
    filter Message.isPinned l = [] ->
    find (has_id i) l = Some x ->
    filter Message.isPinned
      (update_where (has_id i) (Message.set_isPinned true) l)
    = [Message.set_isPinned true x].
Proof.
  induction l as [| a l IH]; intros x N P F; simpl in *; [discriminate |].
  apply NoDup_cons_iff in N. destruct N as [Na N].
  destruct (Message.isPinned a) eqn:Pa; [discriminate |].
  destruct (has_id i a) eqn:H.
  - inversion F; subst. simpl.
    rewrite update_where_nothing; [rewrite P; reflexivity |].
    intros y Hy. unfold has_id in *.
    destruct (Message.id y =? i) eqn:Y; [| reflexivity].
    exfalso. apply Na. apply in_map_iff. exists y. split; [lia | exact Hy].
  - simpl. rewrite Pa. apply IH; assumption.
Qed.

(** X2: pinning an existing message leaves exactly that message pinned,
    whatever was pinned before, and broadcasts the change. *)
Theorem pin_message_pins_exactly :
  forall socket messageId s m,
    unique_ids (prisma s) ->
    message_findUnique messageId (prisma s) = Some m ->
    pinned (prisma (fst (exec (pin_message socket messageId true) s)))
    = [Message.set_isPinned true m]
    /\ snd (exec (pin_message socket messageId true) s)
       = [(room_general, message_pinned messageId true)].
Proof.
  intros socket messageId s m U F.
  assert (F1 : find (has_id messageId)
                 (update_where Message.isPinned (Message.set_isPinned false)
                    (message (prisma s)))
               = Some (if Message.isPinned m
                       then Message.set_isPinned false m else m)).
  { rewrite find_update_where_any by reflexivity.
    unfold message_findUnique in F. rewrite F. reflexivity. }
  split.
  - assert (N1 : NoDup (map Message.id
                          (update_where Message.isPinned
                             (Message.set_isPinned false) (message (prisma s)))))
      by (rewrite update_where_ids by reflexivity; exact U).
    unfold pinned. rewrite pin_message_table. cbv zeta. rewrite F1.
    rewrite (pin_the_one messageId _ _ N1 (unpin_all _) F1).
    destruct m; simpl. destruct isPinned; reflexivity.
  - unfold exec, pin_message, try_catch, bind, write_or_throw, message_update,
      message_findUnique, when, write, message_updateMany.
    cbn [prisma message with_message]. rewrite F1. reflexivity.
Qed.

(** Bob pins message 2 of [two_messages]. *)
Lemma pin_message_pins_exactly_witness :
  pinned (prisma (fst (exec (pin_message bob 2 true) two_messages)))
  = [Message.set_isPinned true (fresh_message 2 2 10 "second" None)].
Proof.
  refine (proj1 (pin_message_pins_exactly bob 2 two_messages
                   (fresh_message 2 2 10 "second" None) _ eq_refl)).
  unfold unique_ids. simpl.
  constructor; [intros [H | []]; discriminate |].
  constructor; [intros [] | constructor].
Defined.

(** ** Deleting and restoring *)

(** X3: a delete of a message that does not exist (the id being a 64-bit
    integer) leaves the server as it was and sends nothing; when the id is
    outside that range Prisma refuses the lookup and the sender alone is sent
    the text of the refusal; a delete by someone who is neither the author
    nor user 1 leaves the server as it was and broadcasts nothing, the sender
    alone is told Unauthorized. *)
Theorem delete_message_rejected :
  forall socket messageId s,
    (message_findUnique messageId (prisma s) = None ->
     is_int64 messageId = true ->
     exec (delete_message socket messageId) s = (s, []))
    /\ (message_findUnique messageId (prisma s) = None ->
        is_int64 messageId = false ->
        exec (delete_message socket messageId) s
        = (s, [(to_socket (socket_id socket), error PrismaValidation)]))
    /\ (forall msg,
          message_findUnique messageId (prisma s) = Some msg ->
          Message.userId msg <> currentUser socket ->
          currentUser socket <> 1 ->
          exec (delete_message socket messageId) s
          = (s, [(to_socket (socket_id socket), error "Unauthorized")])).
Proof.
  intros socket messageId s. split; [| split].
  - intros F R.
    destruct (absent_message_runs (fun c => c) 0 socket messageId
                EmptyString s F) as [D _].
    rewrite R in D. exact D.
  - intros F R.
    destruct (absent_message_runs (fun c => c) 0 socket messageId
                EmptyString s F) as [D _].
    rewrite R in D. exact D.
  - intros msg F Hu H1.
    unfold exec, delete_message, handleDeleteMessage, try_catch, bind,
      message_find.
    rewrite F.
    destruct (Message.userId msg =? currentUser socket) eqn:E1; [lia |].
    destruct (currentUser socket =? 1) eqn:E2; [lia |].
    reflexivity.
Qed.

(** Bob tries to delete alice's message 1, then message 7, which does not
    exist, then a message whose id is 2^63. *)
Lemma delete_message_rejected_witness :
  exec (delete_message bob 1) two_messages
  = (two_messages, [(to_socket "socket-b", error "Unauthorized")])
  /\ exec (delete_message bob 7) two_messages = (two_messages, [])
  /\ exec (delete_message bob 9223372036854775808) two_messages
     = (two_messages, [(to_socket "socket-b", error PrismaValidation)]).
Proof.
  split; [| split].
  - apply (proj2 (proj2 (delete_message_rejected bob 1 two_messages))
             (fresh_message 1 2 0 "first" None)).
    + reflexivity.
    + simpl. lia.
    + simpl. lia.
  - apply (proj1 (delete_message_rejected bob 7 two_messages));
      reflexivity.
  - apply (proj1 (proj2 (delete_message_rejected bob 9223372036854775808
                           two_messages)));
      reflexivity.
Defined.

(** X4: an accepted delete broadcasts the deletion by id, preceded by an
    unpin event exactly when the message was pinned, and sends nothing
    else. *)
Theorem delete_message_broadcasts :
  forall socket messageId s msg,
    message_findUnique messageId (prisma s) = Some msg ->
    Message.userId msg = currentUser socket \/ currentUser socket = 1 ->
    snd (exec (delete_message socket messageId) s)
    = (if Message.isPinned msg
       then [(room_general, message_pinned messageId false)] else [])
      ++ [(room_general, message_deleted messageId)].
Proof.
  intros socket messageId s msg F A.
  apply (delete_authorized socket messageId s msg F A).
Qed.

(** User 1 deletes alice's pinned message. *)
Lemma delete_message_broadcasts_witness :
  snd (exec (delete_message (mkSocket "socket-root" 1) 1) one_pinned)
  = [(room_general, message_pinned 1 false); (room_general, message_deleted 1)].
Proof.
  apply (delete_message_broadcasts (mkSocket "socket-root" 1) 1 one_pinned
           (Message.set_isPinned true (fresh_message 1 2 0 "first" None))).
  - reflexivity.
  - right. reflexivity.
Defined.

Lemma notify_each_bookmark (updatedMsg : option Message.t) :
  forall (bookmarks : list Bookmark.t) (s : Server),
    fold_right
      (fun bm rest =>
         emit (room_user (Bookmark.userId bm))
              (bookmark_updated updatedMsg bm) ;; rest)
      (ret tt) bookmarks s
    = (Ok tt, s,
       map (fun bm => (room_user (Bookmark.userId bm),
                       bookmark_updated updatedMsg bm)) bookmarks).
Proof.
  induction bookmarks as [| bm rest IH]; intros s; simpl; [reflexivity |].
  unfold bind at 1. unfold emit at 1. rewrite IH. reflexivity.
Qed.

Lemma restore_run (socket : Socket) (messageId : Z) (s : Server)
  (msg : Message.t) :
  message_findUnique messageId (prisma s) = Some msg ->
  Message.userId msg = currentUser socket ->
  let restored := Message.set_flags false (Message.wasPinned msg) false msg in
  exists d',
    message_findUnique messageId d' = Some restored
    /\ exec (restore_message socket messageId) s
       = (mkServer d' (readReceiptBuffer s),
          (room_general, message_restored (Some restored))
          :: (if Message.wasPinned msg
              then [(room_general, message_pinned messageId true)] else [])
          ++ map (fun bm => (room_user (Bookmark.userId bm),
                             bookmark_updated (Some restored) bm))
               (bookmark_findMany messageId (prisma s))).
Proof.
  intros F Hu restored.
  destruct (message_update_found messageId
              (Message.set_flags false (Message.wasPinned msg) false)
              (prisma s) msg (set_flags_id _ _ _) F)
    as [d' [U [F' [_ [_ [_ [_ B]]]]]]].
  exists d'. split; [exact F' |].
  unfold exec, restore_message, try_catch. unfold bind at 1. unfold query at 1.
  rewrite F. apply Z.eqb_eq in Hu. rewrite Hu. cbn [negb].
  unfold bind at 1. unfold write_or_throw. rewrite U.
  unfold bind at 1. unfold query at 1. cbn [prisma]. rewrite F'.
  unfold bind at 1. unfold emit at 1. unfold bind at 1.
  replace (Message.isPinned
             (Message.set_flags false (Message.wasPinned msg) false msg))
    with (Message.wasPinned msg) by reflexivity.
  set (s1 := {| prisma := d'; readReceiptBuffer := readReceiptBuffer s |}).
  assert (W : when (Message.wasPinned msg)
                (emit room_general (message_pinned messageId true)) s1
              = (Ok tt, s1,
                 if Message.wasPinned msg
                 then [(room_general, message_pinned messageId true)] else []))
    by (destruct (Message.wasPinned msg); reflexivity).
  rewrite W. unfold bind at 1. unfold query at 1.
  rewrite notify_each_bookmark. subst s1. cbn [prisma].
  unfold bookmark_findMany. rewrite B.
  destruct (Message.wasPinned msg); reflexivity.
Qed.

(** X5: a restore by anyone but the author, or of a message that does not
    exist, changes nothing and sends nothing, not even an error. *)
Theorem restore_message_silent :
  forall socket messageId s,
    message_findUnique messageId (prisma s) = None
    \/ (exists msg, message_findUnique messageId (prisma s) = Some msg
                    /\ Message.userId msg <> currentUser socket) ->
    exec (restore_message socket messageId) s = (s, []).
Proof.
  intros socket messageId s [F | [msg [F Hu]]];
    unfold exec, restore_message, try_catch, bind, query; rewrite F.
  - reflexivity.
  - destruct (Message.userId msg =? currentUser socket) eqn:E; [lia |].
    reflexivity.
Qed.

(** Bob tries to restore alice's message 1. *)
Lemma restore_message_silent_witness :
  exec (restore_message bob 1) two_messages = (two_messages, []).
Proof.
  apply restore_message_silent. right.
  exists (fresh_message 1 2 0 "first" None). split; [reflexivity |].
  simpl. lia.
Defined.

(** X6: a restore by the author broadcasts the restored message, then a pin
    event exactly when the message comes back pinned, then sends a bookmark
    update to the private room of each user who has bookmarked the message,
    in the order of the bookmarks, and nothing else. *)
Theorem restore_message_notifies :
  forall socket messageId s msg,
    message_findUnique messageId (prisma s) = Some msg ->
    Message.userId msg = currentUser socket ->
    let restored := Message.set_flags false (Message.wasPinned msg) false msg in
    snd (exec (restore_message socket messageId) s)
    = (room_general, message_restored (Some restored))
      :: (if Message.wasPinned msg
          then [(room_general, message_pinned messageId true)] else [])
      ++ map (fun bm => (room_user (Bookmark.userId bm),
                         bookmark_updated (Some restored) bm))
           (bookmark_findMany messageId (prisma s)).
Proof.
  intros socket messageId s msg F Hu restored.
  destruct (restore_run socket messageId s msg F Hu) as [d' [_ E]].
  rewrite E. reflexivity.
Qed.

(** X7: [restore_message] does not ask whether the message is deleted.
    Restoring a live pinned message, whose [wasPinned] is false, unpins it,
    and no pin event tells the clients. *)
Theorem restore_live_message_unpins :
  forall socket messageId s msg,
    message_findUnique messageId (prisma s) = Some msg ->
    Message.userId msg = currentUser socket ->
    Message.isPinned msg = true ->
    Message.wasPinned msg = false ->
    message_findUnique messageId
      (prisma (fst (exec (restore_message socket messageId) s)))
    = Some (Message.set_isPinned false (Message.set_flags false true false msg))
    /\ forall b,
         ~ In (room_general, message_pinned messageId b)
              (snd (exec (restore_message socket messageId) s)).
Proof.
  intros socket messageId s msg F Hu P W.
  destruct (restore_run socket messageId s msg F Hu) as [d' [F' E]].
  rewrite E, W in *. cbn [fst snd prisma]. split.
  - rewrite F'. reflexivity.
  - intros b [H | H]; [discriminate |].
    simpl in H. apply in_map_iff in H. destruct H as [bm [H _]]. discriminate.
Qed.

(** Alice restores message 1 of [deleted_with_bookmarks]. *)
Lemma restore_message_notifies_witness :
  snd (exec (restore_message alice 1) deleted_with_bookmarks)
  = [(room_general,
      message_restored (Some (Message.set_isPinned true
                                (fresh_message 1 2 0 "first" None))));
     (room_general, message_pinned 1 true);
     (room_user 3,
      bookmark_updated (Some (Message.set_isPinned true
                                (fresh_message 1 2 0 "first" None)))
        (Bookmark.mk 3 1));
     (room_user 4,
      bookmark_updated (Some (Message.set_isPinned true
                                (fresh_message 1 2 0 "first" None)))
        (Bookmark.mk 4 1))].
Proof.
  exact (restore_message_notifies alice 1 deleted_with_bookmarks
           (Message.set_flags true false true (fresh_message 1 2 0 "first" None))
           eq_refl eq_refl).
Defined.

(** Alice restores her pinned message 1, which was never deleted. *)
Lemma restore_live_message_unpins_witness :
  message_findUnique 1 (prisma (fst (exec (restore_message alice 1) one_pinned)))
  = Some (fresh_message 1 2 0 "first" None).
Proof.
  exact (proj1 (restore_live_message_unpins alice 1 one_pinned
                  (Message.set_isPinned true (fresh_message 1 2 0 "first" None))
                  eq_refl eq_refl eq_refl eq_refl)).
Defined.

(** ** The edit history *)




(** ** Sending *)

Lemma fk_not_found (i : Z) (d : Db) :
  message_findUnique i d = None -> fk_message i d = false.
Proof.
  unfold message_findUnique, fk_message. intros H.
  destruct (existsb (has_id i) (message d)) eqn:E; [| reflexivity].
  apply existsb_exists in E. destruct E as [m [Hin Hm]].
  rewrite (find_none _ _ H m Hin) in Hm. discriminate.
Qed.

Lemma users_exist (users mentioned : list Z) :
  forallb (fun u => existsb (Z.eqb u) users) mentioned = true
  <-> (forall u, In u mentioned -> In u users).
Proof.
  rewrite forallb_forall. split; intros H u Hu.
  - specialize (H u Hu). apply existsb_exists in H.
    destruct H as [x [Hx E]]. apply Z.eqb_eq in E. subst. exact Hx.
  - apply existsb_exists. exists u. split; [apply H, Hu | apply Z.eqb_refl].
Qed.

(** X9: a message sent in reply to an id that names no message and is not
    the id the new row would get, or that mentions the same user twice, or
    that mentions a user who does not exist, or whose [expiresAt] is no
    valid Date, is not stored and not broadcast; the sender alone is told
    that the send failed. *)
Theorem send_message_refused :
  forall sanitizeHtml now socket data s,
    (exists p, or_null (replyToId data) = Some p
               /\ message_findUnique p (prisma s) = None
               /\ p <> message_seq (prisma s))
    \/ distinct (mentionUserIds data) = false
    \/ (exists u, In u (mentionUserIds data) /\ ~ In u (user (prisma s)))
    \/ (exists t, or_null (data_expiresAt data) = Some t
                  /\ is_date t = false) ->
    exec (send_message sanitizeHtml now socket data) s
    = (s, [(to_socket (socket_id socket), error "Failed to send message")]).
Proof.
  intros sanitizeHtml now socket data s H.
  unfold exec, send_message, try_catch, bind, write_or_throw, message_create.
  destruct H as [[p [P [F N]]] | [D | [[u [Hu Nu]] | [t [T V]]]]].
  - apply Z.eqb_neq in N. rewrite P, (fk_not_found _ _ F), N. reflexivity.
  - rewrite D, andb_false_r. reflexivity.
  - assert (U : forallb (fun u => existsb (Z.eqb u) (user (prisma s)))
                  (mentionUserIds data) = false).
    { destruct (forallb _ _) eqn:X; [| reflexivity].
      exfalso. apply Nu. apply (proj1 (users_exist _ _) X). exact Hu. }
    rewrite U, andb_false_r. reflexivity.
  - rewrite T, V, andb_false_r. reflexivity.
Qed.

(** Bob replies to message 9, which is not in [two_messages] and is not the
    next id; then he mentions user 99, who does not exist. *)
Lemma send_message_refused_witness :
  exec (send_message (fun c => c) 20 bob (mkSendData "re" (Some 9) None []))
       two_messages
  = (two_messages, [(to_socket "socket-b", error "Failed to send message")])
  /\ exec (send_message (fun c => c) 20 bob (mkSendData "hi" None None [99]))
          two_messages
     = (two_messages, [(to_socket "socket-b", error "Failed to send message")]).
Proof.
  split.
  - apply send_message_refused. left. exists 9.
    split; [reflexivity | split; [reflexivity | discriminate]].
  - apply send_message_refused. right. right. left. exists 99.
    split; [left; reflexivity |].
    simpl. intros [H | [H | [H | [H | []]]]]; discriminate.
Defined.




(** ** The sweep of expired messages *)

Lemma count_filter_exists {A} (p : A -> bool) (l : list A) :
  (0 <? Z.of_nat (List.length (filter p l))) = existsb p l.
Proof.
  induction l as [| a l IH]; simpl; [reflexivity |].
  destruct (p a); simpl; [| exact IH].
  apply Z.ltb_lt. lia.
Qed.

Lemma sweep_run (now : Z) (s : Server) :
  exec (sweep now) s
  = (mkServer (snd (message_deleteMany (is_expired now) (prisma s)))
       (readReceiptBuffer s),
     if existsb (is_expired now) (message (prisma s))
     then [(room_general, messages_expired)] else []).
Proof.
  unfold exec, sweep, try_catch, bind, write_returning.
  change (fun m : Message.t =>
            match Message.expiresAt m with
            | Some t => t <? now
            | None => false
            end) with (is_expired now).
  unfold message_deleteMany at 1. cbv zeta.
  rewrite count_filter_exists.
  destruct (existsb (is_expired now) (message (prisma s))); reflexivity.
Qed.

(** X11: the sweep deletes exactly the messages whose [expiresAt] lies
    before [now]: the others stay, in their order, and none of those that
    stay is expired; it broadcasts [messages_expired] exactly when it deleted
    something. *)
Theorem sweep_deletes_expired :
  forall now s,
    map Message.id (message (prisma (fst (exec (sweep now) s))))
    = map Message.id
        (filter (fun m => negb (is_expired now m)) (message (prisma s)))
    /\ (forall m, In m (message (prisma (fst (exec (sweep now) s)))) ->
                  is_expired now m = false)
    /\ snd (exec (sweep now) s)
       = if existsb (is_expired now) (message (prisma s))
         then [(room_general, messages_expired)] else [].
Proof.
  intros now s. rewrite sweep_run. cbn [fst snd prisma message_deleteMany message].
  split; [| split; [| reflexivity]].
  - rewrite map_map. apply map_ext. intros m.
    destruct (match Message.parentId m with
              | Some p => _
              | None => false
              end); reflexivity.
  - intros m Hin. apply in_map_iff in Hin. destruct Hin as [x [E Hx]].
    apply filter_In in Hx. destruct Hx as [_ Hx].
    apply negb_true_iff in Hx.
    destruct (match Message.parentId x with
              | Some p => _
              | None => false
              end); subst m; exact Hx.
Qed.

Lemma deleteMany_keeps_parents (where_ : Message.t -> bool) (d : Db) :
  parents_resolve d -> parents_resolve (snd (message_deleteMany where_ d)).
Proof.
  intros R m p Hin Hp. unfold message_deleteMany in *. cbn [snd message] in *.
  apply in_map_iff in Hin. destruct Hin as [x [E Hx]].
  apply filter_In in Hx. destruct Hx as [Hx Wx].
  assert (G : Message.parentId x = Some p
              /\ existsb (has_id p) (filter where_ (message d)) = false).
  { destruct (Message.parentId x) as [q |] eqn:Q.
    - destruct (existsb (has_id q) (filter where_ (message d))) eqn:G;
        subst m; simpl in Hp; [discriminate |].
      rewrite Q in Hp. inversion Hp; subst. split; [reflexivity | exact G].
    - subst m. rewrite Q in Hp. discriminate. }
  destruct G as [Q G].
  specialize (R x p Hx Q). unfold fk_message in *. cbn [message].
  apply existsb_exists in R. destruct R as [y [Hy Iy]].
  assert (Wy : where_ y = false).
  { destruct (where_ y) eqn:W; [| reflexivity].
    assert (X : existsb (has_id p) (filter where_ (message d)) = true).
    { apply existsb_exists. exists y. split; [| exact Iy].
      apply filter_In. split; assumption. }
    congruence. }
  apply existsb_exists.
  exists (if match Message.parentId y with
             | Some q => existsb (has_id q) (filter where_ (message d))
             | None => false
             end
          then Message.set_parentId None y else y).
  split.
  - apply in_map_iff. exists y. split; [reflexivity |].
    apply filter_In. split; [exact Hy | rewrite Wy; reflexivity].
  - destruct (match Message.parentId y with
              | Some q => _
              | None => false
              end); exact Iy.
Qed.

(** X12: the sweep leaves no reply pointing at a deleted message: when every
    [parentId] named a message of the table before, every [parentId] names
    one after (a reply to an expired message stays, as a root). *)
Theorem sweep_keeps_parents :
  forall now s,
    parents_resolve (prisma s) ->
    parents_resolve (prisma (fst (exec (sweep now) s))).
Proof.
  intros now s R. rewrite sweep_run. cbn [fst prisma].
  apply deleteMany_keeps_parents. exact R.
Qed.

Lemma expiring_thread_resolves : parents_resolve (prisma expiring_thread).
Proof.
  intros m p Hin Hp. simpl in Hin.
  destruct Hin as [E | [E | []]]; subst m; simpl in Hp; inversion Hp.
  reflexivity.
Defined.

(** The sweep at time 100 of [expiring_thread]: message 2 stays, without its
    parent. *)
Lemma sweep_keeps_parents_witness :
  parents_resolve (prisma (fst (exec (sweep 100) expiring_thread)))
  /\ message (prisma (fst (exec (sweep 100) expiring_thread)))
     = [fresh_message 2 3 10 "still here" None].
Proof.
  split; [| reflexivity].
  exact (sweep_keeps_parents 100 expiring_thread expiring_thread_resolves).
Defined.

(** ** Read receipts, once more *)

(** X13: [mark_read] never sends anything itself, and for a message that
    does not exist (and no receipt on record) it leaves the table and the
    buffer as they were. *)
Theorem mark_read_is_quiet :
  forall socket messageId s,
    snd (exec (mark_read socket messageId) s) = []
    /\ (message_findUnique messageId (prisma s) = None ->
        count_reads (currentUser socket) messageId (prisma s) = 0%nat ->
        fst (exec (mark_read socket messageId) s) = s).
Proof.
  intros socket messageId s. split.
  - unfold exec, mark_read, try_catch, bind, write_or_throw, messageRead_upsert,
      inspect.
    destruct (existsb _ (messageRead (prisma s)));
      [| destruct (fk_message messageId (prisma s))];
      cbn [readReceiptBuffer prisma];
      try destruct (Map_has messageId (readReceiptBuffer s)); reflexivity.
  - intros F C.
    destruct (mark_read_cases socket messageId s)
      as [[_ [_ E]] | [_ [[X _] | [_ [K _]]]]].
    + exact E.
    + exfalso. unfold count_reads in C.
      apply existsb_exists in X. destruct X as [x [Hx Px]].
      assert (In x (filter (same_read (currentUser socket) messageId)
                      (messageRead (prisma s)))) by (apply filter_In; tauto).
      destruct (filter _ _); [contradiction | discriminate].
    + rewrite (fk_not_found _ _ F) in K. discriminate.
Qed.

(** Bob marks message 9, which is not in [two_messages]. *)
Lemma mark_read_is_quiet_witness :
  fst (exec (mark_read bob 9) two_messages) = two_messages.
Proof.
  exact (proj2 (mark_read_is_quiet bob 9 two_messages) eq_refl eq_refl).
Defined.

(** ** Reactions, once more *)

Lemma one_row_per_reaction_id (rs : list Reaction.t) :
  NoDup (map Reaction.id rs) ->
  forall r1 r2, In r1 rs -> In r2 rs -> Reaction.id r1 = Reaction.id r2 -> r1 = r2.
Proof.
  induction rs as [| r rs IH]; intros N r1 r2 H1 H2 E; [contradiction |].
  simpl in N. apply NoDup_cons_iff in N. destruct N as [Nr N].
  destruct H1 as [H1 | H1], H2 as [H2 | H2]; subst.
  - reflexivity.
  - exfalso. apply Nr. rewrite E. apply in_map. assumption.
  - exfalso. apply Nr. rewrite <- E. apply in_map. assumption.
  - apply IH; assumption.
Qed.

(** X14: a toggle of one (user, message, emoji) changes the presence of no
    other triple. *)
Theorem toggle_leaves_other_triples :
  forall socket messageId emoji s u m e,
    reactions_wf (prisma s) ->
    NoDup (map Reaction.id (reaction (prisma s))) ->
    (u, m, e) <> (currentUser socket, messageId, emoji) ->
    has_reaction u m e
      (prisma (fst (exec (toggle_reaction socket messageId emoji) s)))
    = has_reaction u m e (prisma s).
Proof.
  intros socket messageId emoji s u m e [N _] Ni Ne. unfold has_reaction.
  destruct (toggle_cases socket messageId emoji s)
    as [[r [F E]] | [[_ [_ E]] | [_ [_ E]]]]; rewrite E; clear E; simpl.
  - unfold reaction_findUnique in F. apply find_some in F.
    destruct F as [Hr Tr]. apply same_triple_spec in Tr.
    apply eq_true_iff_eq. rewrite !existsb_exists. split.
    + intros [x [Hx Px]]. apply filter_In in Hx. exists x. tauto.
    + intros [x [Hx Px]]. exists x. split; [| exact Px].
      apply filter_In. split; [exact Hx |].
      apply negb_true_iff. apply Z.eqb_neq. intros I.
      apply same_triple_spec in Px.
      assert (x = r)
        by (apply (one_row_per_reaction_id (reaction (prisma s))); assumption).
      subst x. congruence.
  - rewrite existsb_app. simpl.
    destruct (same_triple u m e _) eqn:T; [| rewrite !orb_false_r; reflexivity].
    apply same_triple_spec in T. unfold triple in T. simpl in T.
    exfalso. apply Ne. congruence.
  - reflexivity.
Qed.

(** Alice and bob have reacted to message 1. *)
Lemma toggle_leaves_other_triples_witness :
  has_reaction 3 1 "+1"
    (prisma (fst (exec (toggle_reaction alice 1 "+1")
                    (serve_toggles [(alice, 1, "+1"%string); (bob, 1, "+1"%string)]
                       two_messages))))
  = true.
Proof.
  refine (toggle_leaves_other_triples alice 1 "+1"
            (serve_toggles [(alice, 1, "+1"%string); (bob, 1, "+1"%string)]
               two_messages) 3 1 "+1" _ _ _).
  - apply serve_toggles_wf. exact two_messages_wf.
  - simpl. constructor; [intros [H | []]; discriminate |].
    constructor; [intros [] | constructor].
  - intros H. inversion H.
Defined.

(** How a toggle goes, with what it sends. *)
Lemma toggle_run (socket : Socket) (messageId : Z) (emoji : string)
  (s : Server) :
  let d := prisma s in
  let u := currentUser socket in
  (exists r,
      reaction_findUnique u messageId emoji d = Some r
      /\ snd (exec (toggle_reaction socket messageId emoji) s)
         = [(room_general, message_reaction_removed messageId emoji u)])
  \/ (reaction_findUnique u messageId emoji d = None
      /\ fk_message messageId d = true
      /\ snd (exec (toggle_reaction socket messageId emoji) s)
         = [(room_general,
             message_reaction_added messageId
               (Reaction.mk (reaction_seq d) emoji u messageId))])
  \/ (reaction_findUnique u messageId emoji d = None
      /\ fk_message messageId d = false
      /\ exec (toggle_reaction socket messageId emoji) s = (s, [])).
Proof.
  intros d u. subst d u.
  unfold exec, toggle_reaction, try_catch, bind, query, write_or_throw.
  destruct (reaction_findUnique (currentUser socket) messageId emoji (prisma s))
    as [r |] eqn:F.
  - left. exists r. split; [reflexivity |].
    unfold reaction_delete.
    assert (E : existsb (fun x => Reaction.id x =? Reaction.id r)
                  (reaction (prisma s)) = true).
    { apply existsb_exists. exists r. split; [| apply Z.eqb_refl].
      apply (find_some _ _ F). }
    rewrite E. reflexivity.
  - unfold reaction_create.
    assert (E : existsb (same_triple (currentUser socket) messageId emoji)
                  (reaction (prisma s)) = false).
    { destruct (existsb _ _) eqn:X; [| reflexivity].
      apply existsb_exists in X. destruct X as [x [Hx Tx]].
      unfold reaction_findUnique in F. rewrite (find_none _ _ F x Hx) in Tx.
      discriminate. }
    rewrite E.
    destruct (fk_message messageId (prisma s)) eqn:K.
    + right. left. repeat split.
    + right. right. repeat split.
Qed.

(** X15: a toggle broadcasts exactly when it writes: either it changes the
    [Reaction] table and sends one event to everyone, or it changes nothing
    and sends nothing. *)
Theorem toggle_broadcasts_its_writes :
  forall socket messageId emoji s,
    (exists e,
        snd (exec (toggle_reaction socket messageId emoji) s)
        = [(room_general, e)]
        /\ reaction (prisma (fst (exec (toggle_reaction socket messageId emoji) s)))
           <> reaction (prisma s))
    \/ exec (toggle_reaction socket messageId emoji) s = (s, []).
Proof.
  intros socket messageId emoji s.
  destruct (toggle_run socket messageId emoji s)
    as [[r [F O]] | [[F [K O]] | [_ [_ E]]]]; [left | left | right; exact E];
    destruct (toggle_cases socket messageId emoji s)
      as [[r' [F' E]] | [[F' [K' E]] | [F' [K' E]]]]; try congruence;
    eexists; (split; [exact O |]); rewrite E; simpl.
  - unfold reaction_findUnique in F'. apply find_some in F'.
    destruct F' as [Hr _]. intros H. rewrite <- H in Hr.
    apply filter_In in Hr. destruct Hr as [_ Hr].
    rewrite Z.eqb_refl in Hr. discriminate.
  - intros H. apply (f_equal (@List.length _)) in H.
    rewrite length_app in H. simpl in H. lia.
Qed.

(** ** Acknowledging a mention *)

(** X16: acknowledging a mention that does not exist changes nothing and
    sends nothing.  Acknowledging one that exists marks the rows with that
    id read at [now] and no other row, and sends exactly two events, both
    directed: the receipt to the room of the message's author and the
    updated mention to the room of the mentioned user. *)
Theorem mark_mention_read_effect :
  forall now socket mentionId s,
    (mention_findUnique mentionId (prisma s) = None ->
     exec (mark_mention_read now socket mentionId) s = (s, []))
    /\ (forall mn msg,
          mention_findUnique mentionId (prisma s) = Some mn ->
          message_findUnique (Mention.messageId mn) (prisma s) = Some msg ->
          let s' := fst (exec (mark_mention_read now socket mentionId) s) in
          mention_findUnique mentionId (prisma s')
          = Some (Mention.set_read true (Some now) mn)
          /\ (forall other, In other (mention (prisma s)) ->
                            Mention.id other <> mentionId ->
                            In other (mention (prisma s')))
          /\ snd (exec (mark_mention_read now socket mentionId) s)
             = [(room_user (Message.userId msg),
                 mention_read_status mentionId (Mention.messageId mn)
                   (Mention.userId mn) (Some now));
                (room_user (Mention.userId mn),
                 my_mention_updated (Mention.set_read true (Some now) mn))]).
Proof.
  intros now socket mentionId s. split.
  - intros F.
    unfold exec, mark_mention_read, try_catch, bind, write_or_throw,
      mention_update.
    rewrite F. reflexivity.
  - intros mn msg F G s'. subst s'.
    assert (I : Mention.id mn = mentionId).
    { unfold mention_findUnique in F. apply find_some in F. lia. }
    unfold exec, mark_mention_read, try_catch, bind, write_or_throw,
      mention_update, query.
    rewrite F. cbn [prisma Mention.messageId Mention.set_read].
    change (message_findUnique (Mention.messageId mn)
              (with_mention
                 (update_where (fun x => Mention.id x =? mentionId)
                    (Mention.set_read true (Some now)) (mention (prisma s)))
                 (prisma s)))
      with (message_findUnique (Mention.messageId mn) (prisma s)).
    rewrite G. cbn. rewrite I. split; [| split; [| reflexivity]].
    + unfold mention_findUnique in *. simpl.
      clear G. induction (mention (prisma s)) as [| x l IH]; simpl in *;
        [discriminate |].
      destruct (Mention.id x =? mentionId) eqn:X.
      * inversion F; subst. simpl. rewrite X. reflexivity.
      * rewrite X. apply IH. exact F.
    + intros other Hin Ho. unfold update_where. apply in_map_iff.
      exists other. split; [| exact Hin].
      destruct (Mention.id other =? mentionId) eqn:X; [lia | reflexivity].
Qed.

(** Bob acknowledges his mention in [one_mention]. *)
Lemma mark_mention_read_effect_witness :
  snd (exec (mark_mention_read 1000 bob 1) one_mention)
  = [(room_user 2, mention_read_status 1 1 3 (Some 1000));
     (room_user 3, my_mention_updated (Mention.mk 1 3 1 true (Some 1000)))].
Proof.
  exact (proj2 (proj2 (proj2 (mark_mention_read_effect 1000 bob 1 one_mention)
                         (Mention.mk 1 3 1 false None)
                         (fresh_message 1 2 0 "hi @bob" None)
                         eq_refl eq_refl))).
Defined.

(** * What holds in every state the server reaches *)

Section KeptViews.
Context {X A B : Type} (view : Db -> X).

Lemma kept_ret (a : A) : keeps_db view (ret a) /\ keeps_buf (ret a).
Proof. split; intros s; reflexivity. Qed.

Lemma kept_throw (msg : string) :
  keeps_db view (@throw A msg) /\ keeps_buf (@throw A msg).
Proof. split; intros s; reflexivity. Qed.

Lemma kept_query (q : Db -> A) : keeps_db view (query q) /\ keeps_buf (query q).
Proof. split; intros s; reflexivity. Qed.

Lemma kept_inspect (q : list (Z * list Z) -> A) :
  keeps_db view (inspect q) /\ keeps_buf (inspect q).
Proof. split; intros s; reflexivity. Qed.

Lemma kept_db_bind (m : M A) (f : A -> M B) :
  keeps_db view m -> (forall a, keeps_db view (f a)) -> keeps_db view (bind m f).
Proof.
  intros Hm Hf s. unfold bind. specialize (Hm s).
  destruct (m s) as [[[a | e] s1] o1]; simpl in Hm; [| exact Hm].
  specialize (Hf a s1). destruct (f a s1) as [[r s2] o2]. simpl in *.
  congruence.
Qed.

Lemma kept_db_try_catch (body : M A) (handler : string -> M A) :
  keeps_db view body -> (forall e, keeps_db view (handler e)) ->
  keeps_db view (try_catch body handler).
Proof.
  intros Hb Hh s. unfold try_catch. specialize (Hb s).
  destruct (body s) as [[[a | e] s1] o1]; simpl in Hb; [exact Hb |].
  specialize (Hh e s1). destruct (handler e s1) as [[r s2] o2]. simpl in *.
  congruence.
Qed.

Lemma kept_db_transaction (body : M A) :
  keeps_db view body -> keeps_db view (transaction body).
Proof.
  intros Hb s. unfold transaction. specialize (Hb s).
  destruct (body s) as [[[a | e] s1] o1]; simpl in *; [exact Hb | reflexivity].
Qed.

Lemma kept_db_write_or_throw (w : Db -> option (A * Db)) (msg : string) :
  (forall d a d', w d = Some (a, d') -> view d' = view d) ->
  keeps_db view (write_or_throw w msg).
Proof.
  intros Hw s. unfold write_or_throw.
  destruct (w (prisma s)) as [[a d'] |] eqn:E; simpl; [| reflexivity].
  eapply Hw. exact E.
Qed.

Lemma kept_buf_write_or_throw (w : Db -> option (A * Db)) (msg : string) :
  keeps_buf (write_or_throw w msg).
Proof.
  intros s. unfold write_or_throw.
  destruct (w (prisma s)) as [[a d'] |]; reflexivity.
Qed.
End KeptViews.

Lemma kept_message_find {X} (view : Db -> X) (i : Z) :
  keeps_db view (message_find i) /\ keeps_buf (message_find i).
Proof.
  split; intros s; unfold message_find;
    (destruct (message_findUnique i (prisma s)); [reflexivity |]);
    destruct (is_int64 i); reflexivity.
Qed.

Section KeptBuffer.
Context {A B : Type}.

Lemma kept_buf_bind (m : M A) (f : A -> M B) :
  keeps_buf m -> (forall a, keeps_buf (f a)) -> keeps_buf (bind m f).
Proof.
  intros Hm Hf s. unfold bind. specialize (Hm s).
  destruct (m s) as [[[a | e] s1] o1]; simpl in Hm; [| exact Hm].
  specialize (Hf a s1). destruct (f a s1) as [[r s2] o2]. simpl in *.
  congruence.
Qed.

Lemma kept_buf_try_catch (body : M A) (handler : string -> M A) :
  keeps_buf body -> (forall e, keeps_buf (handler e)) ->
  keeps_buf (try_catch body handler).
Proof.
  intros Hb Hh s. unfold try_catch. specialize (Hb s).
  destruct (body s) as [[[a | e] s1] o1]; simpl in Hb; [exact Hb |].
  specialize (Hh e s1). destruct (handler e s1) as [[r s2] o2]. simpl in *.
  congruence.
Qed.

Lemma kept_buf_transaction (body : M A) :
  keeps_buf body -> keeps_buf (transaction body).
Proof.
  intros Hb s. unfold transaction. specialize (Hb s).
  destruct (body s) as [[[a | e] s1] o1]; simpl in *; exact Hb.
Qed.
End KeptBuffer.

Lemma kept_emit {X} (view : Db -> X) (a : Audience) (e : Event) :
  keeps_db view (emit a e) /\ keeps_buf (emit a e).
Proof. split; intros s; reflexivity. Qed.

Lemma kept_db_write {X} (view : Db -> X) (w : Db -> Db) :
  (forall d, view (w d) = view d) -> keeps_db view (write w).
Proof. intros Hw s. apply Hw. Qed.

Lemma kept_buf_write (w : Db -> Db) : keeps_buf (write w).
Proof. intros s. reflexivity. Qed.

Lemma kept_buf_write_returning {A} (w : Db -> A * Db) :
  keeps_buf (write_returning w).
Proof.
  intros s. unfold write_returning. destruct (w (prisma s)). reflexivity.
Qed.

Lemma kept_db_buffer {X} (view : Db -> X)
  (f : list (Z * list Z) -> list (Z * list Z)) : keeps_db view (buffer f).
Proof. intros s. reflexivity. Qed.

Lemma kept_db_when {X} (view : Db -> X) (b : bool) (m : M unit) :
  keeps_db view m -> keeps_db view (when b m).
Proof. intros Hm. destruct b; [exact Hm | apply (kept_ret view tt)]. Qed.

Lemma kept_buf_when (b : bool) (m : M unit) : keeps_buf m -> keeps_buf (when b m).
Proof.
  intros Hm. destruct b; [exact Hm | apply (kept_ret (fun d => d) tt)].
Qed.

(** A refused or accepted write of one of the Prisma operations, taken
    apart. *)
Ltac prisma_op :=
  let H := fresh "H" in
  intros ? ? ? H;
  unfold message_update, messageHistory_create, mention_update,
    reaction_delete, reaction_create, messageRead_upsert, message_create in H;
  repeat match type of H with
         | context [match ?x with _ => _ end] => destruct x
         end;
  try discriminate; inversion H; reflexivity.

(** Takes a handler apart along its binds, catches and branches, for a view
    that the writes it meets leave alone by computation. *)
Ltac kept_db :=
  repeat first
    [ apply kept_db_bind; [| intros ?]
    | apply kept_db_try_catch; [| intros ?]
    | apply kept_db_transaction
    | apply kept_db_when
    | apply kept_db_write_or_throw; prisma_op
    | apply kept_db_write; intros ?; reflexivity
    | apply kept_db_buffer
    | apply kept_ret | apply kept_throw | apply kept_query
    | apply kept_inspect | apply kept_emit | apply kept_message_find
    | match goal with
      | |- keeps_db _ (match ?x with _ => _ end) => destruct x
      end ].

Ltac kept_buf :=
  repeat first
    [ apply kept_buf_bind; [| intros ?]
    | apply kept_buf_try_catch; [| intros ?]
    | apply kept_buf_transaction
    | apply kept_buf_when
    | apply kept_buf_write_or_throw
    | apply kept_buf_write
    | apply kept_buf_write_returning
    | apply (kept_ret (fun d : Db => d))
    | apply (kept_throw (fun d : Db => d))
    | apply (kept_query (fun d : Db => d))
    | apply (kept_inspect (fun d : Db => d))
    | apply (kept_emit (fun d : Db => d))
    | apply (kept_message_find (fun d : Db => d))
    | match goal with
      | |- keeps_buf (match ?x with _ => _ end) => destruct x
      end ].

Lemma kept_fold_bookmarks (updatedMsg : option Message.t)
  (bookmarks : list Bookmark.t) :
  keeps_db side_tables
    (fold_right
       (fun bm rest =>
          emit (room_user (Bookmark.userId bm))
               (bookmark_updated updatedMsg bm) ;; rest)
       (ret tt) bookmarks)
  /\ keeps_buf
       (fold_right
          (fun bm rest =>
             emit (room_user (Bookmark.userId bm))
                  (bookmark_updated updatedMsg bm) ;; rest)
          (ret tt) bookmarks).
Proof.
  induction bookmarks as [| bm rest [IH1 IH2]]; simpl.
  - apply kept_ret.
  - split; [kept_db | kept_buf]; assumption.
Qed.

Lemma delete_keeps_side (socket : Socket) (messageId : Z) :
  keeps_db side_tables (delete_message socket messageId)
  /\ keeps_buf (delete_message socket messageId).
Proof.
  unfold delete_message, handleDeleteMessage. split; [kept_db | kept_buf].
Qed.

Lemma restore_keeps_side (socket : Socket) (messageId : Z) :
  keeps_db side_tables (restore_message socket messageId)
  /\ keeps_buf (restore_message socket messageId).
Proof.
  unfold restore_message.
  split; [kept_db | kept_buf]; apply kept_fold_bookmarks.
Qed.

Lemma pin_keeps_side (socket : Socket) (messageId : Z) (isPinned : bool) :
  keeps_db side_tables (pin_message socket messageId isPinned)
  /\ keeps_buf (pin_message socket messageId isPinned).
Proof. unfold pin_message. split; [kept_db | kept_buf]. Qed.

Lemma edit_keeps_side (sanitizeHtml : string -> string) (now : Z)
  (socket : Socket) (messageId : Z) (newContent : string) :
  keeps_db side_tables
    (edit_message sanitizeHtml now socket messageId newContent)
  /\ keeps_buf (edit_message sanitizeHtml now socket messageId newContent).
Proof. unfold edit_message. split; [kept_db | kept_buf]. Qed.

Lemma mention_read_keeps_side (now : Z) (socket : Socket) (mentionId : Z) :
  keeps_db side_tables (mark_mention_read now socket mentionId)
  /\ keeps_buf (mark_mention_read now socket mentionId).
Proof. unfold mark_mention_read. split; [kept_db | kept_buf]. Qed.

Lemma send_keeps_side (sanitizeHtml : string -> string) (now : Z)
  (socket : Socket) (data : SendData) :
  keeps_db side_tables (send_message sanitizeHtml now socket data)
  /\ keeps_buf (send_message sanitizeHtml now socket data).
Proof. unfold send_message. split; [kept_db | kept_buf]. Qed.

Lemma toggle_keeps_reads (socket : Socket) (messageId : Z) (emoji : string) :
  keeps_db messageRead (toggle_reaction socket messageId emoji)
  /\ keeps_buf (toggle_reaction socket messageId emoji).
Proof. unfold toggle_reaction. split; [kept_db | kept_buf]. Qed.

Lemma mark_read_keeps_reactions (socket : Socket) (messageId : Z) :
  keeps_db (fun d => (reaction d, reaction_seq d)) (mark_read socket messageId).
Proof. unfold mark_read. kept_db. Qed.

Lemma sweep_keeps_buffer (now : Z) : keeps_buf (sweep now).
Proof. unfold sweep. kept_buf. Qed.

(** ** The schema, kept step by step *)

Lemma fk_by_ids (i : Z) (d : Db) :
  fk_message i d = existsb (fun j => j =? i) (map Message.id (message d)).
Proof.
  unfold fk_message, has_id.
  induction (message d) as [| m l IH]; simpl; [reflexivity |].
  rewrite IH. reflexivity.
Qed.

Lemma ids_by_links (d d' : Db) :
  links d' = links d -> map Message.id (message d') = map Message.id (message d).
Proof.
  intros E. apply (f_equal (fun x => map fst (fst x))) in E.
  unfold links in E. simpl in E. rewrite !map_map in E. exact E.
Qed.

Lemma fk_by_links (d d' : Db) (i : Z) :
  links d' = links d -> fk_message i d' = fk_message i d.
Proof. intros E. rewrite !fk_by_ids, (ids_by_links _ _ E). reflexivity. Qed.

Lemma parents_by_links (d d' : Db) :
  links d' = links d -> parents_resolve d -> parents_resolve d'.
Proof.
  intros E R m' p Hin Hp. rewrite (fk_by_links _ _ p E).
  assert (L : In (Message.id m', Some p) (fst (links d'))).
  { unfold links. simpl. rewrite <- Hp.
    apply (in_map (fun m => (Message.id m, Message.parentId m))). exact Hin. }
  rewrite E in L. unfold links in L. simpl in L.
  apply in_map_iff in L. destruct L as [m [Em Hm]].
  inversion Em. apply (R m p Hm). assumption.
Qed.

Lemma wf_by_view (d d' : Db) :
  links d' = links d -> side_tables d' = side_tables d ->
  reactions_wf d -> reactions_wf d'.
Proof.
  intros L S [N [I K]]. unfold side_tables in S. inversion S as [[R Q M]].
  unfold reactions_wf. rewrite R, Q. split; [exact N |]. split; [exact I |].
  intros r Hr. rewrite (fk_by_links _ _ _ L). apply K. exact Hr.
Qed.

Lemma schema_kept (s s' : Server) :
  links (prisma s') = links (prisma s) ->
  side_tables (prisma s') = side_tables (prisma s) ->
  readReceiptBuffer s' = readReceiptBuffer s ->
  schema_holds s -> schema_holds s'.
Proof.
  intros L S B [U [P [W [I [R F]]]]].
  assert (S' := S). unfold side_tables in S'. inversion S' as [[Er Eq Em]].
  unfold schema_holds. repeat split.
  - unfold unique_ids. rewrite (ids_by_links _ _ L). exact U.
  - exact (parents_by_links _ _ L P).
  - apply (wf_by_view _ _ L S W).
  - apply (wf_by_view _ _ L S W).
  - apply (wf_by_view _ _ L S W).
  - rewrite Er. exact I.
  - unfold reads_unique, count_reads. rewrite Em. exact R.
  - rewrite B. apply F.
  - rewrite B. apply F.
Qed.

Lemma send_keeps_schema (sanitizeHtml : string -> string) (now : Z)
  (socket : Socket) (data : SendData) (s : Server) :
  created_in_order (prisma s) -> schema_holds s ->
  schema_holds (fst (exec (send_message sanitizeHtml now socket data) s)).
Proof.
  intros [_ O] H.
  destruct (send_keeps_side sanitizeHtml now socket data) as [S B].
  specialize (S s). specialize (B s). rewrite <- exec_state in S, B.
  set (s' := fst (exec (send_message sanitizeHtml now socket data) s)) in *.
  assert (M : message (prisma s') = message (prisma s)
              \/ exists m, message (prisma s') = message (prisma s) ++ [m]
                           /\ Message.id m = message_seq (prisma s)
                           /\ (forall p, Message.parentId m = Some p ->
                                         fk_message p (prisma s) = true
                                         \/ p = Message.id m)).
  { subst s'. unfold exec, send_message, try_catch, bind, write_or_throw,
      message_create.
    destruct (match or_null (replyToId data) with
              | Some p =>
                  fk_message p (prisma s) || (p =? message_seq (prisma s))
              | None => true
              end) eqn:K; simpl; [| left; reflexivity].
    destruct (distinct (mentionUserIds data)); simpl; [| left; reflexivity].
    destruct (forallb _ (mentionUserIds data)); simpl; [| left; reflexivity].
    destruct (match or_null (data_expiresAt data) with
              | Some t => is_date t
              | None => true
              end); simpl; [| left; reflexivity].
    right. eexists. split; [reflexivity |]. split; [reflexivity |].
    simpl. intros p Ep. rewrite Ep in K.
    apply orb_true_iff in K. destruct K as [K | K]; [left; exact K |].
    right. apply Z.eqb_eq. exact K. }
  destruct H as [U [P [W [I [R F]]]]].
  assert (S' := S). unfold side_tables in S'. inversion S' as [[Er Eq Em]].
  assert (G : forall i, fk_message i (prisma s) = true ->
                        fk_message i (prisma s') = true).
  { intros i K. destruct M as [M | [m [M _]]]; unfold fk_message in *;
      rewrite M; [exact K |]. rewrite existsb_app, K. reflexivity. }
  unfold schema_holds. repeat split.
  - unfold unique_ids in *. destruct M as [M | [m [M [Im _]]]]; rewrite M;
      [exact U |].
    rewrite map_app. simpl. apply NoDup_snoc; [exact U |].
    intros Hin. apply in_map_iff in Hin. destruct Hin as [x [Ex Hx]].
    destruct (O (Message.id x) (Message.parentId x)) as [Hi _]; [| lia].
    unfold links. simpl.
    apply (in_map (fun m => (Message.id m, Message.parentId m))). exact Hx.
  - intros x p Hx Hp.
    destruct M as [M | [m [M [_ Pm]]]]; rewrite M in Hx.
    + apply G. apply (P x p Hx Hp).
    + apply in_app_or in Hx. destruct Hx as [Hx | [Hx | []]].
      * apply G. apply (P x p Hx Hp).
      * subst x. destruct (Pm p Hp) as [K | K]; [apply G; exact K |].
        subst p. unfold fk_message. rewrite M, existsb_app. simpl.
        unfold has_id. rewrite Z.eqb_refl. apply orb_true_r.
  - rewrite Er. apply W.
  - rewrite Er, Eq. apply W.
  - rewrite Er. intros r Hr. apply G. apply W. exact Hr.
  - rewrite Er. exact I.
  - unfold reads_unique, count_reads. rewrite Em. exact R.
  - rewrite B. apply F.
  - rewrite B. apply F.
Qed.

Lemma unique_reaction_ids_after_delete (keep : Reaction.t -> bool)
  (rs : list Reaction.t) :
  NoDup (map Reaction.id rs) -> NoDup (map Reaction.id (filter keep rs)).
Proof.
  intros N. induction rs as [| r rs IH]; simpl; [constructor |].
  simpl in N. apply NoDup_cons_iff in N. destruct N as [Nr N].
  destruct (keep r); simpl; [| auto].
  constructor; [| auto].
  intros H. apply Nr. apply in_map_iff in H. destruct H as [x [E Hx]].
  apply filter_In in Hx. apply in_map_iff. exists x. tauto.
Qed.

Lemma toggle_keeps_schema (socket : Socket) (messageId : Z) (emoji : string)
  (s : Server) :
  schema_holds s ->
  schema_holds (fst (exec (toggle_reaction socket messageId emoji) s)).
Proof.
  intros [U [P [W [I [R F]]]]].
  pose proof (keeps_toggle_reaction socket messageId emoji s) as L.
  destruct (toggle_keeps_reads socket messageId emoji) as [Rd B].
  specialize (Rd s). specialize (B s). rewrite <- exec_state in L, Rd, B.
  pose proof (toggle_wf socket messageId emoji s W) as W'.
  set (s' := fst (exec (toggle_reaction socket messageId emoji) s)) in *.
  unfold schema_holds. repeat split; try apply W'.
  - unfold unique_ids. rewrite (ids_by_links _ _ L). exact U.
  - exact (parents_by_links _ _ L P).
  - subst s'.
    destruct (toggle_cases socket messageId emoji s)
      as [[r [_ E]] | [[_ [_ E]] | [_ [_ E]]]]; rewrite E; simpl.
    + apply unique_reaction_ids_after_delete. exact I.
    + rewrite map_app. simpl. apply NoDup_snoc; [exact I |].
      intros Hin. apply in_map_iff in Hin. destruct Hin as [x [Ex Hx]].
      destruct W as [_ [Lt _]]. specialize (Lt x Hx). lia.
    + exact I.
  - unfold reads_unique, count_reads. rewrite Rd. exact R.
  - rewrite B. apply F.
  - rewrite B. apply F.
Qed.

Lemma mark_read_keeps_schema (socket : Socket) (messageId : Z) (s : Server) :
  schema_holds s -> schema_holds (fst (exec (mark_read socket messageId) s)).
Proof.
  intros [U [P [W [I [R F]]]]].
  pose proof (keeps_mark_read socket messageId s) as L.
  pose proof (mark_read_keeps_reactions socket messageId s) as Re.
  rewrite <- exec_state in L, Re. simpl in Re. inversion Re as [[Er Eq]].
  pose proof (mark_read_buffer_wf socket messageId s F) as F'.
  pose proof (mark_read_unique socket messageId s R) as R'.
  set (s' := fst (exec (mark_read socket messageId) s)) in *.
  destruct W as [N [Lt K]].
  unfold schema_holds, reactions_wf. rewrite Er, Eq. repeat split;
    try assumption; try apply F'.
  - unfold unique_ids. rewrite (ids_by_links _ _ L). exact U.
  - exact (parents_by_links _ _ L P).
  - intros r Hr. rewrite (fk_by_links _ _ _ L). apply K. exact Hr.
Qed.

Lemma flush_keeps_schema (s : Server) :
  schema_holds s -> schema_holds (fst (exec flush s)).
Proof.
  intros [U [P [W [I [R _]]]]]. rewrite flush_drains. simpl.
  unfold schema_holds. simpl. repeat split; try assumption; try apply W;
    constructor.
Qed.

Lemma survivor_fk (where_ : Message.t -> bool) (d : Db) (i : Z) :
  fk_message i d = true ->
  existsb (has_id i) (filter where_ (message d)) = false ->
  fk_message i (snd (message_deleteMany where_ d)) = true.
Proof.
  intros K G. unfold fk_message in *. unfold message_deleteMany.
  cbn [snd message].
  apply existsb_exists in K. destruct K as [y [Hy Iy]].
  assert (Wy : where_ y = false).
  { destruct (where_ y) eqn:W; [| reflexivity].
    assert (X : existsb (has_id i) (filter where_ (message d)) = true).
    { apply existsb_exists. exists y. split; [| exact Iy].
      apply filter_In. split; assumption. }
    congruence. }
  apply existsb_exists.
  exists (if match Message.parentId y with
             | Some q => existsb (has_id q) (filter where_ (message d))
             | None => false
             end
          then Message.set_parentId None y else y).
  split.
  - apply in_map_iff. exists y. split; [reflexivity |].
    apply filter_In. split; [exact Hy | rewrite Wy; reflexivity].
  - destruct (match Message.parentId y with
              | Some q => _
              | None => false
              end); exact Iy.
Qed.

Lemma unique_ids_after_delete (keep : Message.t -> bool)
  (g : Message.t -> Message.t) (l : list Message.t) :
  (forall x, Message.id (g x) = Message.id x) ->
  NoDup (map Message.id l) -> NoDup (map Message.id (map g (filter keep l))).
Proof.
  intros Hg N. rewrite map_map.
  rewrite (map_ext _ Message.id) by exact Hg.
  induction l as [| m l IH]; simpl; [constructor |].
  simpl in N. apply NoDup_cons_iff in N. destruct N as [Nm N].
  destruct (keep m); simpl; [| auto].
  constructor; [| auto].
  intros H. apply Nm. apply in_map_iff in H. destruct H as [x [E Hx]].
  apply filter_In in Hx. apply in_map_iff. exists x. tauto.
Qed.

Lemma fewer_after_filter {A} (p q : A -> bool) (l : list A) :
  (List.length (filter p (filter q l)) <= List.length (filter p l))%nat.
Proof.
  induction l as [| a l IH]; simpl; [lia |].
  destruct (q a); simpl; destruct (p a); simpl; lia.
Qed.

Lemma deleteMany_keeps_schema (where_ : Message.t -> bool) (s : Server) :
  schema_holds s ->
  schema_holds
    (mkServer (snd (message_deleteMany where_ (prisma s))) (readReceiptBuffer s)).
Proof.
  intros [U [P [[N [Lt K]] [I [R F]]]]].
  unfold schema_holds. cbn [prisma readReceiptBuffer].
  split; [| split; [| split; [| split; [| split]]]].
  - unfold unique_ids, message_deleteMany. cbn [snd message].
    apply unique_ids_after_delete; [| exact U].
    intros x. destruct (match Message.parentId x with
                        | Some p => _
                        | None => false
                        end); reflexivity.
  - apply deleteMany_keeps_parents. exact P.
  - split; [| split].
    + unfold message_deleteMany. cbn [snd reaction].
      apply unique_triples_after_delete. exact N.
    + unfold message_deleteMany. cbn [snd reaction reaction_seq].
      intros r Hr. apply filter_In in Hr. apply Lt. tauto.
    + intros r Hr.
      assert (Hr' : In r (reaction (prisma s))
                    /\ existsb (has_id (Reaction.messageId r))
                         (filter where_ (message (prisma s))) = false).
      { unfold message_deleteMany in Hr. cbn [snd reaction] in Hr.
        apply filter_In in Hr. destruct Hr as [Hr G].
        split; [exact Hr | apply negb_true_iff; exact G]. }
      destruct Hr' as [Hr' G]. apply survivor_fk; [apply K; exact Hr' | exact G].
  - unfold message_deleteMany. cbn [snd reaction].
    apply unique_reaction_ids_after_delete. exact I.
  - intros u m. unfold count_reads, message_deleteMany. cbn [snd messageRead].
    etransitivity; [apply fewer_after_filter | apply R].
  - exact F.
Qed.

Lemma sweep_keeps_schema (now : Z) (s : Server) :
  schema_holds s -> schema_holds (fst (exec (sweep now) s)).
Proof.
  intros H. rewrite sweep_run. cbn [fst].
  apply deleteMany_keeps_schema. exact H.
Qed.

Lemma built_schema (sanitizeHtml : string -> string) (s : Server) :
  built sanitizeHtml s -> schema_holds s.
Proof.
  intros Hb. induction Hb as [| h s Hs IH E].
  - split; [constructor |]. split; [intros m p [] |].
    split; [split; [constructor | split; intros r []] |].
    split; [constructor |].
    split; [intros u m; unfold count_reads; simpl; lia | split; constructor].
  - pose proof (built_in_order sanitizeHtml s Hs) as O.
    destruct E.
    + apply send_keeps_schema; assumption.
    + apply (schema_kept s); [| | | exact IH]; rewrite exec_state;
        [apply keeps_handleDeleteMessage | apply delete_keeps_side
        | apply delete_keeps_side].
    + apply (schema_kept s); [| | | exact IH]; rewrite exec_state;
        [apply keeps_restore_message | apply restore_keeps_side
        | apply restore_keeps_side].
    + apply (schema_kept s); [| | | exact IH]; rewrite exec_state;
        [apply keeps_edit_message | apply edit_keeps_side
        | apply edit_keeps_side].
    + apply (schema_kept s); [| | | exact IH]; rewrite exec_state;
        [apply keeps_pin_message | apply pin_keeps_side | apply pin_keeps_side].
    + apply toggle_keeps_schema. exact IH.
    + apply mark_read_keeps_schema. exact IH.
    + apply (schema_kept s); [| | | exact IH]; rewrite exec_state;
        [apply keeps_mark_mention_read | apply mention_read_keeps_side
        | apply mention_read_keeps_side].
    + apply flush_keeps_schema. exact IH.
    + apply sweep_keeps_schema. exact IH.
Qed.

(** X17: in every state the server reaches from the empty one, message ids
    are unique and every [parentId] names a message of the table. *)
Theorem built_message_table :
  forall sanitizeHtml s,
    built sanitizeHtml s ->
    unique_ids (prisma s) /\ parents_resolve (prisma s).
Proof.
  intros sanitizeHtml s H.
  destruct (built_schema sanitizeHtml s H) as [U [P _]]. split; assumption.
Qed.

Lemma built_message_table_witness :
  unique_ids (prisma small_talk) /\ parents_resolve (prisma small_talk).
Proof.
  exact (built_message_table (fun c => c) small_talk (proj1 small_talk_built)).
Defined.





(** * The context endpoint *)

Section OrderBy.
Variable rank : Message.t -> Z.

Lemma insert_ranked_in (m x : Message.t) (l : list Message.t) :
  In x (insert_ranked rank m l) <-> x = m \/ In x l.
Proof.
  induction l as [| a l IH]; simpl.
  - intuition congruence.
  - destruct (rank m <=? rank a); simpl; [intuition congruence |].
    rewrite IH. intuition congruence.
Qed.

Lemma order_by_in (x : Message.t) (l : list Message.t) :
  In x (order_by rank l) <-> In x l.
Proof.
  induction l as [| a l IH]; simpl; [tauto |].
  rewrite insert_ranked_in, IH. intuition congruence.
Qed.

Lemma insert_ranked_ascends (m : Message.t) (l : list Message.t) :
  ranks_ascend rank l -> ranks_ascend rank (insert_ranked rank m l).
Proof.
  unfold ranks_ascend. induction l as [| a l IH]; intros S; simpl.
  - constructor; constructor.
  - apply StronglySorted_inv in S. destruct S as [S Fa].
    destruct (rank m <=? rank a) eqn:E.
    + apply Z.leb_le in E. constructor; [constructor; assumption |].
      constructor; [exact E |].
      rewrite Forall_forall in *. intros x Hx. specialize (Fa x Hx). lia.
    + apply Z.leb_gt in E. constructor; [apply IH; exact S |].
      rewrite Forall_forall in *. intros x Hx.
      apply insert_ranked_in in Hx. destruct Hx as [Hx | Hx].
      * subst x. lia.
      * apply Fa. exact Hx.
Qed.

Lemma order_by_ascends (l : list Message.t) : ranks_ascend rank (order_by rank l).
Proof.
  induction l as [| a l IH]; simpl; [constructor |].
  apply insert_ranked_ascends. exact IH.
Qed.

Lemma taken_in (n : nat) (x : Message.t) :
  forall l, In x (firstn n l) -> In x l.
Proof.
  induction n as [| n IH]; intros l H; simpl in H; [contradiction |].
  destruct l as [| a l]; simpl in *; [contradiction |].
  destruct H as [H | H]; [left; exact H | right; apply IH; exact H].
Qed.

Lemma taken_ascends (n : nat) :
  forall l, ranks_ascend rank l -> ranks_ascend rank (firstn n l).
Proof.
  unfold ranks_ascend. induction n as [| n IH]; intros l S; simpl;
    [constructor |].
  destruct l as [| a l]; [constructor |].
  apply StronglySorted_inv in S. destruct S as [S Fa].
  constructor; [apply IH; exact S |].
  rewrite Forall_forall in *. intros x Hx. apply Fa.
  apply (taken_in n). exact Hx.
Qed.

Lemma joined_ascends (l1 l2 : list Message.t) :
  ranks_ascend rank l1 -> ranks_ascend rank l2 ->
  (forall a b, In a l1 -> In b l2 -> rank a <= rank b) ->
  ranks_ascend rank (l1 ++ l2).
Proof.
  unfold ranks_ascend. induction l1 as [| a l1 IH]; intros S1 S2 H; simpl;
    [exact S2 |].
  apply StronglySorted_inv in S1. destruct S1 as [S1 Fa].
  constructor.
  - apply IH; [exact S1 | exact S2 |]. intros x y Hx Hy. apply H; [right |];
      assumption.
  - rewrite Forall_forall in *. intros x Hx. apply in_app_or in Hx.
    destruct Hx as [Hx | Hx]; [apply Fa; exact Hx |].
    apply H; [left; reflexivity | exact Hx].
Qed.

(** In an ascending list, what comes after the first [n] does not rank below
    any of them. *)
Lemma taken_first (n : nat) :
  forall l y z,
    ranks_ascend rank l -> In y (firstn n l) -> In z l -> rank z < rank y ->
    In z (firstn n l).
Proof.
  unfold ranks_ascend. induction n as [| n IH]; intros l y z S Hy Hz Lt;
    simpl in *; [contradiction |].
  destruct l as [| a l]; simpl in *; [contradiction |].
  apply StronglySorted_inv in S. destruct S as [S Fa].
  rewrite Forall_forall in Fa.
  destruct Hz as [Hz | Hz]; [left; exact Hz |].
  destruct Hy as [Hy | Hy].
  - subst y. specialize (Fa z Hz). lia.
  - right. apply (IH l y z); assumption.
Qed.
End OrderBy.

Lemma reversed_ascends (l : list Message.t) :
  ranks_ascend (fun m => - Message.id m) l -> ranks_ascend Message.id (rev l).
Proof.
  unfold ranks_ascend. induction l as [| a l IH]; intros S; simpl;
    [constructor |].
  apply StronglySorted_inv in S. destruct S as [S Fa].
  apply joined_ascends; [apply IH; exact S | constructor; constructor |].
  intros x y Hx [Hy | []]. subst y. apply in_rev in Hx.
  rewrite Forall_forall in Fa. specialize (Fa x Hx). simpl in Fa. lia.
Qed.

Section Context.
Variables (d : Db) (messageId : Z).

Let before := filter (fun m => (Message.id m <? messageId)
                               && negb (Message.isDeleted m)) (message d).
Let after := filter (fun m => (messageId <=? Message.id m)
                              && negb (Message.isDeleted m)) (message d).
Let prevMessages := firstn 10 (order_by (fun m => - Message.id m) before).
Let nextMessages := firstn 10 (order_by Message.id after).

Lemma context_found (targetMsg : Message.t) :
  message_findUnique messageId d = Some targetMsg ->
  context d messageId = context_json (rev prevMessages ++ nextMessages).
Proof. intros F. unfold context. rewrite F. reflexivity. Qed.

Lemma in_prev (m : Message.t) :
  In m prevMessages ->
  In m (message d) /\ Message.isDeleted m = false /\ Message.id m < messageId.
Proof.
  intros H. apply taken_in in H. apply order_by_in in H.
  apply filter_In in H. destruct H as [H C].
  apply andb_true_iff in C. destruct C as [C1 C2].
  apply Z.ltb_lt in C1. apply negb_true_iff in C2. tauto.
Qed.

Lemma in_next (m : Message.t) :
  In m nextMessages ->
  In m (message d) /\ Message.isDeleted m = false /\ messageId <= Message.id m.
Proof.
  intros H. apply taken_in in H. apply order_by_in in H.
  apply filter_In in H. destruct H as [H C].
  apply andb_true_iff in C. destruct C as [C1 C2].
  apply Z.leb_le in C1. apply negb_true_iff in C2. tauto.
Qed.

Lemma in_combined (m : Message.t) :
  In m (rev prevMessages ++ nextMessages) ->
  (In m prevMessages /\ Message.id m < messageId)
  \/ (In m nextMessages /\ messageId <= Message.id m).
Proof.
  intros H. apply in_app_or in H. destruct H as [H | H].
  - apply in_rev in H. left. split; [exact H | apply in_prev; exact H].
  - right. split; [exact H | apply in_next; exact H].
Qed.

Lemma combined_window :
  (forall m, In m (rev prevMessages ++ nextMessages) ->
             In m (message d) /\ Message.isDeleted m = false)
  /\ (List.length (rev prevMessages ++ nextMessages) <= 20)%nat
  /\ ranks_ascend Message.id (rev prevMessages ++ nextMessages).
Proof.
  split; [| split].
  - intros m H. destruct (in_combined m H) as [[H' _] | [H' _]].
    + apply in_prev in H'. tauto.
    + apply in_next in H'. tauto.
  - rewrite length_app, length_rev.
    pose proof (firstn_le_length 10 (order_by (fun m => - Message.id m) before)).
    pose proof (firstn_le_length 10 (order_by Message.id after)).
    unfold prevMessages, nextMessages. lia.
  - apply joined_ascends.
    + apply reversed_ascends. apply taken_ascends. apply order_by_ascends.
    + apply taken_ascends. apply order_by_ascends.
    + intros a b Ha Hb. apply in_rev in Ha.
      apply in_prev in Ha. apply in_next in Hb. lia.
Qed.

Lemma combined_no_gaps (x y z : Message.t) :
  In x (rev prevMessages ++ nextMessages) ->
  In y (rev prevMessages ++ nextMessages) ->
  In z (message d) -> Message.isDeleted z = false ->
  Message.id x < Message.id z < Message.id y ->
  In z (rev prevMessages ++ nextMessages).
Proof.
  intros Hx Hy Hz Dz [Lx Ly]. apply in_or_app.
  destruct (Z_lt_ge_dec (Message.id z) messageId) as [Lt | Ge].
  - left. rewrite <- in_rev.
    destruct (in_combined x Hx) as [[Hx' _] | [_ Gx]]; [| lia].
    apply (taken_first (fun m => - Message.id m) 10 _ x z).
    + apply order_by_ascends.
    + exact Hx'.
    + apply order_by_in. apply filter_In. split; [exact Hz |].
      apply andb_true_iff. split; [apply Z.ltb_lt; exact Lt |].
      rewrite Dz. reflexivity.
    + lia.
  - right.
    destruct (in_combined y Hy) as [[_ Ly'] | [Hy' _]]; [lia |].
    apply (taken_first Message.id 10 _ y z).
    + apply order_by_ascends.
    + exact Hy'.
    + apply order_by_in. apply filter_In. split; [exact Hz |].
      apply andb_true_iff. split; [apply Z.leb_le; lia |].
      rewrite Dz. reflexivity.
    + exact Ly.
Qed.

Lemma one_message_per_id (a b : Message.t) :
  unique_ids d -> In a (message d) -> In b (message d) ->
  Message.id a = Message.id b -> a = b.
Proof.
  unfold unique_ids. induction (message d) as [| m l IH]; intros N Ha Hb E;
    [contradiction |].
  simpl in N. apply NoDup_cons_iff in N. destruct N as [Nm N].
  destruct Ha as [Ha | Ha], Hb as [Hb | Hb]; subst.
  - reflexivity.
  - exfalso. apply Nm. rewrite E. apply in_map. assumption.
  - exfalso. apply Nm. rewrite <- E. apply in_map. assumption.
  - apply IH; assumption.
Qed.

Lemma live_target_first (targetMsg : Message.t) :
  unique_ids d ->
  message_findUnique messageId d = Some targetMsg ->
  Message.isDeleted targetMsg = false ->
  In targetMsg nextMessages.
Proof.
  intros U F D. apply find_has_id in F. destruct F as [Hin Hid].
  assert (T : In targetMsg (order_by Message.id after)).
  { apply order_by_in. apply filter_In. split; [exact Hin |].
    apply andb_true_iff. split; [apply Z.leb_le; lia |].
    rewrite D. reflexivity. }
  pose proof (order_by_ascends Message.id after) as S.
  unfold nextMessages.
  destruct (order_by Message.id after) as [| h l] eqn:E; [contradiction |].
  simpl. left.
  assert (Hh : In h (order_by Message.id after)) by (rewrite E; left; reflexivity).
  apply order_by_in in Hh. apply filter_In in Hh. destruct Hh as [Hh C].
  apply andb_true_iff in C. destruct C as [C _]. apply Z.leb_le in C.
  apply one_message_per_id; [exact U | exact Hh | exact Hin |].
  destruct T as [T | T]; [subst; reflexivity |].
  apply StronglySorted_inv in S. destruct S as [_ Fh].
  rewrite Forall_forall in Fh. specialize (Fh targetMsg T). lia.
Qed.
End Context.

(** X20: the context route answers 500 when the id is not a number, or is
    no 64-bit integer (and so names no message); it answers 404 exactly when
    the id is a 64-bit integer that names no message; otherwise it answers a
    list of at most 20 messages of the table, none of them deleted, in
    ascending order of id. *)
Theorem context_window :
  forall d parsed,
    match context_route d parsed with
    | context_500 =>
        forall i, parsed = Some i ->
                  message_findUnique i d = None /\ is_int64 i = false
    | context_404 =>
        exists i, parsed = Some i
                  /\ message_findUnique i d = None /\ is_int64 i = true
    | context_json combined =>
        exists i, parsed = Some i
                  /\ message_findUnique i d <> None
                  /\ (forall m, In m combined ->
                                In m (message d) /\ Message.isDeleted m = false)
                  /\ (List.length combined <= 20)%nat
                  /\ ranks_ascend Message.id combined
    end.
Proof.
  intros d [messageId |]; [| intros i E; discriminate]. cbn [context_route].
  destruct (message_findUnique messageId d) as [t |] eqn:F.
  - rewrite (context_found d messageId t F). exists messageId.
    split; [reflexivity |]. rewrite F.
    split; [discriminate | apply combined_window].
  - unfold context. rewrite F. destruct (is_int64 messageId) eqn:R.
    + exists messageId. auto.
    + intros i E. inversion E; subst. auto.
Qed.

(** X21: with unique ids, a message that is not deleted is in its own
    context; a deleted one still gets a context (not a 404), which does not
    hold it. *)
Theorem context_holds_live_target :
  forall d messageId targetMsg,
    unique_ids d ->
    message_findUnique messageId d = Some targetMsg ->
    exists combined,
      context d messageId = context_json combined
      /\ (Message.isDeleted targetMsg = false -> In targetMsg combined)
      /\ (Message.isDeleted targetMsg = true ->
          forall m, In m combined -> Message.id m <> messageId).
Proof.
  intros d messageId t U F. eexists. split; [apply (context_found _ _ t F) |].
  split.
  - intros D. apply in_or_app. right. apply (live_target_first d messageId t U F D).
  - intros D m Hm E.
    destruct (combined_window d messageId) as [W _].
    destruct (W m Hm) as [Hin Dm].
    apply find_has_id in F. destruct F as [Ht It].
    assert (m = t) by (apply (one_message_per_id d); congruence).
    congruence.
Qed.

(** X22: a context has no gaps: a live message whose id lies between the ids
    of two messages of the context is in the context. *)
Theorem context_has_no_gaps :
  forall d messageId combined x y z,
    context d messageId = context_json combined ->
    In x combined -> In y combined ->
    In z (message d) -> Message.isDeleted z = false ->
    Message.id x < Message.id z < Message.id y ->
    In z combined.
Proof.
  intros d messageId combined x y z C Hx Hy Hz Dz L.
  destruct (message_findUnique messageId d) as [t |] eqn:F.
  - rewrite (context_found d messageId t F) in C. inversion C; subst.
    apply (combined_no_gaps d messageId x y z); assumption.
  - unfold context in C. rewrite F in C.
    destruct (is_int64 messageId); discriminate.
Qed.

Lemma context_holds_live_target_witness :
  exists combined,
    context ten_messages 5 = context_json combined
    /\ (false = false ->
        In (Message.mk 5 (Some "m"%string) 5 false None false false 2 None)
           combined)
    /\ (false = true -> forall m, In m combined -> Message.id m <> 5).
Proof.
  apply (context_holds_live_target ten_messages 5
           (Message.mk 5 (Some "m"%string) 5 false None false false 2 None)).
  - unfold unique_ids. vm_compute.
    repeat (constructor; [simpl; intuition discriminate |]). constructor.
  - reflexivity.
Defined.

Lemma context_has_no_gaps_witness :
  In (Message.mk 5 (Some "m"%string) 5 false None false false 2 None)
     [Message.mk 1 (Some "m"%string) 1 false None false false 2 None;
      Message.mk 2 (Some "m"%string) 2 false None false false 2 None;
      Message.mk 3 (Some "m"%string) 3 false None false false 2 None;
      Message.mk 5 (Some "m"%string) 5 false None false false 2 None;
      Message.mk 6 (Some "m"%string) 6 false None false false 2 None;
      Message.mk 7 (Some "m"%string) 7 false None false false 2 None;
      Message.mk 8 (Some "m"%string) 8 false None false false 2 None;
      Message.mk 9 (Some "m"%string) 9 false None false false 2 None;
      Message.mk 10 (Some "m"%string) 10 false None false false 2 None].
Proof.
  apply (context_has_no_gaps ten_messages 4 _
           (Message.mk 3 (Some "m"%string) 3 false None false false 2 None)
           (Message.mk 7 (Some "m"%string) 7 false None false false 2 None)).
  - reflexivity.
  - simpl; tauto.
  - simpl; tauto.
  - simpl; tauto.
  - reflexivity.
  - simpl; lia.
Defined.

(** * The HTTP middleware *)

Lemma str_split_word (sep : ascii) (b : string) :
  forall a,
    has_char sep a = false ->
    str_split sep (String.append a (String sep b)) = a :: str_split sep b.
Proof.
  induction a as [| x a IH]; intros H; simpl.
  - rewrite Ascii.eqb_refl. reflexivity.
  - simpl in H. apply orb_false_iff in H. destruct H as [Hx Ha].
    rewrite Hx, (IH Ha). reflexivity.
Qed.

Lemma str_split_whole (sep : ascii) :
  forall a, has_char sep a = false -> str_split sep a = [a].
Proof.
  induction a as [| x a IH]; intros H; simpl; [reflexivity |].
  simpl in H. apply orb_false_iff in H. destruct H as [Hx Ha].
  rewrite Hx, (IH Ha). reflexivity.
Qed.

Lemma header_token_second (scheme token : string) (rest : option string) :
  has_char " " scheme = false -> has_char " " token = false ->
  header_token
    (Some (String.append scheme
             (String " "
                (match rest with
                 | None => token
                 | Some r => String.append token (String " " r)
                 end))))
  = Some token.
Proof.
  intros Hs Ht. unfold header_token.
  rewrite str_split_word by exact Hs.
  assert (E : nth_error
                (scheme :: str_split " "
                   (match rest with
                    | None => token
                    | Some r => String.append token (String " " r)
                    end)) 1 = Some token).
  { destruct rest as [r |].
    - rewrite str_split_word by exact Ht. reflexivity.
    - rewrite str_split_whole by exact Ht. reflexivity. }
  destruct scheme; simpl; exact E.
Qed.

(** X23: the middleware reads the second word of the header, whatever the
    first word is (also an empty one) and whatever follows a second space: an
    empty second word is answered 401, another one is given to [verifyToken],
    whose refusal is answered 403 and whose claims become [req.user]. *)
Theorem authenticateToken_second_word :
  forall (User : Type) (verifyToken : string -> option User)
         (scheme token : string) (rest : option string),
    has_char " " scheme = false -> has_char " " token = false ->
    authenticateToken User verifyToken
      (Some (String.append scheme
               (String " "
                  (match rest with
                   | None => token
                   | Some r => String.append token (String " " r)
                   end))))
    = match token with
      | EmptyString => sendStatus 401
      | _ => match verifyToken token with
             | Some user => next user
             | None => sendStatus 403
             end
      end.
Proof.
  intros User verifyToken scheme token rest Hs Ht. unfold authenticateToken.
  rewrite (header_token_second scheme token rest Hs Ht). reflexivity.
Qed.

Lemma authenticateToken_second_word_witness :
  authenticateToken Z (fun t => if String.eqb t "abc" then Some 2 else None)
    (Some "Basic abc def"%string)
  = next 2.
Proof.
  exact (authenticateToken_second_word Z
           (fun t => if String.eqb t "abc" then Some 2 else None)
           "Basic"%string "abc"%string (Some "def"%string)
           eq_refl eq_refl).
Defined.

(** X24: a request without the header, or with a header of one word, is
    answered 401 whatever [verifyToken] would say; and a request goes on to
    the route only with claims that [verifyToken] gave for a token that is
    not empty. *)
Theorem authenticateToken_rejects :
  forall (User : Type) (verifyToken : string -> option User),
    authenticateToken User verifyToken None = sendStatus 401
    /\ (forall h, has_char " " h = false ->
                  authenticateToken User verifyToken (Some h) = sendStatus 401)
    /\ (forall authorization user,
           authenticateToken User verifyToken authorization = next user ->
           exists token, token <> EmptyString
                         /\ verifyToken token = Some user).
Proof.
  intros User verifyToken. split; [reflexivity | split].
  - intros h H. unfold authenticateToken, header_token.
    destruct h as [| c h]; [reflexivity |].
    rewrite (str_split_whole " " _ H). reflexivity.
  - intros authorization user. unfold authenticateToken.
    destruct (header_token authorization) as [[| c t] |]; try discriminate.
    destruct (verifyToken (String c t)) as [u |] eqn:V; try discriminate.
    intros E. inversion E; subst. exists (String c t).
    split; [discriminate | exact V].
Qed.

(** * Escaping on the client *)

Lemma replace_all_append (c : ascii) (by_ : string) (b : string) :
  forall a,
    replace_all c by_ (String.append a b)
    = String.append (replace_all c by_ a) (replace_all c by_ b).
Proof.
  induction a as [| x a IH]; simpl; [reflexivity |].
  rewrite IH. destruct (Ascii.eqb x c); simpl; [| reflexivity].
  generalize (replace_all c by_ a), (replace_all c by_ b). clear.
  induction by_ as [| y by_ IH]; intros u v; simpl; [reflexivity |].
  rewrite IH. reflexivity.
Qed.

Lemma escapeHtml_append (a b : string) :
  escapeHtml (String.append a b)
  = String.append (escapeHtml a) (escapeHtml b).
Proof.
  unfold escapeHtml. repeat rewrite replace_all_append. reflexivity.
Qed.

Lemma escapeHtml_char (x : ascii) :
  escapeHtml (String x EmptyString) = entity x.
Proof.
  destruct x as [[] [] [] [] [] [] [] []]; reflexivity.
Qed.

Lemma escapeHtml_each (s : string) : escapeHtml s = each_char entity s.
Proof.
  induction s as [| x s IH]; [reflexivity |].
  change (String x s) with (String.append (String x EmptyString) s).
  rewrite escapeHtml_append, escapeHtml_char, IH. reflexivity.
Qed.

Lemma has_char_append (c : ascii) (b : string) :
  forall a,
    has_char c (String.append a b) = has_char c a || has_char c b.
Proof.
  induction a as [| x a IH]; simpl; [reflexivity |].
  rewrite IH. apply orb_assoc.
Qed.

Lemma entity_plain (x : ascii) :
  is_markup x = false -> entity x = String x EmptyString.
Proof.
  destruct x as [[] [] [] [] [] [] [] []]; try discriminate; reflexivity.
Qed.

Lemma entity_longer (x : ascii) :
  is_markup x = true ->
  (4 <= String.length (entity x))%nat /\ has_char "&" (entity x) = true.
Proof.
  destruct x as [[] [] [] [] [] [] [] []]; try discriminate;
    intros _; simpl; split; (lia || reflexivity).
Qed.

Lemma length_appended (b : string) :
  forall a, String.length (String.append a b)
            = (String.length a + String.length b)%nat.
Proof.
  induction a as [| x a IH]; simpl; [reflexivity |]. rewrite IH. reflexivity.
Qed.

Lemma each_char_length (s : string) :
  (String.length s <= String.length (each_char entity s))%nat
  /\ (has_markup s = true ->
      (String.length s < String.length (each_char entity s))%nat
      /\ has_markup (each_char entity s) = true).
Proof.
  induction s as [| x s [IH1 IH2]]; simpl; [split; [lia | discriminate] |].
  rewrite length_appended.
  assert (A : forall a b, has_markup (String.append a b)
                          = has_markup a || has_markup b).
  { clear. induction a as [| y a IH]; intros b; simpl; [reflexivity |].
    rewrite IH. apply orb_assoc. }
  rewrite A.
  destruct (is_markup x) eqn:Mx.
  - destruct (entity_longer x Mx) as [L H].
    split; [lia |]. intros _. split; [lia |].
    apply orb_true_iff. left.
    clear - H. induction (entity x) as [| y e IH]; simpl in *; [discriminate |].
    apply orb_true_iff in H. destruct H as [H | H].
    + apply Ascii.eqb_eq in H. subst y. reflexivity.
    + rewrite (IH H). apply orb_true_r.
  - rewrite (entity_plain x Mx). simpl. split; [lia |].
    intros H. destruct (IH2 H) as [L M]. split; [lia |].
    rewrite M. rewrite Mx. reflexivity.
Qed.

Lemma each_char_plain (s : string) :
  has_markup s = false -> each_char entity s = s.
Proof.
  induction s as [| x s IH]; simpl; [reflexivity |].
  intros H. apply orb_false_iff in H. destruct H as [Hx Hs].
  rewrite (entity_plain x Hx), (IH Hs). reflexivity.
Qed.

(** X25: the five replacements in a row amount to one pass that puts, for
    each character, its entity: no replacement touches what an earlier one
    wrote.  So the result holds none of the characters [<], [>], the double
    quote and the single quote. *)
Theorem escapeHtml_one_pass :
  forall unsafe,
    escapeHtml unsafe = each_char entity unsafe
    /\ has_char "<" (escapeHtml unsafe) = false
    /\ has_char ">" (escapeHtml unsafe) = false
    /\ has_char "034" (escapeHtml unsafe) = false
    /\ has_char "'" (escapeHtml unsafe) = false.
Proof.
  intros unsafe. split; [apply escapeHtml_each |].
  rewrite escapeHtml_each.
  induction unsafe as [| x s IH]; simpl; [repeat split; reflexivity |].
  repeat rewrite has_char_append.
  destruct IH as [I1 [I2 [I3 I4]]]. rewrite I1, I2, I3, I4.
  repeat rewrite orb_false_r.
  destruct x as [[] [] [] [] [] [] [] []]; repeat split; reflexivity.
Qed.

(** X26: escaping is the identity exactly on the strings that hold none of
    the five characters, and it is not idempotent: escaping a second time
    changes the string again whenever the first time did. *)
Theorem escapeHtml_fixed_points :
  forall unsafe,
    (escapeHtml unsafe = unsafe <-> has_markup unsafe = false)
    /\ (escapeHtml (escapeHtml unsafe) = escapeHtml unsafe
        <-> escapeHtml unsafe = unsafe).
Proof.
  assert (F : forall s, escapeHtml s = s <-> has_markup s = false).
  { intros s. rewrite escapeHtml_each. split.
    - intros E. destruct (has_markup s) eqn:H; [| reflexivity].
      destruct (each_char_length s) as [_ L]. destruct (L H) as [L' _].
      rewrite E in L'. lia.
    - apply each_char_plain. }
  intros unsafe. split; [apply F |]. split.
  - intros E. apply F in E. apply F.
    destruct (has_markup unsafe) eqn:H; [| reflexivity].
    destruct (each_char_length unsafe) as [_ L]. destruct (L H) as [_ M].
    rewrite <- escapeHtml_each in M. congruence.
  - intros E. rewrite E. exact E.
Qed.

Lemma authenticateToken_rejects_witness :
  authenticateToken Z (fun _ => Some 2) (Some "Bearer"%string) = sendStatus 401.
Proof.
  exact (proj1 (proj2 (authenticateToken_rejects Z (fun _ => Some 2)))
           "Bearer"%string eq_refl).
Defined.

(** * The thread panel and the reactions *)

Lemma shows_after_removal (rows : list Reaction.t) (found : Reaction.t)
  (u messageId : Z) (e : string) :
  NoDup (map triple rows) -> NoDup (map Reaction.id rows) ->
  In found rows -> triple found = (u, messageId, e) ->
  forall part,
    incl part rows ->
    filter (fun r => negb ((Client.userId r =? u)
                           && String.eqb (Client.emoji r) e))
      (map as_sent (filter (fun r => Reaction.messageId r =? messageId) part))
    = map as_sent
        (filter (fun r => Reaction.messageId r =? messageId)
           (filter (fun x => negb (Reaction.id x =? Reaction.id found)) part)).
Proof.
  intros Nt Ni Hf Tf. induction part as [| x part IH]; intros I;
    [reflexivity |].
  assert (Hx : In x rows) by (apply I; left; reflexivity).
  assert (I' : incl part rows) by (intros y Hy; apply I; right; exact Hy).
  specialize (IH I'). simpl.
  destruct (Reaction.messageId x =? messageId) eqn:Mx.
  - apply Z.eqb_eq in Mx. simpl.
    destruct (Reaction.id x =? Reaction.id found) eqn:Ix; simpl.
    + apply Z.eqb_eq in Ix.
      assert (x = found) by (apply (one_row_per_reaction_id rows); assumption).
      subst x.
      assert (U : Reaction.userId found = u)
        by (unfold triple in Tf; congruence).
      assert (Ef : Reaction.emoji found = e)
        by (unfold triple in Tf; congruence).
      rewrite U, Ef, Z.eqb_refl, String.eqb_refl. simpl. exact IH.
    + rewrite Mx, Z.eqb_refl.
      destruct ((Reaction.userId x =? u) && String.eqb (Reaction.emoji x) e)
        eqn:T; simpl.
      * exfalso. apply andb_true_iff in T. destruct T as [T1 T2].
        apply Z.eqb_eq in T1. apply String.eqb_eq in T2.
        assert (x = found).
        { apply (one_row_per_triple rows); try assumption.
          rewrite Tf. unfold triple. congruence. }
        subst x. rewrite Z.eqb_refl in Ix. discriminate.
      * rewrite IH. reflexivity.
  - destruct (Reaction.id x =? Reaction.id found) eqn:Ix; simpl.
    + exact IH.
    + rewrite Mx. exact IH.
Qed.

Lemma shows_elsewhere (rows : list Reaction.t) (found : Reaction.t) (i : Z) :
  NoDup (map Reaction.id rows) -> In found rows ->
  Reaction.messageId found <> i ->
  forall part,
    incl part rows ->
    filter (fun r => Reaction.messageId r =? i)
      (filter (fun x => negb (Reaction.id x =? Reaction.id found)) part)
    = filter (fun r => Reaction.messageId r =? i) part.
Proof.
  intros Ni Hf D. induction part as [| x part IH]; intros I; [reflexivity |].
  assert (Hx : In x rows) by (apply I; left; reflexivity).
  assert (I' : incl part rows) by (intros y Hy; apply I; right; exact Hy).
  specialize (IH I'). simpl.
  destruct (Reaction.id x =? Reaction.id found) eqn:Ix; simpl.
  - apply Z.eqb_eq in Ix.
    assert (x = found) by (apply (one_row_per_reaction_id rows); assumption).
    subst x. apply Z.eqb_neq in D. rewrite D. exact IH.
  - rewrite IH. reflexivity.
Qed.

Lemma removal_shown (rows : list Reaction.t) (found : Reaction.t)
  (u messageId : Z) (e : string) (d : Db) (msg : Client.Msg) :
  NoDup (map triple rows) -> NoDup (map Reaction.id rows) ->
  In found rows -> triple found = (u, messageId, e) ->
  reaction d = rows ->
  shows d msg ->
  shows (with_reaction
           (filter (fun x => negb (Reaction.id x =? Reaction.id found)) rows)
           (reaction_seq d) d)
        (removeReaction messageId e u msg).
Proof.
  intros Nt Ni Hf Tf R S. unfold shows in *. unfold removeReaction.
  rewrite R in S.
  destruct (Client.id msg =? messageId) eqn:E; simpl.
  - apply Z.eqb_eq in E. rewrite S, E.
    apply (shows_after_removal rows found u messageId e Nt Ni Hf Tf rows).
    apply incl_refl.
  - rewrite S. f_equal. symmetry.
    apply (shows_elsewhere rows found (Client.id msg) Ni Hf).
    + apply Z.eqb_neq in E. unfold triple in Tf. inversion Tf. congruence.
    + apply incl_refl.
Qed.

Lemma addition_shown (u messageId : Z) (e : string) (d : Db)
  (msg : Client.Msg) :
  shows d msg ->
  shows (with_reaction
           (reaction d ++ [Reaction.mk (reaction_seq d) e u messageId])
           (reaction_seq d + 1) d)
        (updateReaction messageId
           (as_sent (Reaction.mk (reaction_seq d) e u messageId)) msg).
Proof.
  intros S. unfold shows in *. unfold updateReaction. simpl.
  rewrite filter_app, map_app. simpl.
  destruct (Client.id msg =? messageId) eqn:E; simpl.
  - apply Z.eqb_eq in E. rewrite E, Z.eqb_refl. simpl.
    rewrite S, E. reflexivity.
  - rewrite Z.eqb_sym, E. simpl. rewrite app_nil_r. exact S.
Qed.

(** X27: a thread panel whose messages show the reactions of the table still
    shows them after any toggle, once it has handled what the toggle
    broadcast: the reducers of the client redo on its copy what the server
    did to the table (unique triples and ids, as the schema has them). *)
Theorem thread_panel_follows_toggle :
  forall rootId socket messageId emoji s p,
    NoDup (map triple (reaction (prisma s))) ->
    NoDup (map Reaction.id (reaction (prisma s))) ->
    panel_shows rootId (prisma s) p ->
    let d' := prisma (fst (exec (toggle_reaction socket messageId emoji) s)) in
    match snd (exec (toggle_reaction socket messageId emoji) s) with
    | [] => panel_shows rootId d' p
    | [(room_general, message_reaction_added m r)] =>
        panel_shows rootId d' (handleReactionAdded rootId m (as_sent r) p)
    | [(room_general, message_reaction_removed m e u)] =>
        panel_shows rootId d' (handleReactionRemoved rootId m e u p)
    | _ => False
    end.
Proof.
  intros rootId socket messageId emoji s p Nt Ni [Pr Pl] d'.
  pose proof (toggle_cases socket messageId emoji s) as C.
  pose proof (toggle_run socket messageId emoji s) as R.
  cbv zeta in C, R. fold d' in C.
  destruct R as [[r [F O]] | [[F [K O]] | [F [K O]]]];
    destruct C as [[r' [F' D]] | [[F' [K' D]] | [F' [K' D]]]];
    try congruence.
  - rewrite F in F'. inversion F'; subst r'. clear F'.
    rewrite O, D.
    assert (Hf : In r (reaction (prisma s))) by apply (find_some _ _ F).
    assert (Tf : triple r = (currentUser socket, messageId, emoji)).
    { apply same_triple_spec. apply (find_some _ _ F). }
    unfold panel_shows, handleReactionRemoved. cbn [rootMsg replies].
    split.
    + intros c Hc.
      destruct (rootId =? messageId) eqn:E.
      * destruct (rootMsg p) as [c0 |] eqn:H0; simpl in Hc; [| discriminate].
        inversion Hc; subst c. destruct (Pr c0 eq_refl) as [I0 S0].
        split.
        { unfold removeReaction. destruct (negb _); exact I0. }
        { apply removal_shown; auto. }
      * destruct (Pr c Hc) as [I0 S0]. split; [exact I0 |].
        assert (N : (Client.id c =? messageId) = false) by (rewrite I0; exact E).
        pose proof (removal_shown _ r (currentUser socket) messageId emoji
                      (prisma s) c Nt Ni Hf Tf eq_refl S0) as X.
        unfold removeReaction in X. rewrite N in X. exact X.
    + rewrite Forall_forall in *. intros c Hc.
      apply in_map_iff in Hc. destruct Hc as [c0 [Ec Hc0]]. subst c.
      apply removal_shown; auto.
  - rewrite O, D.
    unfold panel_shows, handleReactionAdded. cbn [rootMsg replies].
    split.
    + intros c Hc.
      destruct (rootId =? messageId) eqn:E.
      * destruct (rootMsg p) as [c0 |] eqn:H0; simpl in Hc; [| discriminate].
        inversion Hc; subst c. destruct (Pr c0 eq_refl) as [I0 S0].
        split.
        { unfold updateReaction. destruct (negb _); exact I0. }
        { apply addition_shown. exact S0. }
      * destruct (Pr c Hc) as [I0 S0]. split; [exact I0 |].
        assert (N : (Client.id c =? messageId) = false) by (rewrite I0; exact E).
        pose proof (addition_shown (currentUser socket) messageId emoji
                      (prisma s) c S0) as X.
        unfold updateReaction in X. rewrite N in X. exact X.
    + rewrite Forall_forall in *. intros c Hc.
      apply in_map_iff in Hc. destruct Hc as [c0 [Ec Hc0]]. subst c.
      apply addition_shown. auto.
  - rewrite O. cbn [snd]. rewrite D. split; assumption.
Qed.

Lemma thread_panel_follows_toggle_witness :
  panel_shows 1
    (prisma (fst (exec (toggle_reaction bob 1 "+1") one_reaction)))
    (handleReactionRemoved 1 1 "+1" 3 open_panel).
Proof.
  apply (thread_panel_follows_toggle 1 bob 1 "+1"%string one_reaction
           open_panel).
  - vm_compute. constructor; [simpl; tauto | constructor].
  - vm_compute. constructor; [simpl; tauto | constructor].
  - split.
    + intros r H. inversion H; subst. split; reflexivity.
    + repeat constructor.
Defined.

(** * Bookmarks: the route and the panel *)

Lemma same_bookmark_spec (u m : Z) (b : Bookmark.t) :
  same_bookmark u m b = true <-> bookmark_pair b = (u, m).
Proof.
  unfold same_bookmark, bookmark_pair. rewrite andb_true_iff, !Z.eqb_eq.
  split; [intros [H1 H2]; congruence | intros H; inversion H; auto].
Qed.

Lemma remove_first_gone (u m : Z) :
  forall l,
    NoDup (map bookmark_pair l) ->
    existsb (same_bookmark u m) (remove_first (same_bookmark u m) l) = false.
Proof.
  induction l as [| b l IH]; intros N; simpl; [reflexivity |].
  simpl in N. apply NoDup_cons_iff in N. destruct N as [Nb N].
  destruct (same_bookmark u m b) eqn:B.
  - destruct (existsb (same_bookmark u m) l) eqn:X; [| reflexivity].
    exfalso. apply Nb. apply existsb_exists in X. destruct X as [x [Hx Bx]].
    apply same_bookmark_spec in B. apply same_bookmark_spec in Bx.
    rewrite B, <- Bx. apply in_map. exact Hx.
  - simpl. rewrite B. simpl. apply IH. exact N.
Qed.

Lemma remove_first_others (u m u' m' : Z) :
  (u', m') <> (u, m) ->
  forall l,
    existsb (same_bookmark u' m') (remove_first (same_bookmark u m) l)
    = existsb (same_bookmark u' m') l.
Proof.
  intros D. induction l as [| b l IH]; simpl; [reflexivity |].
  destruct (same_bookmark u m b) eqn:B.
  - destruct (same_bookmark u' m' b) eqn:B'; [| reflexivity].
    exfalso. apply D.
    apply same_bookmark_spec in B. apply same_bookmark_spec in B'. congruence.
  - simpl. rewrite IH. reflexivity.
Qed.

Lemma remove_first_pairs (p : Bookmark.t -> bool) :
  forall l,
    NoDup (map bookmark_pair l) ->
    NoDup (map bookmark_pair (remove_first p l))
    /\ incl (remove_first p l) l.
Proof.
  induction l as [| b l IH]; intros N; simpl.
  - split; [constructor | apply incl_refl].
  - simpl in N. apply NoDup_cons_iff in N. destruct N as [Nb N].
    destruct (IH N) as [N' I'].
    destruct (p b).
    + split; [exact N | apply incl_tl, incl_refl].
    + split.
      * simpl. constructor; [| exact N'].
        intros H. apply Nb. apply in_map_iff in H.
        destruct H as [x [Ex Hx]]. rewrite <- Ex. apply in_map, I', Hx.
      * intros x [Hx | Hx]; [left; exact Hx | right; apply I', Hx].
Qed.

(** How a toggle of a bookmark on an existing message goes. *)
Lemma bookmarks_toggle_run (userId messageId : Z) (d : Db) (msg : Message.t) :
  NoDup (map bookmark_pair (bookmark d)) ->
  message_findUnique messageId d = Some msg ->
  exists d',
    bookmarks_toggle userId messageId d
    = (d',
       [mkBookmarkUpdated userId (Some msg)
          (negb (has_bookmark userId messageId d))],
       bookmark_json (negb (has_bookmark userId messageId d)))
    /\ has_bookmark userId messageId d'
       = negb (has_bookmark userId messageId d)
    /\ (forall u m, (u, m) <> (userId, messageId) ->
                    has_bookmark u m d' = has_bookmark u m d)
    /\ message d' = message d
    /\ NoDup (map bookmark_pair (bookmark d')).
Proof.
  intros N F. unfold bookmarks_toggle, bookmark_findUnique, has_bookmark.
  destruct (find (same_bookmark userId messageId) (bookmark d))
    as [existing |] eqn:E.
  - assert (X : existsb (same_bookmark userId messageId) (bookmark d) = true).
    { apply existsb_exists. exists existing. apply (find_some _ _ E). }
    rewrite X. eexists. split; [| split; [| split; [| split]]].
    + unfold bookmark_delete, message_findUnique. cbn [with_bookmark message].
      unfold message_findUnique in F. rewrite F. reflexivity.
    + unfold bookmark_delete. cbn [with_bookmark bookmark negb].
      apply remove_first_gone. exact N.
    + intros u m D. unfold bookmark_delete. cbn [with_bookmark bookmark].
      apply remove_first_others. exact D.
    + reflexivity.
    + unfold bookmark_delete. cbn [with_bookmark bookmark].
      apply remove_first_pairs. exact N.
  - assert (X : existsb (same_bookmark userId messageId) (bookmark d) = false).
    { destruct (existsb _ _) eqn:X; [| reflexivity].
      apply existsb_exists in X. destruct X as [x [Hx Bx]].
      rewrite (find_none _ _ E x Hx) in Bx. discriminate. }
    unfold bookmark_create. rewrite X, (found_fk _ _ _ F). cbn [andb negb].
    eexists. split; [| split; [| split; [| split]]].
    + unfold message_findUnique. cbn [with_bookmark message].
      unfold message_findUnique in F. rewrite F. reflexivity.
    + cbn [with_bookmark bookmark]. rewrite existsb_app. simpl.
      unfold same_bookmark at 2. cbn [Bookmark.userId Bookmark.messageId].
      rewrite !Z.eqb_refl. simpl. apply orb_true_r.
    + intros u m D. cbn [with_bookmark bookmark]. rewrite existsb_app. simpl.
      destruct (same_bookmark u m (Bookmark.mk userId messageId)) eqn:B.
      * exfalso. apply D. apply same_bookmark_spec in B.
        unfold bookmark_pair in B. simpl in B. congruence.
      * rewrite !orb_false_r. reflexivity.
    + reflexivity.
    + cbn [with_bookmark bookmark]. rewrite map_app. simpl.
      apply NoDup_snoc; [exact N |].
      intros H. apply in_map_iff in H. destruct H as [x [Ex Hx]].
      assert (B : same_bookmark userId messageId x = true)
        by (apply same_bookmark_spec; exact Ex).
      rewrite (find_none _ _ E x Hx) in B. discriminate.
Qed.

(** X28: on a message that exists, the bookmark route flips the bookmark of
    this user on this message and of no other pair, answers the new state and
    sends it, with the message, to the room of the user only; the pairs stay
    unique and the messages untouched. *)
Theorem bookmarks_toggle_flips :
  forall userId messageId d msg,
    NoDup (map bookmark_pair (bookmark d)) ->
    message_findUnique messageId d = Some msg ->
    exists d',
      bookmarks_toggle userId messageId d
      = (d',
         [mkBookmarkUpdated userId (Some msg)
            (negb (has_bookmark userId messageId d))],
         bookmark_json (negb (has_bookmark userId messageId d)))
      /\ has_bookmark userId messageId d'
         = negb (has_bookmark userId messageId d)
      /\ (forall u m, (u, m) <> (userId, messageId) ->
                      has_bookmark u m d' = has_bookmark u m d)
      /\ message d' = message d
      /\ NoDup (map bookmark_pair (bookmark d')).
Proof.
  intros userId messageId d msg N F.
  apply (bookmarks_toggle_run userId messageId d msg N F).
Qed.

(** X29: on a message that does not exist the route answers 500, stores
    nothing and sends nothing (every bookmark of the table naming an existing
    message, as the foreign key has it). *)
Theorem bookmarks_toggle_refused :
  forall userId messageId d,
    (forall b, In b (bookmark d) -> fk_message (Bookmark.messageId b) d = true) ->
    message_findUnique messageId d = None ->
    bookmarks_toggle userId messageId d = (d, [], bookmark_500).
Proof.
  intros userId messageId d K F. apply fk_not_found in F.
  unfold bookmarks_toggle, bookmark_findUnique.
  destruct (find (same_bookmark userId messageId) (bookmark d))
    as [existing |] eqn:E.
  - exfalso. apply find_some in E. destruct E as [Hin B].
    specialize (K existing Hin).
    apply same_bookmark_spec in B. unfold bookmark_pair in B.
    inversion B. congruence.
  - unfold bookmark_create. rewrite F. reflexivity.
Qed.

(** X30: after a toggle on an existing message, the bookmarks panel that has
    handled the event agrees with the table on that message, whatever it held
    before, and holds the same other messages as before. *)
Theorem bookmarks_panel_follows_toggle :
  forall userId messageId d msg prev,
    NoDup (map bookmark_pair (bookmark d)) ->
    message_findUnique messageId d = Some msg ->
    let d' := fst (fst (bookmarks_toggle userId messageId d)) in
    let sent := snd (fst (bookmarks_toggle userId messageId d)) in
    let panel := fold_left (fun l u => handleBookmarkUpdate u l) sent prev in
    (In messageId (map Message.id panel)
     <-> has_bookmark userId messageId d' = true)
    /\ (forall i, i <> messageId ->
                  (In i (map Message.id panel) <-> In i (map Message.id prev))).
Proof.
  intros userId messageId d msg prev N F d' sent panel.
  destruct (bookmarks_toggle_run userId messageId d msg N F)
    as [d1 [R [H [_ _]]]].
  subst d' sent panel. rewrite R. cbn [fst snd fold_left].
  rewrite H. apply find_has_id in F. destruct F as [_ I].
  unfold handleBookmarkUpdate. cbn [updated_message bookmarked].
  assert (Out : forall l : list Message.t,
             ~ In messageId
                 (map Message.id
                    (filter (fun b => negb (Message.id b =? Message.id msg)) l))).
  { intros l G. apply in_map_iff in G. destruct G as [x [Ex Hx]].
    apply filter_In in Hx. destruct Hx as [_ Hx].
    apply negb_true_iff, Z.eqb_neq in Hx. congruence. }
  assert (Rest : forall (l : list Message.t) i,
             i <> messageId ->
             (In i (map Message.id
                      (filter (fun b => negb (Message.id b =? Message.id msg)) l))
              <-> In i (map Message.id l))).
  { intros l i D. rewrite !in_map_iff. split.
    - intros [x [Ex Hx]]. apply filter_In in Hx. exists x. tauto.
    - intros [x [Ex Hx]]. exists x. split; [exact Ex |].
      apply filter_In. split; [exact Hx |].
      apply negb_true_iff, Z.eqb_neq. congruence. }
  destruct (has_bookmark userId messageId d); cbn [negb].
  - split.
    + split; [intros G; exfalso; apply (Out prev G) | discriminate].
    + intros i D. apply Rest. exact D.
  - destruct (existsb (fun b => Message.id b =? Message.id msg) prev) eqn:X.
    + split; [| tauto]. split; [reflexivity |]. intros _.
      apply existsb_exists in X. destruct X as [x [Hx Ex]].
      apply Z.eqb_eq in Ex. apply in_map_iff. exists x.
      split; [congruence | exact Hx].
    + split.
      * split; [reflexivity |]. intros _. apply in_map_iff. exists msg.
        split; [exact I |]. apply order_by_in. left. reflexivity.
      * intros i D. rewrite !in_map_iff. split.
        { intros [x [Ex Hx]]. apply order_by_in in Hx.
          destruct Hx as [Hx | Hx]; [subst x; congruence |].
          exists x. tauto. }
        { intros [x [Ex Hx]]. exists x. split; [exact Ex |].
          apply order_by_in. right. exact Hx. }
Qed.

Lemma bookmarks_toggle_flips_witness :
  exists d',
    bookmarks_toggle 3 1 (prisma deleted_with_bookmarks)
    = (d',
       [mkBookmarkUpdated 3
          (Some (Message.set_flags true false true
                   (fresh_message 1 2 0 "first" None)))
          false],
       bookmark_json false)
    /\ has_bookmark 3 1 d' = false.
Proof.
  assert (N : NoDup (map bookmark_pair
                       (bookmark (prisma deleted_with_bookmarks)))).
  { vm_compute. repeat (constructor; [simpl; intuition congruence |]).
    constructor. }
  destruct (bookmarks_toggle_flips 3 1 (prisma deleted_with_bookmarks)
              (Message.set_flags true false true
                 (fresh_message 1 2 0 "first" None)) N eq_refl)
    as [d' [R [H _]]].
  exists d'. split; [exact R | exact H].
Defined.

Lemma bookmarks_toggle_refused_witness :
  bookmarks_toggle 3 9 (prisma deleted_with_bookmarks)
  = (prisma deleted_with_bookmarks, [], bookmark_500).
Proof.
  apply (bookmarks_toggle_refused 3 9 (prisma deleted_with_bookmarks)).
  - intros b H. simpl in H.
    destruct H as [H | [H | [H | []]]]; subst b; reflexivity.
  - reflexivity.
Defined.

Lemma bookmarks_panel_follows_toggle_witness :
  In 2 (map Message.id
          (fold_left (fun l u => handleBookmarkUpdate u l)
             (snd (fst (bookmarks_toggle 3 2 (prisma deleted_with_bookmarks))))
             [Message.set_flags true false true
                (fresh_message 1 2 0 "first" None)]))
  <-> has_bookmark 3 2
        (fst (fst (bookmarks_toggle 3 2 (prisma deleted_with_bookmarks))))
      = true.
Proof.
  assert (N : NoDup (map bookmark_pair
                       (bookmark (prisma deleted_with_bookmarks)))).
  { vm_compute. repeat (constructor; [simpl; intuition congruence |]).
    constructor. }
  exact (proj1 (bookmarks_panel_follows_toggle 3 2
                  (prisma deleted_with_bookmarks)
                  (fresh_message 2 2 10 "second" None)
                  [Message.set_flags true false true
                     (fresh_message 1 2 0 "first" None)]
                  N eq_refl)).
Defined.
